(** * Aztec-Wormhole demo: the relayer-facing code, embedded and specified

    The development follows the repository's layout:

    - [SendMessage] embeds [packages/frontend/app/contracts/send-message.mjs]
      (nonce bookkeeping, byte-array helpers, process lifecycle);
    - [Keccak], [ABI] and [EVMClient] embed the Go client that submits
      [verify(bytes)] transactions to the EVM destination chain, with the
      part of go-ethereum's ABI encoder it relies on;
    - [Relayer] models the relayer pipeline (relevance filter, dedup ledger,
      dispatcher, retry/failover controller) from the design document, with
      the emitter registration of the deployment script;
    - [SendMessageHelpers], [ProxyLogger] and [NonceFile] embed the rest of
      [send-message.mjs]: the string and debugging helpers, the message
      [main] builds, the proxied logger and the loading of the nonce file;
    - [EVMClientSetup] embeds the Go client's constructor;
    - [DeployVault] embeds the two Foundry deployment scripts;
    - [TestDevnet], [DeployCounter] and [CopyArtifacts] embed the [.env]
      loader and the scripts [deploy-counter.mjs] and
      [wormhole/copy-artifacts.mjs].

    The modules whose names end in [Proofs] hold the lemmas and theorems. *)

From Stdlib Require Import ZArith List String Ascii Lia Sorted.
From stdpp Require Import base list gmap strings pretty.

Import ListNotations.
Local Open Scope string_scope.
Local Open Scope list_scope.
Local Open Scope Z_scope.

(** ** A small monad for script code: state, exceptions and [process.exit] *)

Module Script.

(** How a JavaScript computation ends: it returns a value, throws, or
    terminates the whole process through [process.exit(code)]. *)
Inductive outcome (E A : Type) : Type :=
| Ret (a : A)
| Throw (e : E)
| Exit (code : Z).
Arguments Ret {E A} a.
Arguments Throw {E A} e.
Arguments Exit {E A} code.

Definition M (W E A : Type) : Type := W -> outcome E A * W.

Definition ret {W E A} (a : A) : M W E A := fun w => (Ret a, w).

Definition bind {W E A B} (c : M W E A) (k : A -> M W E B) : M W E B :=
  fun w =>
    match c w with
    | (Ret a, w') => k a w'
    | (Throw e, w') => (Throw e, w')
    | (Exit n, w') => (Exit n, w')
    end.

Definition throw {W E A} (e : E) : M W E A := fun w => (Throw e, w).

(** [process.exit(code)]: nothing after it runs. *)
Definition exit {W E A} (code : Z) : M W E A := fun w => (Exit code, w).

(** [try { c } catch (e) { h e }] *)
Definition try_catch {W E A} (c : M W E A) (h : E -> M W E A) : M W E A :=
  fun w =>
    match c w with
    | (Throw e, w') => h e w'
    | r => r
    end.

Definition get {W E} : M W E W := fun w => (Ret w, w).
Definition modify {W E} (f : W -> W) : M W E unit := fun w => (Ret tt, f w).

End Script.

Import Script.

Notation "'let*' x ':=' c 'in' k" := (Script.bind c (fun x => k))
  (at level 10, x name, c at level 100, k at level 200).
Notation "c '>>' k" := (Script.bind c (fun _ => k))
  (at level 90, right associativity).

(** ** send-message.mjs *)

Module SendMessage.

(** The values JavaScript code throws and promises reject with. What the
    script does with one is print it or read its [message]: a value whose
    properties can be read (an [Error] object, a string, a number) is kept
    by its description; of any other value only what reading [message]
    throws is kept. *)
Inductive exn :=
| Raised (description : string)
| Unreadable (raised : exn).

Coercion Raised : string >-> exn.

(** [undefined] and [null] as thrown values: reading a property of either
    throws a [TypeError]. *)
Definition undefinedValue : exn :=
  Unreadable "TypeError: Cannot read properties of undefined (reading 'message')".

Definition nullValue : exn :=
  Unreadable "TypeError: Cannot read properties of null (reading 'message')".

(** The PXE service handle held in the module-level [pxe] variable. *)
Inductive PxeStatus := PxeOpen | PxeClosed.

(** Console lines, by the statement that prints them. *)
Inductive logmsg :=
| SavedNonces (tokenNonce walletNonce : Z)
| ErrorSavingNonces (e : exn)
| CleaningUp
| PxeServiceClosed
| NodeClientCleanedUp
| ErrorDuringCleanup (e : exn)
| ReceivedSIGINT
| ReceivedSIGTERM
| UnhandledError (e : exn).

(** Observable effects, most recent last. *)
Inductive event :=
| Console (m : logmsg)
| WriteFile (contents : string)
| PxeCloseCalled.

(** Module-level variables, the nonce file, and the environment.
    [faults] is the schedule of the environment's answers to the fallible
    external calls ([writeFileSync], [pxe.close]), consumed one per call:
    [Some e] makes the call throw [e]; an exhausted schedule means no
    further failure. *)
Record World := mkWorld {
  currentTokenNonce : Z;
  currentWalletNonce : Z;
  pxe : option PxeStatus;
  nodeClient : option unit;
  nonceFile : option string;
  trace : list event;
  faults : list (option exn)
}.

Definition JS := M World exn.

Definition emit (ev : event) : JS unit :=
  modify (fun w => mkWorld (currentTokenNonce w) (currentWalletNonce w)
                     (pxe w) (nodeClient w) (nonceFile w)
                     (trace w ++ [ev]) (faults w)).

Definition console (m : logmsg) : JS unit := emit (Console m).

(** The next answer of the environment. *)
Definition nextFault : JS (option exn) :=
  fun w =>
    match faults w with
    | [] => (Ret None, w)
    | f :: fs => (Ret f, mkWorld (currentTokenNonce w) (currentWalletNonce w)
                          (pxe w) (nodeClient w) (nonceFile w) (trace w) fs)
    end.

(** [writeFileSync(NONCE_FILE_PATH, contents)] *)
Definition writeFileSync (contents : string) : JS unit :=
  let* f := nextFault in
  match f with
  | Some e => throw e
  | None =>
      modify (fun w => mkWorld (currentTokenNonce w) (currentWalletNonce w)
                         (pxe w) (nodeClient w) (Some contents)
                         (trace w) (faults w)) >>
      emit (WriteFile contents)
  end.

Definition dquote : string := String "034"%char EmptyString.
Definition newline : string := String "010"%char EmptyString.

(** [BigInt.prototype.toString()]: decimal digits, with a minus sign. *)
Definition bigintToString (n : Z) : string := pretty n.

(** [JSON.stringify({token_nonce: t, wallet_nonce: w}, null, 2)] for two
    strings that need no escaping. *)
Definition stringifyNonceData (token_nonce wallet_nonce : string) : string :=
  ("{" ++ newline ++
   "  " ++ dquote ++ "token_nonce" ++ dquote ++ ": "
        ++ dquote ++ token_nonce ++ dquote ++ "," ++ newline ++
   "  " ++ dquote ++ "wallet_nonce" ++ dquote ++ ": "
        ++ dquote ++ wallet_nonce ++ dquote ++ newline ++
   "}")%string.

Definition saveNoncesToFile (tokenNonce walletNonce : Z) : JS unit :=
  try_catch
    (writeFileSync (stringifyNonceData (bigintToString tokenNonce)
                                       (bigintToString walletNonce)) >>
     console (SavedNonces tokenNonce walletNonce))
    (fun error => console (ErrorSavingNonces error) >> throw error).

Definition setTokenNonce (n : Z) : JS unit :=
  modify (fun w => mkWorld n (currentWalletNonce w) (pxe w) (nodeClient w)
                     (nonceFile w) (trace w) (faults w)).

Definition setWalletNonce (n : Z) : JS unit :=
  modify (fun w => mkWorld (currentTokenNonce w) n (pxe w) (nodeClient w)
                     (nonceFile w) (trace w) (faults w)).

Definition getNextTokenNonce : JS Z :=
  let* w := get in
  setTokenNonce (currentTokenNonce w + 1) >>
  let* w := get in
  saveNoncesToFile (currentTokenNonce w) (currentWalletNonce w) >>
  let* w := get in
  ret (currentTokenNonce w).

Definition getNextWalletNonce : JS Z :=
  let* w := get in
  setWalletNonce (currentWalletNonce w + 1) >>
  let* w := get in
  saveNoncesToFile (currentTokenNonce w) (currentWalletNonce w) >>
  let* w := get in
  ret (currentWalletNonce w).

(** The module's initial state: the two [let] initialisers, nothing else set. *)
Definition initialWorld (file : option string) (fs : list (option exn)) : World :=
  mkWorld 67 100042 None None file [] fs.

(** *** Nonce calls in sequence

    A caller that invokes the two nonce operations one after the other and
    keeps going after a call that throws; each call's outcome is recorded. *)
Inductive nonceOp := NextToken | NextWallet.

Definition callNonceOp (op : nonceOp) : JS Z :=
  match op with
  | NextToken => getNextTokenNonce
  | NextWallet => getNextWalletNonce
  end.

Fixpoint callAll (ops : list nonceOp) (w : World)
  : list (nonceOp * outcome exn Z) * World :=
  match ops with
  | [] => ([], w)
  | op :: rest =>
      let (r, w1) := callNonceOp op w in
      let (rs, w2) := callAll rest w1 in
      ((op, r) :: rs, w2)
  end.

Definition isOp (a b : nonceOp) : bool :=
  match a, b with
  | NextToken, NextToken | NextWallet, NextWallet => true
  | _, _ => false
  end.

(** The values one operation returned, in call order. *)
Fixpoint returned (op : nonceOp) (rs : list (nonceOp * outcome exn Z)) : list Z :=
  match rs with
  | [] => []
  | (op', Ret v) :: rest =>
      if isOp op op' then v :: returned op rest else returned op rest
  | _ :: rest => returned op rest
  end.

(** *** JavaScript strings and [parseInt]

    A string is its sequence of UTF-16 code units; [length] and
    [substring] count code units. *)
Abbreviation jsstring := (list Z).

Definition codeUnits (s : string) : jsstring :=
  map (fun a => Z.of_N (N_of_ascii a)) (list_ascii_of_string s).

Fixpoint startsWith (s prefix : jsstring) {struct prefix} : bool :=
  match prefix with
  | [] => true
  | p :: ps =>
      match s with
      | c :: cs => (p =? c)%Z && startsWith cs ps
      | [] => false
      end
  end.

(** [s.substring(start, end)] for non-negative integer arguments: both are
    clamped to the length and swapped when out of order. *)
Definition substring (s : jsstring) (start end_ : nat) : jsstring :=
  let a := Nat.min start (length s) in
  let b := Nat.min end_ (length s) in
  take (Nat.max a b - Nat.min a b) (drop (Nat.min a b) s).

(** [s.substring(start)] *)
Definition substringFrom (s : jsstring) (start : nat) : jsstring :=
  substring s start (length s).

(** ECMAScript [WhiteSpace] and [LineTerminator] code units. *)
Definition isWhiteSpace (c : Z) : bool :=
  ((c =? 9) || (c =? 10) || (c =? 11) || (c =? 12) || (c =? 13) || (c =? 32)
   || (c =? 160) || (c =? 5760) || ((8192 <=? c) && (c <=? 8202))
   || (c =? 8232) || (c =? 8233) || (c =? 8239) || (c =? 8287)
   || (c =? 12288) || (c =? 65279))%Z.

Fixpoint trimStart (s : jsstring) : jsstring :=
  match s with
  | c :: rest => if isWhiteSpace c then trimStart rest else s
  | [] => []
  end.

(** The value of a radix-16 digit: [0-9], [a-f], [A-F]. *)
Definition hexDigitValue (c : Z) : option Z :=
  if ((48 <=? c) && (c <=? 57))%Z then Some (c - 48)
  else if ((97 <=? c) && (c <=? 102))%Z then Some (c - 87)
  else if ((65 <=? c) && (c <=? 70))%Z then Some (c - 55)
  else None.

(** The values of the longest prefix made of radix-16 digits. *)
Fixpoint digitsPrefix (s : jsstring) : list Z :=
  match s with
  | c :: rest =>
      match hexDigitValue c with
      | Some d => d :: digitsPrefix rest
      | None => []
      end
  | [] => []
  end.

(** [parseInt(s, 16)]; [None] is [NaN]. Leading white space is skipped, one
    sign is read, a [0x]/[0X] prefix is dropped, and the longest run of
    digits is taken. (Exact for results below 2^53; the substrings parsed
    here have two code units. [-0] is read as [0].) *)
Definition parseInt16 (s : jsstring) : option Z :=
  let s1 := trimStart s in
  let sign := match s1 with 45 :: _ => -1 | _ => 1 end in
  let s2 := match s1 with
            | 43 :: rest => rest
            | 45 :: rest => rest
            | _ => s1
            end in
  let s3 := match s2 with
            | 48 :: 120 :: rest => rest
            | 48 :: 88 :: rest => rest
            | _ => s2
            end in
  match digitsPrefix s3 with
  | [] => None
  | ds => Some (sign * fold_left (fun acc d => acc * 16 + d) ds 0)
  end.

(** *** Typed arrays *)

(** The contents of a [Uint8Array]: one [Z] in [0, 256) per element. *)
Abbreviation Uint8Array := (list Z).

(** [new Uint8Array(n)] *)
Definition newUint8Array (n : nat) : Uint8Array := replicate n 0.

(** The conversion applied when a number is stored in a [Uint8Array]:
    [NaN] becomes 0, integers wrap modulo 256. *)
Definition ToUint8 (v : option Z) : Z :=
  match v with
  | None => 0
  | Some n => n mod 256
  end.

(** [arr.fill(v)] *)
Definition fill (v : Z) (arr : Uint8Array) : Uint8Array :=
  replicate (length arr) (ToUint8 (Some v)).

(** [arr[i] = v]; a store past the end of a typed array is ignored. *)
Definition setIndex (i : nat) (v : option Z) (arr : Uint8Array) : Uint8Array :=
  <[i := ToUint8 v]> arr.

Definition invalidAddressLength (len : nat) : exn :=
  ("Invalid address length: " ++ pretty len ++ " chars, expected 40")%string.

Definition hexAddressToUint8Array (hexAddress : jsstring) : exn + Uint8Array :=
  let hexAddress :=
    if startsWith hexAddress (codeUnits "0x")
    then substringFrom hexAddress 2
    else hexAddress in
  if negb (length hexAddress =? 40)%nat
  then inl (invalidAddressLength (length hexAddress))
  else
    let addressBytes := fill 0 (newUint8Array 31) in
    inr (fold_left
           (fun addressBytes i =>
              let byteHex := substring hexAddress (i * 2) (i * 2 + 2) in
              setIndex i (parseInt16 byteHex) addressBytes)
           (seq 0 20) addressBytes).

(** JavaScript's [ToInt32], applied by the bitwise operators. *)
Definition ToInt32 (n : Z) : Z := (n + 2 ^ 31) mod 2 ^ 32 - 2 ^ 31.

Definition chainIdToUint8Array (chainId : Z) : Uint8Array :=
  let chainIdBytes := fill 0 (newUint8Array 31) in
  let chainIdBytes :=
    setIndex 0 (Some (Z.land (ToInt32 chainId) 255)) chainIdBytes in
  let chainIdBytes :=
    setIndex 1 (Some (Z.land (Z.shiftr (ToInt32 chainId) 8) 255)) chainIdBytes in
  setIndex 30 (Some 2) chainIdBytes.

(** *** Array objects

    [createMessageArrays] stores into the arrays it is given, so arrays
    are objects in a store and are passed by reference: a reference is
    the object's position in the store. *)
Abbreviation ref := nat.
Abbreviation Heap := (list (list Z)).

Definition alloc (arr : Uint8Array) (h : Heap) : ref * Heap :=
  (length h, h ++ [arr]).

Definition heapFill (r : ref) (v : Z) (h : Heap) : Heap :=
  alter (fill v) r h.

(** [r[i] = v] on the object that [r] refers to. *)
Definition heapSet (r : ref) (i : nat) (v : Z) (h : Heap) : Heap :=
  alter (setIndex i (Some v)) r h.

(** The unused third parameter [verificationData] is omitted. *)
Definition createMessageArrays (donationAddress arbChainId : ref) (h : Heap)
  : list ref * Heap :=
  let msgArrays := [donationAddress; arbChainId] in
  let '(msgArrays, h) :=
    fold_left
      (fun '(msgArrays, h) (_ : nat) =>
         let '(arr, h) := alloc (newUint8Array 31) h in
         let h := heapFill arr 0 h in
         (msgArrays ++ [arr], h))
      (seq 0 5) (msgArrays, h) in
  let h :=
    fold_left
      (fun h i =>
         match msgArrays !! i with
         | Some r => heapSet r 30 (Z.of_nat i + 1) h
         | None => h
         end)
      (seq 0 (length msgArrays)) h in
  (msgArrays, h).

(** *** Process lifecycle *)

Definition setPxe (p : option PxeStatus) : JS unit :=
  modify (fun w => mkWorld (currentTokenNonce w) (currentWalletNonce w)
                     p (nodeClient w) (nonceFile w) (trace w) (faults w)).

Definition setNodeClient (n : option unit) : JS unit :=
  modify (fun w => mkWorld (currentTokenNonce w) (currentWalletNonce w)
                     (pxe w) n (nonceFile w) (trace w) (faults w)).

(** [await pxe.close()]: the call is made, then it either rejects or
    leaves the service closed. *)
Definition pxeClose : JS unit :=
  emit PxeCloseCalled >>
  let* f := nextFault in
  match f with
  | Some e => throw e
  | None => setPxe (Some PxeClosed)
  end.

(** [error.message], evaluated for its effect: reading the property of a
    value that has none to read throws. *)
Definition readMessage (error : exn) : JS unit :=
  match error with
  | Raised _ => ret tt
  | Unreadable raised => throw raised
  end.

(** [cleanup]; the argument [error.message] of the [console.error] in its
    [catch] block is evaluated before the line is printed. *)
Definition cleanup : JS unit :=
  console CleaningUp >>
  try_catch
    (let* w := get in
     match pxe w with
     | Some _ => pxeClose >> console PxeServiceClosed
     | None => ret tt
     end >>
     let* w := get in
     match nodeClient w with
     | Some _ => setNodeClient None >> console NodeClientCleanedUp
     | None => ret tt
     end)
    (fun error => readMessage error >> console (ErrorDuringCleanup error)).

(** [process.on('SIGINT', ...)] *)
Definition onSIGINT : JS unit :=
  console ReceivedSIGINT >> cleanup >> exit 0.

(** [process.on('SIGTERM', ...)] *)
Definition onSIGTERM : JS unit :=
  console ReceivedSIGTERM >> cleanup >> exit 0.

(** [main().catch(async (error) => ...)], for any body of [main]. *)
Definition runMain {A} (main : JS A) : JS unit :=
  try_catch (main >> ret tt)
    (fun error => console (UnhandledError error) >> cleanup >> exit 1).

(** *** Vocabulary for the statements about this script *)



Definition other (op : nonceOp) : nonceOp :=
  match op with
  | NextToken => NextWallet
  | NextWallet => NextToken
  end.

(** The environment's answer to the next fallible external call: [Some e]
    when the call will throw [e]. *)
Definition nextAnswer (w : World) : option exn :=
  match faults w with
  | f :: _ => f
  | [] => None
  end.





(** The string left after an optional leading [0x] is removed. *)
Definition stripped (hexAddress : jsstring) : jsstring :=
  if startsWith hexAddress (codeUnits "0x")
  then substringFrom hexAddress 2
  else hexAddress.

Definition isHexDigit (c : Z) : Prop := is_Some (hexDigitValue c).

(** The bytes a run of hexadecimal digit pairs stands for. *)
Fixpoint decodeHex (s : jsstring) : list Z :=
  match s with
  | hi :: lo :: rest =>
      (16 * default 0 (hexDigitValue hi) + default 0 (hexDigitValue lo))
        :: decodeHex rest
  | _ => []
  end.

(** The address [main] converts. *)
Definition vaultAddress : jsstring :=
  codeUnits "0x009cbB8f91d392856Cb880d67c806Aa731E3d686".

(** What [createMessageArrays] is expected to return for the arrays
    [donationAddress] and [arbChainId] of the store [h]: seven arrays of
    31 bytes, the first two being the arguments, the other five zero
    except for their last byte, and the last byte of array [i] being
    [i + 1]. *)
Definition messageArraysSpec (h : Heap) (donationAddress arbChainId : ref) : Prop :=
  let (msgArrays, h') := createMessageArrays donationAddress arbChainId h in
  length msgArrays = 7%nat
  /\ msgArrays !! 0%nat = Some donationAddress
  /\ msgArrays !! 1%nat = Some arbChainId
  /\ (forall (i : nat) (r : ref), msgArrays !! i = Some r ->
        exists arr : Uint8Array,
          h' !! r = Some arr /\ length arr = 31%nat
          /\ arr !! 30%nat = Some (Z.of_nat i + 1))
  /\ (forall (i : nat) (r : ref), (2 <= i)%nat -> msgArrays !! i = Some r ->
        h' !! r = Some (replicate 30 0 ++ [Z.of_nat i + 1])).

(** A store with one zeroed 31-byte array. *)
Definition oneArray : Heap := [newUint8Array 31].

(** A store with two zeroed 31-byte arrays. *)
Definition twoArrays : Heap := [newUint8Array 31; newUint8Array 31].

(** What a run of [cleanup] followed by [process.exit(code)] looks like from
    state [w]: the process exits with [code]; the effects are appended to
    the trace; when a PXE service is held, [pxe.close()] has been called
    by then; the service is left closed when that call resolves and as it
    was when the call rejects. *)
Definition shutsDown (code : Z) (w : World) (r : outcome exn unit) (w' : World) : Prop :=
  r = Exit code
  /\ exists evs : list event,
       trace w' = trace w ++ evs
       /\ (is_Some (pxe w) -> PxeCloseCalled ∈ evs)
       /\ (is_Some (pxe w) -> nextAnswer w = None -> pxe w' = Some PxeClosed)
       /\ (forall e, is_Some (pxe w) -> nextAnswer w = Some e -> pxe w' = pxe w).

(** The value [pxe.close()] rejects with, if it rejects, is one whose
    [message] can be read. *)
Definition closeReadable (w : World) : Prop :=
  forall raised, is_Some (pxe w) -> nextAnswer w <> Some (Unreadable raised).

(** A handler run from [w] ends the process with code 0 and leaves a PXE
    service that was held closed. *)
Definition exitsClosed (handler : JS unit) (w : World) : Prop :=
  (handler w).1 = Exit 0
  /\ (is_Some (pxe w) -> pxe (handler w).2 = Some PxeClosed).

(** A state with an open PXE service whose [close] will reject with an
    error, and one in which it will reject with [undefined]. *)
Definition busyService : World :=
  mkWorld 67 100042 (Some PxeOpen) (Some tt) None [] [Some (Raised "busy")].

Definition rejectsUndefined : World :=
  mkWorld 67 100042 (Some PxeOpen) (Some tt) None [] [Some undefinedValue].

(** A failing [main]: the PXE service has been created, then a call throws. *)
Definition failingMain : JS unit :=
  setPxe (Some PxeOpen) >> throw (Raised "transaction reverted").

End SendMessage.

(** ** Keccak-256

    The hash go-ethereum uses for method identifiers ([crypto.Keccak256]):
    Keccak-f[1600] with rate 136 and the original [0x01] padding. Lanes are
    64-bit words held in [Z]. *)

Module Keccak.

Definition mask64 : Z := 2 ^ 64 - 1.

Definition rotl64 (x : Z) (n : Z) : Z :=
  Z.land (Z.lor (Z.shiftl x n) (Z.shiftr x (64 - n))) mask64.

(** Lane [(x, y)] of a state of 25 lanes, indices taken modulo 5. *)
Definition lane (A : list Z) (x y : nat) : Z :=
  nth (x mod 5 + 5 * (y mod 5))%nat A 0.

Definition build (f : nat -> nat -> Z) : list Z :=
  map (fun i => f (i mod 5)%nat (i / 5)%nat) (seq 0 25).

Definition roundConstants : list Z :=
  [ 0x0000000000000001; 0x0000000000008082; 0x800000000000808A;
    0x8000000080008000; 0x000000000000808B; 0x0000000080000001;
    0x8000000080008081; 0x8000000000008009; 0x000000000000008A;
    0x0000000000000088; 0x0000000080008009; 0x000000008000000A;
    0x000000008000808B; 0x800000000000008B; 0x8000000000008089;
    0x8000000000008003; 0x8000000000008002; 0x8000000000000080;
    0x000000000000800A; 0x800000008000000A; 0x8000000080008081;
    0x8000000000008080; 0x0000000080000001; 0x8000000080008008 ].

(** Rotation offsets, indexed by [x + 5 * y]. *)
Definition rotationOffsets : list Z :=
  [  0;  1; 62; 28; 27;
    36; 44;  6; 55; 20;
     3; 10; 43; 25; 39;
    41; 45; 15; 21;  8;
    18;  2; 61; 56; 14 ].

Definition theta (A : list Z) : list Z :=
  let C x := Z.lxor (lane A x 0) (Z.lxor (lane A x 1) (Z.lxor (lane A x 2)
               (Z.lxor (lane A x 3) (lane A x 4)))) in
  let D x := Z.lxor (C (x + 4)%nat) (rotl64 (C (x + 1)%nat) 1) in
  build (fun x y => Z.lxor (lane A x y) (D x)).

(** [B[y, 2x+3y] = rot(A[x, y], r[x, y])], read from the side of [B]. *)
Definition rhoPi (A : list Z) : list Z :=
  build (fun X Y =>
           let x := ((X + 3 * Y) mod 5)%nat in
           rotl64 (lane A x X) (lane rotationOffsets x X)).

Definition chi (B : list Z) : list Z :=
  build (fun x y =>
           Z.lxor (lane B x y)
                  (Z.land (Z.lxor (lane B (x + 1) y) mask64)
                          (lane B (x + 2) y))).

Definition iota (rc : Z) (A : list Z) : list Z :=
  match A with
  | a :: rest => Z.lxor a rc :: rest
  | [] => []
  end.

Definition round (A : list Z) (rc : Z) : list Z :=
  iota rc (chi (rhoPi (theta A))).

Definition keccakF (A : list Z) : list Z := fold_left round roundConstants A.

(** Little-endian bytes to a lane and back. *)
Definition laneOfBytes (bs : list Z) : Z :=
  fold_right (fun b acc => b + 256 * acc) 0 bs.

Definition bytesOfLane (w : Z) : list Z :=
  map (fun i => Z.land (Z.shiftr w (8 * Z.of_nat i)) 255) (seq 0 8).

Definition rate : nat := 136.

(** Padding [pad10*1] with the Keccak domain byte [0x01]. *)
Definition pad (msg : list Z) : list Z :=
  let q := (rate - length msg mod rate)%nat in
  if (q =? 1)%nat then msg ++ [0x81]
  else msg ++ [0x01] ++ replicate (q - 2) 0 ++ [0x80].

Definition absorbBlock (A : list Z) (block : list Z) : list Z :=
  keccakF (map (fun i =>
                  Z.lxor (nth i A 0)
                         (laneOfBytes (take 8 (drop (8 * i) block))))
               (seq 0 25)).

Fixpoint absorb (nblocks : nat) (A : list Z) (msg : list Z) : list Z :=
  match nblocks with
  | O => A
  | S n => absorb n (absorbBlock A (take rate msg)) (drop rate msg)
  end.

Definition keccak256 (msg : list Z) : list Z :=
  let padded := pad msg in
  let A := absorb (length padded / rate) (replicate 25 0) padded in
  take 32 (flat_map bytesOfLane A).

End Keccak.

(** ** The contract ABI encoder used by the client (go-ethereum [accounts/abi]) *)

Module ABI.

Definition bytes := list Z.

(** A non-nil Go [error], by its message. *)
Definition error := string.

Inductive abiType := BytesTy | Uint256Ty.

Record Argument := mkArgument { argName : string; argType : abiType }.

Record Method := mkMethod { methodName : string; methodInputs : list Argument }.

(** The parsed ABI: its table of methods. *)
Definition ABI := list Method.

(** The Go values passed to [Pack]. *)
Inductive goValue :=
| GoBytes (b : bytes)
| GoBigInt (n : Z).

Definition typeString (t : abiType) : string :=
  match t with
  | BytesTy => "bytes"
  | Uint256Ty => "uint256"
  end.

Fixpoint joinComma (l : list string) : string :=
  match l with
  | [] => ""
  | [s] => s
  | s :: rest => (s ++ "," ++ joinComma rest)%string
  end.

(** [method.Sig]: the canonical signature, e.g. [verify(bytes)]. *)
Definition methodSig (m : Method) : string :=
  (methodName m ++ "("
     ++ joinComma (map (fun a => typeString (argType a)) (methodInputs m))
     ++ ")")%string.

Definition bytesOfString (s : string) : bytes :=
  map (fun a => Z.of_N (N_of_ascii a)) (list_ascii_of_string s).

(** [method.ID]: the first four bytes of the Keccak-256 of the signature. *)
Definition methodID (m : Method) : bytes :=
  take 4 (Keccak.keccak256 (bytesOfString (methodSig m))).

(** [packNum] / [math.U256Bytes]: 32 bytes, big-endian, modulo 2^256. *)
Definition packNum (n : Z) : bytes :=
  map (fun i => (n / 256 ^ Z.of_nat (31 - i)) mod 256) (seq 0 32).

(** [common.RightPadBytes(b, l)] *)
Definition rightPadBytes (b : bytes) (l : nat) : bytes :=
  if (l <=? length b)%nat then b else b ++ replicate (l - length b) 0.

(** [packBytesSlice]: the length word, then the bytes padded on the right
    to a multiple of 32. *)
Definition packBytesSlice (b : bytes) : bytes :=
  packNum (Z.of_nat (length b))
    ++ rightPadBytes b ((length b + 31) / 32 * 32)%nat.

Definition isDynamicType (t : abiType) : bool :=
  match t with
  | BytesTy => true
  | Uint256Ty => false
  end.

(** [Type.pack]: type check, then encode. *)
Definition packElement (t : abiType) (v : goValue) : error + bytes :=
  match t, v with
  | BytesTy, GoBytes b => inr (packBytesSlice b)
  | Uint256Ty, GoBigInt n => inr (packNum n)
  | _, _ => inl ("abi: cannot use value as type " ++ typeString t)%string
  end.

(** The loop of [Arguments.Pack]: [ret] collects the heads, [variableInput]
    the tails; a dynamic argument's head is the offset of its tail. *)
Fixpoint packLoop (inputs : list Argument) (args : list goValue)
         (inputOffset : nat) (ret variableInput : bytes) : error + bytes :=
  match inputs, args with
  | [], _ => inr (ret ++ variableInput)
  | _ :: _, [] => inl "abi: argument count mismatch"
  | input :: inputs', a :: args' =>
      match packElement (argType input) a with
      | inl e => inl e
      | inr packed =>
          if isDynamicType (argType input)
          then packLoop inputs' args' (inputOffset + length packed)
                        (ret ++ packNum (Z.of_nat inputOffset))
                        (variableInput ++ packed)
          else packLoop inputs' args' inputOffset (ret ++ packed) variableInput
      end
  end.

(** [Arguments.Pack] *)
Definition packArguments (inputs : list Argument) (args : list goValue)
  : error + bytes :=
  if negb (length args =? length inputs)%nat
  then inl "abi: argument count mismatch"
  else packLoop inputs args (32 * length inputs) [] [].

(** [abi.Pack(name, args...)] for a method name. *)
Definition Pack (abi : ABI) (name : string) (args : list goValue)
  : error + bytes :=
  match find (fun m => String.eqb (methodName m) name) abi with
  | None => inl ("method '" ++ name ++ "' not found")%string
  | Some method =>
      match packArguments (methodInputs method) args with
      | inl e => inl e
      | inr arguments => inr (methodID method ++ arguments)
      end
  end.

End ABI.

(** ** The EVM chain client (Go, package [clients]) *)

Module EVMClient.

Import ABI.

(** [common.Address], [common.Hash]: byte arrays. *)
Definition Address := bytes.
Definition Hash := bytes.

(** [types.Transaction] as built by [types.NewTransaction] (a legacy
    transaction). *)
Record Transaction := mkTransaction {
  txNonce : Z;
  txTo : Address;
  txValue : Z;
  txGas : Z;
  txGasPrice : Z;
  txData : bytes
}.

(** A signed transaction: the transaction with its signature values. *)
Record SignedTransaction := mkSigned {
  inner : Transaction;
  sigV : Z;
  sigR : Z;
  sigS : Z
}.

(** [*ethclient.Client]: the node's answers to the four RPC calls the
    client makes. *)
Record EthClient := mkEthClient {
  PendingNonceAt : Address -> error + Z;
  SuggestGasPrice : error + Z;
  NetworkID : error + Z;
  SendTransaction : SignedTransaction -> option error
}.

(** [struct EVMClient]; the logger is left out. *)
Record EVMClient := mkEVMClient {
  client : EthClient;
  privateKey : Z;
  address : Address
}.

Definition GetAddress (c : EVMClient) : Address := address c.

(** The ABI that the constant [abiJSON] denotes: one non-payable function
    [verify] with one input [encodedVm] of type [bytes]. *)
Definition abiJSON : ABI :=
  [ mkMethod "verify" [ mkArgument "encodedVm" BytesTy ] ].

(** [abi.JSON(strings.NewReader(abiJSON))] *)
Definition parseABI : error + ABI := inr abiJSON.

(** [fmt.Errorf(prefix + ": %v", err)] *)
Definition Errorf (prefix : string) (err : error) : error :=
  (prefix ++ ": " ++ err)%string.

Definition hexChar (d : Z) : ascii :=
  if d <? 10 then ascii_of_N (Z.to_N (48 + d))
  else ascii_of_N (Z.to_N (87 + d)).

(** [hex.EncodeToString] *)
Fixpoint encodeHex (b : bytes) : string :=
  match b with
  | [] => EmptyString
  | x :: rest => String (hexChar (x / 16)) (String (hexChar (x mod 16)) (encodeHex rest))
  end.

(** [common.Hash.Hex]: [0x] followed by the hexadecimal digits. *)
Definition Hex (h : Hash) : string := ("0x" ++ encodeHex h)%string.

(** The number of zero bytes that pad [n] bytes to a multiple of 32. *)
Definition padding (n : nat) : nat := ((32 - n mod 32) mod 32)%nat.

(** The ABI encoding of the call [verify(encodedVm)]: the selector of
    [verify(bytes)], the offset of the only argument, its length, and its
    bytes padded with zeros to a multiple of 32. *)
Definition verifyCallData (encodedVm : bytes) : bytes :=
  [0x8e; 0x76; 0x0a; 0xfe]
    ++ packNum 32
    ++ packNum (Z.of_nat (length encodedVm))
    ++ encodedVm ++ replicate (padding (length encodedVm)) 0.

Definition verifyMethod : Method :=
  mkMethod "verify" [ mkArgument "encodedVm" BytesTy ].

Section Client.

(** Library functions of go-ethereum that the client calls and that are
    kept abstract: address parsing, ECDSA signing under the EIP-155
    signer of a chain, and the transaction hash. *)
Variable HexToAddress : string -> Address.
Variable ecdsaSign : Transaction -> Z -> Z -> error + (Z * Z * Z).
Variable txHash : SignedTransaction -> Hash.

(** [types.NewTransaction] *)
Definition NewTransaction (nonce : Z) (to : Address) (amount : Z)
           (gasLimit : Z) (gasPrice : Z) (data : bytes) : Transaction :=
  mkTransaction nonce to amount gasLimit gasPrice data.

(** [types.SignTx(tx, types.NewEIP155Signer(chainID), prv)]: the signed
    transaction is the same transaction carrying the signature. *)
Definition SignTx (tx : Transaction) (chainID : Z) (prv : Z)
  : error + SignedTransaction :=
  match ecdsaSign tx chainID prv with
  | inl e => inl e
  | inr (v, r, s) => inr (mkSigned tx v r s)
  end.

(** [SendVerifyTransaction]: the Go result pair [(string, error)], with a
    nil error as [None], and next to it the transactions handed to
    [client.SendTransaction] during the call. *)
Definition SendVerifyTransaction (c : EVMClient) (targetContract : string)
           (vaaBytes : bytes)
  : (string * option error) * list SignedTransaction :=
  match parseABI with
  | inl err => (("", Some (Errorf "ABI parse error" err)), [])
  | inr parsedABI =>
  match Pack parsedABI "verify" [GoBytes vaaBytes] with
  | inl err => (("", Some (Errorf "ABI pack error" err)), [])
  | inr data =>
  match PendingNonceAt (client c) (address c) with
  | inl err => (("", Some (Errorf "failed to get nonce" err)), [])
  | inr nonce =>
  match SuggestGasPrice (client c) with
  | inl err => (("", Some (Errorf "failed to get gas price" err)), [])
  | inr gasPrice =>
  let targetAddr := HexToAddress targetContract in
  let tx := NewTransaction nonce targetAddr 0 3000000 gasPrice data in
  match NetworkID (client c) with
  | inl err => (("", Some (Errorf "failed to get chain ID" err)), [])
  | inr chainID =>
  match SignTx tx chainID (privateKey c) with
  | inl err => (("", Some (Errorf "failed to sign transaction" err)), [])
  | inr signedTx =>
  match SendTransaction (client c) signedTx with
  | Some err =>
      (("", Some (Errorf "failed to send transaction" err)), [signedTx])
  | None => ((Hex (txHash signedTx), None), [signedTx])
  end end end end end end end.

(** *** Vocabulary for the statements about the client *)

(** The transaction the client builds for a payload once the node has
    given the nonce and the gas price. *)
Definition verifyTx (targetContract : string) (vaaBytes : bytes)
           (nonce gasPrice : Z) : Transaction :=
  mkTransaction nonce (HexToAddress targetContract) 0 3000000 gasPrice
                (verifyCallData vaaBytes).

(** The five steps of a submission all succeed, ending with the
    broadcast of [signedTx]. *)
Definition stepsSucceed (c : EVMClient) (targetContract : string)
           (vaaBytes : bytes) (signedTx : SignedTransaction) : Prop :=
  exists nonce gasPrice chainID v r s,
    PendingNonceAt (client c) (address c) = inr nonce
    /\ SuggestGasPrice (client c) = inr gasPrice
    /\ NetworkID (client c) = inr chainID
    /\ ecdsaSign (verifyTx targetContract vaaBytes nonce gasPrice)
                 chainID (privateKey c) = inr (v, r, s)
    /\ signedTx = mkSigned (verifyTx targetContract vaaBytes nonce gasPrice) v r s
    /\ SendTransaction (client c) signedTx = None.

(** One of the five steps fails: the nonce fetch, the gas-price fetch,
    the chain-id fetch, the signing, or the broadcast of the signed
    transaction. *)
Definition someStepFails (c : EVMClient) (targetContract : string)
           (vaaBytes : bytes) : Prop :=
  (exists e, PendingNonceAt (client c) (address c) = inl e)
  \/ (exists e, SuggestGasPrice (client c) = inl e)
  \/ (exists e, NetworkID (client c) = inl e)
  \/ (exists nonce gasPrice chainID e,
        ecdsaSign (verifyTx targetContract vaaBytes nonce gasPrice)
                  chainID (privateKey c) = inl e)
  \/ (exists nonce gasPrice v r s e,
        SendTransaction (client c)
          (mkSigned (verifyTx targetContract vaaBytes nonce gasPrice) v r s)
        = Some e).

End Client.

(** A node that answers every call. *)
Definition quietNode : EthClient :=
  mkEthClient (fun _ => inr 7) (inr 1000000000) (inr 421614) (fun _ => None).

(** A node that cannot be reached for the nonce. *)
Definition downNode : EthClient :=
  mkEthClient (fun _ => inl "connection refused") (inr 1000000000) (inr 421614)
              (fun _ => None).

End EVMClient.

(** ** The relayer pipeline

    The relevance filter, dedup ledger, dispatcher and retry/failover
    controller follow the design document. The registered emitter comes
    from the deployment script [DeployVault.run]. *)

Module Relayer.

Definition bytes := list Z.
Definition error := string.

(** Modelled from the spec: the Attestation envelope of section 3 (the
    relayer's own type declarations are missing). *)
Record Attestation := mkAttestation {
  originChain : Z;
  originEmitter : bytes;
  sequence : Z;
  payload : bytes;
  signatures : bytes
}.

(** Modelled from the spec: the identity triple used for dedup. *)
Definition Identity : Type := Z * bytes * Z.

Definition identity (a : Attestation) : Identity :=
  (originChain a, originEmitter a, sequence a).

(** Modelled from the spec: a Route pairs an origin (chain, emitter) with
    a destination chain and verification endpoint. *)
Record Route := mkRoute {
  routeOriginChain : Z;
  routeOriginEmitter : bytes;
  destinationChain : Z;
  destinationContext : string
}.

(** *** Relevance Filter *)

(** Modelled from the spec: a route matches when both the origin chain
    identifier and the origin emitter address are equal. *)
Definition routeMatches (a : Attestation) (r : Route) : bool :=
  (originChain a =? routeOriginChain r)
  && bool_decide (originEmitter a = routeOriginEmitter r).

(** Modelled from the spec: [isRelevant(attestation, routeTable) -> Route | none]. *)
Definition isRelevant (a : Attestation) (routeTable : list Route) : option Route :=
  find (routeMatches a) routeTable.

(** The registration made by [DeployVault.run]:
    [vault.registerEmitter(emitterChainId, emitterAddress)]. *)
Definition emitterChainId : Z := 52.

Definition emitterAddress : bytes :=
  [ 0x0d; 0x6f; 0xe8; 0x10; 0x32; 0x11; 0x85; 0xc9;
    0x7a; 0x0e; 0x94; 0x20; 0x0f; 0x99; 0x8b; 0xca;
    0xe7; 0x87; 0xaa; 0xdd; 0xf9; 0x53; 0xa0; 0x3b;
    0x14; 0xec; 0x5d; 0xa3; 0xb6; 0x83; 0x8b; 0xad ].

(** The Wormhole chain id of the chain the Vault runs on. *)
Definition chainId : Z := 10003.

(** Modelled from the spec: [registerEmitter] (the Vault contract is
    missing) adds the origin pair to the table of accepted origins. *)
Definition registerEmitter (chain : Z) (emitter : bytes) (vault : string)
           (routeTable : list Route) : list Route :=
  routeTable ++ [mkRoute chain emitter chainId vault].

(** The route table after [DeployVault.run] on a fresh Vault. *)
Definition deployedRoutes (vault : string) : list Route :=
  registerEmitter emitterChainId emitterAddress vault [].

(** *** Dedup Ledger *)

(** Modelled from the spec: the four statuses of a ProcessingRecord. *)
Inductive Status := Pending | InFlight | Confirmed | FailedPermanent.

(** Modelled from the spec: the ProcessingRecord of section 3. *)
Record ProcessingRecord := mkRecord {
  recIdentity : Identity;
  recStatus : Status;
  recDestinationTx : option string;
  recAttempts : nat;
  recLastError : option error
}.

Definition withStatus (s : Status) (r : ProcessingRecord) : ProcessingRecord :=
  mkRecord (recIdentity r) s (recDestinationTx r) (recAttempts r) (recLastError r).

(** The record is one the ledger answers false for. *)
Definition handled (r : ProcessingRecord) : Prop :=
  recStatus r = InFlight \/ recStatus r = Confirmed.

(** Modelled from the spec: what a dispatch ends with. *)
Inductive Outcome :=
| OutConfirmed (txId : string) (attempts : nat)
| OutFailed (lastError : option error) (attempts : nat).

Section Ledger.

(** Which [failed-permanent] records are eligible for retry is policy. *)
Variable eligibleForRetry : ProcessingRecord -> bool.

(** Modelled from the spec: [tryBegin(identity) -> bool]. No record, a
    [pending] record (one left in flight at the last shutdown) or an
    eligible [failed-permanent] record moves to [in-flight] and the
    answer is true; [in-flight] and [confirmed] answer false. *)
Definition tryBegin (id : Identity) (ledger : gmap Identity ProcessingRecord)
  : bool * gmap Identity ProcessingRecord :=
  match ledger !! id with
  | None => (true, <[id := mkRecord id InFlight None 0 None]> ledger)
  | Some r =>
      match recStatus r with
      | Pending => (true, <[id := withStatus InFlight r]> ledger)
      | FailedPermanent =>
          if eligibleForRetry r
          then (true, <[id := withStatus InFlight r]> ledger)
          else (false, ledger)
      | InFlight | Confirmed => (false, ledger)
      end
  end.

(** Modelled from the spec: [commit(identity, outcome)] moves an
    [in-flight] record to [confirmed] or [failed-permanent], storing the
    destination transaction identifier or the terminal error. *)
Definition commit (id : Identity) (o : Outcome)
           (ledger : gmap Identity ProcessingRecord)
  : gmap Identity ProcessingRecord :=
  match ledger !! id with
  | Some r =>
      match recStatus r with
      | InFlight =>
          match o with
          | OutConfirmed tx n =>
              <[id := mkRecord id Confirmed (Some tx) (recAttempts r + n) (recLastError r)]> ledger
          | OutFailed e n =>
              <[id := mkRecord id FailedPermanent (recDestinationTx r) (recAttempts r + n) e]> ledger
          end
      | _ => ledger
      end
  | None => ledger
  end.

(** Modelled from the spec: on restart a record left [in-flight] is
    treated as [pending]; every other record is kept. *)
Definition restart (ledger : gmap Identity ProcessingRecord)
  : gmap Identity ProcessingRecord :=
  (fun r => match recStatus r with
            | InFlight => withStatus Pending r
            | _ => r
            end) <$> ledger.

End Ledger.

(** *** Chain Clients *)

(** Modelled from the spec: a client's preferred submission path and its
    secondary (failover) path. *)
Inductive Path := Primary | Secondary.

(** Modelled from the spec: the failure modes a client distinguishes. *)
Inductive FailureKind := Transient | ServiceUnavailable | Permanent.

(** Modelled from the spec: the result pair [(txId, error)] of a submission. *)
Inductive SubmitResult :=
| Submitted (txId : string)
| Failed (kind : FailureKind) (err : error).

(** Modelled from the spec: the capability every client variant exposes,
    [submitVerification(context, payload) -> (txId, error)], on its
    preferred path or on its secondary path; a call may change the
    client's state. *)
Class ChainClient (C : Type) := {
  submitVerification : C -> Path -> string -> bytes -> SubmitResult * C
}.

(** *** Retry/Failover Controller *)

(** Modelled from the spec: the controller's log, one entry per attempt and
    one per wait between attempts. *)
Inductive ControllerEvent :=
| EvAttempt (attemptNo : nat) (path : Path) (result : SubmitResult)
| EvBackoff (delay : Z).

(** Modelled from the spec: the operator's retry policy. *)
Record Policy := mkPolicy {
  maxAttempts : nat;
  baseDelay : Z
}.

(** Modelled from the spec: exponential backoff, the delay before the
    attempt that follows attempt [attemptNo]. *)
Definition backoffDelay (p : Policy) (attemptNo : nat) : Z :=
  baseDelay p * 2 ^ Z.of_nat (attemptNo - 1).

Section Controller.

Context {C : Type} `{ChainClient C}.
Variable policy : Policy.
Variable context : string.
Variable payload_ : bytes.

(** Modelled from the spec: the attempt loop. Success ends it with
    [confirmed]; Permanent ends it at once; Service-unavailable on the
    preferred path moves to the secondary path with no delay;
    anything else retryable waits (exponential backoff) and tries the
    same path again; an exhausted budget ends it [failed-permanent]. *)
Fixpoint attemptLoop (budget attemptNo : nat) (path : Path)
         (lastError : option error) (c : C)
  : Outcome * list ControllerEvent * C :=
  match budget with
  | O => (OutFailed lastError (attemptNo - 1), [], c)
  | S budget' =>
      let (r, c1) := submitVerification c path context payload_ in
      let entry := EvAttempt attemptNo path r in
      match r with
      | Submitted tx => (OutConfirmed tx attemptNo, [entry], c1)
      | Failed Permanent e => (OutFailed (Some e) attemptNo, [entry], c1)
      | Failed ServiceUnavailable e =>
          match path with
          | Primary =>
              let '(o, evs, c2) :=
                attemptLoop budget' (S attemptNo) Secondary (Some e) c1 in
              (o, entry :: evs, c2)
          | Secondary =>
              let '(o, evs, c2) :=
                attemptLoop budget' (S attemptNo) Secondary (Some e) c1 in
              (o, entry :: match budget' with
                           | O => evs
                           | S _ => EvBackoff (backoffDelay policy attemptNo) :: evs
                           end, c2)
          end
      | Failed Transient e =>
          let '(o, evs, c2) :=
            attemptLoop budget' (S attemptNo) path (Some e) c1 in
          (o, entry :: match budget' with
                       | O => evs
                       | S _ => EvBackoff (backoffDelay policy attemptNo) :: evs
                       end, c2)
      end
  end.

(** Modelled from the spec: [execute(client, payload) -> outcome]. *)
Definition execute (c : C) : Outcome * list ControllerEvent * C :=
  attemptLoop (maxAttempts policy) 1 Primary None c.

End Controller.

(** The submission calls recorded in a controller log. *)
Definition attempts (evs : list ControllerEvent) : list (nat * Path * SubmitResult) :=
  omap (fun ev => match ev with
                  | EvAttempt n p r => Some (n, p, r)
                  | EvBackoff _ => None
                  end) evs.



Section ControllerVocabulary.

Context {C : Type} `{ChainClient C}.

(** Every call of the client, on either path and in any state, fails
    with a Transient error. *)
Definition alwaysTransientFor (context : string) (payload_ : bytes) : Prop :=
  forall (c : C) (p : Path),
  exists e c', submitVerification c p context payload_ = (Failed Transient e, c').

(** What a run of the controller against such a client looks like: the
    attempts are numbered from [first], there are [budget] of them, all
    on [path] and all Transient failures, and the outcome is
    failed-permanent. *)
Definition exhausts (budget first : nat) (path : Path)
           (res : Outcome * list ControllerEvent * C) : Prop :=
  map (fun x => (x.1.1, x.1.2)) (attempts res.1.2)
  = map (fun n => (n, path)) (seq first budget)
  /\ Forall (fun x => exists e, x.2 = Failed Transient e) (attempts res.1.2)
  /\ exists e, res.1.1 = OutFailed e (first + budget - 1).

End ControllerVocabulary.

(** *** Dispatcher and worker *)

(** Modelled from the spec: the relayer's structured log. *)
Inductive LogEntry :=
| LogNoRoute (id : Identity)
| LogAlreadyProcessing (id : Identity)
| LogController (id : Identity) (destination : Z) (ev : ControllerEvent).

(** The submission calls recorded in the relayer's log. *)
Definition submissions (log : list LogEntry) : list (Identity * Z * nat * Path) :=
  omap (fun e => match e with
                 | LogController id d (EvAttempt n p _) => Some (id, d, n, p)
                 | _ => None
                 end) log.

Section Dispatcher.

Context {C : Type} `{ChainClient C}.
Variable eligibleForRetry : ProcessingRecord -> bool.
Variable policy : Policy.

(** Modelled from the spec: [dispatch(attestation, route)], with the
    ledger and the route's destination client threaded through. *)
Definition dispatch (a : Attestation) (route : Route)
           (ledger : gmap Identity ProcessingRecord) (c : C)
  : gmap Identity ProcessingRecord * C * list LogEntry :=
  let id := identity a in
  let (begun, ledger1) := tryBegin eligibleForRetry id ledger in
  if begun
  then
    let '(o, evs, c1) :=
      execute policy (destinationContext route) (payload a) c in
    (commit id o ledger1, c1,
     map (LogController id (destinationChain route)) evs)
  else (ledger, c, [LogAlreadyProcessing id]).

(** Modelled from the spec: one worker step, Relevance Filter then
    Dispatcher. An attestation with no route is logged and dropped. *)
Definition processAttestation (routeTable : list Route) (a : Attestation)
           (ledger : gmap Identity ProcessingRecord) (c : C)
  : gmap Identity ProcessingRecord * C * list LogEntry :=
  match isRelevant a routeTable with
  | None => (ledger, c, [LogNoRoute (identity a)])
  | Some route => dispatch a route ledger c
  end.

(** Modelled from the spec: what the relayer does next, handle a delivered
    attestation or go through a shutdown and restart. *)
Inductive Step :=
| Deliver (a : Attestation)
| Restart.

(** Modelled from the spec: the relayer handling deliveries and restarts
    one after the other; the ledger survives a restart as [restart]
    describes. *)
Fixpoint run (routeTable : list Route) (steps : list Step)
         (ledger : gmap Identity ProcessingRecord) (c : C)
  : gmap Identity ProcessingRecord * C * list LogEntry :=
  match steps with
  | [] => (ledger, c, [])
  | Deliver a :: rest =>
      let '(ledger1, c1, log1) := processAttestation routeTable a ledger c in
      let '(ledger2, c2, log2) := run routeTable rest ledger1 c1 in
      (ledger2, c2, log1 ++ log2)
  | Restart :: rest => run routeTable rest (restart ledger) c
  end.


End Dispatcher.

(** A client whose every call fails with a Transient error; its state
    counts the calls made. *)
#[export] Instance alwaysTransient : ChainClient nat := {
  submitVerification n _ _ _ := (Failed Transient "timeout", S n)
}.

(** A client whose preferred path reports Service-unavailable and whose
    secondary path succeeds; its state lists the paths called. *)
#[export] Instance serviceDown : ChainClient (list Path) := {
  submitVerification calls p _ _ :=
    match p with
    | Primary => (Failed ServiceUnavailable "verification service failed", calls ++ [p])
    | Secondary => (Submitted "0xfeed", calls ++ [p])
    end
}.

(** *** Sample values *)

(** The attestation of the design document's scenario: origin 52, the
    registered emitter, sequence 100. *)
Definition sampleAttestation : Attestation :=
  mkAttestation 52 emitterAddress 100 [1; 2; 3] [].

(** The same attestation coming from the unconfigured chain 99. *)
Definition strayAttestation : Attestation :=
  mkAttestation 99 emitterAddress 100 [1; 2; 3] [].

Definition sampleRoute : Route := mkRoute 52 emitterAddress chainId "vault".

Definition samplePolicy : Policy := mkPolicy 3 100.

Definition neverRetry (r : ProcessingRecord) : bool := false.

(** A ledger in which the sample attestation is already confirmed. *)
Definition confirmedRecord : ProcessingRecord :=
  mkRecord (identity sampleAttestation) Confirmed (Some "0xfeed") 1 None.

Definition confirmedLedger : gmap Identity ProcessingRecord :=
  {[ identity sampleAttestation := confirmedRecord ]}.

End Relayer.

(** ** send-message.mjs: the remaining helpers *)

Module SendMessageHelpers.

Import SendMessage.

(** *** [TextEncoder] *)

Definition isHighSurrogate (c : Z) : bool := ((0xD800 <=? c) && (c <=? 0xDBFF))%Z.
Definition isLowSurrogate (c : Z) : bool := ((0xDC00 <=? c) && (c <=? 0xDFFF))%Z.

(** The scalar values of a string: a surrogate pair is one code point, a
    surrogate on its own is replaced by U+FFFD. *)
Fixpoint codePoints (s : jsstring) : list Z :=
  match s with
  | [] => []
  | c :: rest =>
      if isHighSurrogate c then
        match rest with
        | d :: rest' =>
            if isLowSurrogate d
            then (0x10000 + (c - 0xD800) * 1024 + (d - 0xDC00)) :: codePoints rest'
            else 0xFFFD :: codePoints rest
        | [] => [0xFFFD]
        end
      else if isLowSurrogate c then 0xFFFD :: codePoints rest
      else c :: codePoints rest
  end.

(** The UTF-8 bytes of one scalar value. *)
Definition utf8 (cp : Z) : list Z :=
  if cp <? 0x80 then [cp]
  else if cp <? 0x800 then [0xC0 + cp / 64; 0x80 + cp mod 64]
  else if cp <? 0x10000 then
    [0xE0 + cp / 4096; 0x80 + (cp / 64) mod 64; 0x80 + cp mod 64]
  else
    [0xF0 + cp / 262144; 0x80 + (cp / 4096) mod 64;
     0x80 + (cp / 64) mod 64; 0x80 + cp mod 64].

(** [new TextEncoder().encode(str)] *)
Definition encode (str : jsstring) : Uint8Array :=
  flat_map utf8 (codePoints str).

(** [stringToUint8Array(str, length)], for a non-negative integer [length].
    Reading [encoded[i]] gives [undefined] past the end, which a typed array
    stores as 0. *)
Definition stringToUint8Array (str : jsstring) (length_ : nat) : Uint8Array :=
  let buf := newUint8Array length_ in
  let encoded := encode str in
  fold_left
    (fun buf i => setIndex i (encoded !! i) buf)
    (seq 0 (Nat.min (length encoded) length_)) buf.

(** *** [debugArray] *)

(** The character of a radix-16 digit, lower case. *)
Definition hexDigitChar (d : Z) : Z := if d <? 10 then 48 + d else 87 + d.

(** [b.toString(16)] for an element of a [Uint8Array] (0 to 255). *)
Definition byteToString16 (b : Z) : jsstring :=
  if b <? 16 then [hexDigitChar b]
  else [hexDigitChar (b / 16); hexDigitChar (b mod 16)].

(** [s.padStart(n, fillChar)] for a one-character filler. *)
Definition padStart (n : nat) (fillChar : Z) (s : jsstring) : jsstring :=
  replicate (n - length s) fillChar ++ s.

(** [parts.join(sep)] *)
Fixpoint join (sep : jsstring) (parts : list jsstring) : jsstring :=
  match parts with
  | [] => []
  | [p] => p
  | p :: rest => p ++ sep ++ join sep rest
  end.

(** [Buffer.from(array).toString('hex')]: two lower-case digits per byte. *)
Definition bufferHex (array : Uint8Array) : jsstring :=
  flat_map (fun b => [hexDigitChar (b / 16); hexDigitChar (b mod 16)]) array.

(** [array.length] in a template string: the decimal digits. *)
Definition lengthString (array : Uint8Array) : jsstring :=
  codeUnits (pretty (length array)).

(** The line [debugArray(name, array)] passes to [console.log]. *)
Definition debugArray (name : jsstring) (array : Uint8Array) : jsstring :=
  name ++ codeUnits " - Length: " ++ lengthString array
       ++ codeUnits ", First 5 bytes: ["
       ++ join (codeUnits ", ")
               (map (fun b => codeUnits "0x" ++ padStart 2 48 (byteToString16 b))
                    (take 5 array))
       ++ codeUnits "], as hex: 0x"
       ++ substring (bufferHex array) 0 10
       ++ codeUnits "...".

(** *** The message [main] builds

    [main] converts the target vault address and the Arbitrum chain id and
    hands both arrays to [createMessageArrays]; the two inputs are parameters
    here. Each conversion allocates its array. *)
Definition buildMessage (targetVaultAddress : jsstring) (arb_chain_id : Z) (h : Heap)
  : exn + (list ref * Heap) :=
  match hexAddressToUint8Array targetVaultAddress with
  | inl e => inl e
  | inr addressBytes =>
      let '(vault_address, h) := alloc addressBytes h in
      let '(arb_chain_id_as_u8_31, h) := alloc (chainIdToUint8Array arb_chain_id) h in
      inr (createMessageArrays vault_address arb_chain_id_as_u8_31 h)
  end.

(** The contents of the arrays a list of references points to. *)
Definition contents (h : Heap) (refs : list ref) : list Uint8Array :=
  omap (fun r => h !! r) refs.

(** A UTF-16 code unit. *)
Definition isCodeUnit (c : Z) : Prop := 0 <= c < 65536.

(** Lower case of an ASCII letter, other code units unchanged. *)
Definition toLowerAscii (c : Z) : Z :=
  if ((65 <=? c) && (c <=? 90))%Z then c + 32 else c.

(** A string cut into pieces of two code units. *)
Fixpoint pairs (s : jsstring) : list jsstring :=
  match s with
  | a :: b :: rest => [a; b] :: pairs rest
  | _ => []
  end.

(** [s.trimEnd()] and [s.trim()] *)
Definition trimEnd (s : jsstring) : jsstring := rev (trimStart (rev s)).

Definition trim (s : jsstring) : jsstring := trimEnd (trimStart s).

End SendMessageHelpers.

(** ** send-message.mjs: [ProxyLogger] *)

Module ProxyLogger.

Import SendMessage.

(** What the logger code throws: [Error] objects, kept by their message. *)
Definition exn := string.

(** [const logLevel = [...]] *)
Definition logLevel : list string :=
  ["silent"; "fatal"; "error"; "warn"; "info"; "verbose"; "debug"; "trace"].

(** [logLevel.includes(prop)] *)
Definition isLogLevel (prop : string) : bool :=
  existsb (String.eqb prop) logLevel.

Section Logger.

(** The values passed to a logging call, with JavaScript's [undefined]
    among them. *)
Variable Value : Type.
Variable undefined : Value.

(** The object [handleLog] puts in front of [logs]. *)
Record LogEntry := mkLogEntry {
  entryType : string;
  entryPrefix : string;
  entryMessage : Value;
  entryData : Value;
  entryTimestamp : Z
}.

(** A call that reached the logger made by [createLogger(prefix)] of
    [@aztec/foundation/log]. *)
Record TargetCall := mkTargetCall {
  callPrefix : string;
  callLevel : string;
  callArguments : list Value
}.

(** The objects of the class: [instance] is the static field; a
    [ProxyLogger] object is its [logs] field, a reference to an array;
    arrays are shared objects. [targetCalls] lists the calls passed on to
    the underlying loggers, oldest first. *)
Record Store := mkStore {
  instance : option ref;
  loggers : list ref;
  arrays : list (list LogEntry);
  targetCalls : list TargetCall
}.

Definition PL := M Store exn.

(** [new ProxyLogger()]: the field initialiser [logs = []] makes a new
    array. *)
Definition newProxyLogger : PL ref :=
  fun st =>
    let logs := length (arrays st) in
    let this := length (loggers st) in
    (Ret this,
     mkStore (instance st) (loggers st ++ [logs]) (arrays st ++ [[]])
             (targetCalls st)).

(** [static create()] *)
Definition create : PL unit :=
  let* this := newProxyLogger in
  modify (fun st => mkStore (Some this) (loggers st) (arrays st) (targetCalls st)).

(** [static getInstance()]; [None] is [undefined]. *)
Definition getInstance : PL (option ref) :=
  let* st := get in ret (instance st).

(** [this.logs] *)
Definition logsOf (this : ref) (st : Store) : option ref := loggers st !! this.

(** [handleLog(type, prefix, message, data)], with the reading [now] of
    [Date.now()]: [unshift] puts the entry in front, in the array itself. *)
Definition handleLog (now : Z) (this : ref) (type prefix : string)
           (message data : Value) : PL unit :=
  modify (fun st =>
            match logsOf this st with
            | Some logs =>
                mkStore (instance st) (loggers st)
                        (alter (cons (mkLogEntry type prefix message data now))
                               logs (arrays st))
                        (targetCalls st)
            | None => st
            end).

(** [flushLogs()]: the field is set to a new, empty array. *)
Definition flushLogs (this : ref) : PL unit :=
  modify (fun st =>
            mkStore (instance st)
                    (<[this := length (arrays st)]> (loggers st))
                    (arrays st ++ [[]])
                    (targetCalls st)).

(** [getLogs()]: the array itself, not a copy. *)
Definition getLogs (this : ref) : PL (option ref) :=
  let* st := get in ret (logsOf this st).

(** How the underlying logger's method answers a call: [Some e] when it
    throws [e]. *)
Variable target : string -> string -> list Value -> option exn.

(** [data[i]] *)
Definition argument (data : list Value) (i : nat) : Value :=
  default undefined (data !! i).

(** A call [logger[prop](...data)] on the proxy made by
    [createLogger(prefix)], for a [prop] in [logLevel]: the trap's function
    records the call in the current singleton, then calls the underlying
    method with the first two arguments. *)
Definition proxiedCall (now : Z) (prefix prop : string) (data : list Value)
  : PL unit :=
  let* current := getInstance in
  match current with
  | None => throw "TypeError: Cannot read properties of undefined (reading 'handleLog')"
  | Some this =>
      handleLog now this prop prefix (argument data 0) (argument data 1) >>
      modify (fun st =>
                mkStore (instance st) (loggers st) (arrays st)
                        (targetCalls st
                           ++ [mkTargetCall prefix prop
                                            [argument data 0; argument data 1]])) >>
      match target prefix prop [argument data 0; argument data 1] with
      | Some e => throw e
      | None => ret tt
      end
  end.

(** What the proxy's [get] trap returns for a property: the recording
    function, or the underlying logger's own property. *)
Inductive Trapped :=
| Recording (call : Z -> list Value -> PL unit)
| TargetProperty (prop : string).

Definition getTrap (prefix prop : string) : Trapped :=
  if isLogLevel prop
  then Recording (fun now data => proxiedCall now prefix prop data)
  else TargetProperty prop.

(** One logging call through a proxy: when it was made, by which logger, at
    which level, with which arguments. *)
Record Logged := mkLogged {
  loggedAt : Z;
  loggedPrefix : string;
  loggedLevel : string;
  loggedData : list Value
}.

(** The calls made one after the other. *)
Fixpoint logAll (calls : list Logged) : PL unit :=
  match calls with
  | [] => ret tt
  | c :: rest =>
      proxiedCall (loggedAt c) (loggedPrefix c) (loggedLevel c) (loggedData c) >>
      logAll rest
  end.

(** The entry recorded for a call. *)
Definition entryOf (c : Logged) : LogEntry :=
  mkLogEntry (loggedLevel c) (loggedPrefix c)
             (argument (loggedData c) 0) (argument (loggedData c) 1) (loggedAt c).

(** The call passed on to the underlying logger. *)
Definition passedOn (c : Logged) : TargetCall :=
  mkTargetCall (loggedPrefix c) (loggedLevel c)
               [argument (loggedData c) 0; argument (loggedData c) 1].

(** The entries of the array [getLogs()] returns for an object. *)
Definition logsContent (this : ref) (st : Store) : option (list LogEntry) :=
  match logsOf this st with
  | Some logs => arrays st !! logs
  | None => None
  end.

(** The store's references point to objects that exist. *)
Definition wellFormed (st : Store) : Prop :=
  (forall this, instance st = Some this -> (this < length (loggers st))%nat)
  /\ Forall (fun logs => (logs < length (arrays st))%nat) (loggers st).

End Logger.

Arguments mkLogEntry {Value}.
Arguments entryType {Value}.
Arguments entryPrefix {Value}.
Arguments entryMessage {Value}.
Arguments entryData {Value}.
Arguments entryTimestamp {Value}.
Arguments mkTargetCall {Value}.
Arguments callPrefix {Value}.
Arguments callLevel {Value}.
Arguments callArguments {Value}.
Arguments mkStore {Value}.
Arguments instance {Value}.
Arguments loggers {Value}.
Arguments arrays {Value}.
Arguments targetCalls {Value}.
Arguments newProxyLogger {Value}.
Arguments create {Value}.
Arguments getInstance {Value}.
Arguments logsOf {Value}.
Arguments handleLog {Value}.
Arguments flushLogs {Value}.
Arguments getLogs {Value}.
Arguments argument {Value}.
Arguments proxiedCall {Value}.
Arguments getTrap {Value}.
Arguments mkLogged {Value}.
Arguments loggedAt {Value}.
Arguments loggedPrefix {Value}.
Arguments loggedLevel {Value}.
Arguments loggedData {Value}.
Arguments logAll {Value}.
Arguments entryOf {Value}.
Arguments passedOn {Value}.
Arguments logsContent {Value}.
Arguments wellFormed {Value}.
Arguments Recording {Value}.
Arguments TargetProperty {Value}.

(** A store in which [ProxyLogger.create()] has run once, an underlying
    logger whose methods return, and two calls. *)
Definition created : Store Z := mkStore (Some 0%nat) [0%nat] [[]] [].

Definition quiet : string -> string -> list Z -> option exn := fun _ _ _ => None.

Definition twoCalls : list (Logged Z) :=
  [mkLogged 1000 "pxe" "info" [10; 20; 30]; mkLogged 1001 "pxe" "warn" []].

End ProxyLogger.

(** * The constructor of the EVM client *)

Module EVMClientSetup.

Import ABI EVMClient.

(** [strings.HasPrefix]:
    [len(s) >= len(prefix) && s[:len(prefix)] == prefix] *)
Definition HasPrefix (s prefix : string) : bool :=
  (String.length prefix <=? String.length s)%nat
  && String.eqb (String.substring 0 (String.length prefix) s) prefix.

(** [strings.TrimPrefix]: [s[len(prefix):]] when [s] has the prefix, [s]
    otherwise. *)
Definition TrimPrefix (s prefix : string) : string :=
  if HasPrefix s prefix
  then String.substring (String.length prefix)
                        (String.length s - String.length prefix) s
  else s.

(** [crypto.PublicKey], an interface value: the public key of an ECDSA
    private key, or a key of another kind. *)
Inductive PublicKey :=
| ecdsaPublicKey (X Y : Z)
| otherPublicKey.

Section Constructor.

(** Library functions that stay abstract: [ethclient.Dial],
    [crypto.HexToECDSA], the curve point of a private key (the field
    [PublicKey] of [ecdsa.PrivateKey]) and [crypto.PubkeyToAddress]. *)
Variable Dial : string -> error + EthClient.
Variable HexToECDSA : string -> error + Z.
Variable publicPoint : Z -> Z * Z.
Variable PubkeyToAddress : Z * Z -> Address.

(** [Public] of [ecdsa.PrivateKey]: [return &priv.PublicKey]. *)
Definition Public (prv : Z) : PublicKey :=
  ecdsaPublicKey (publicPoint prv).1 (publicPoint prv).2.

(** [NewEVMClient]: the Go result pair, a client pointer and an error,
    [None] for nil. *)
Definition NewEVMClient (rpcURL privateKeyHex : string)
  : option EVMClient * option error :=
  match Dial rpcURL with
  | inl err => (None, Some (Errorf "failed to connect to EVM node" err))
  | inr ethClient =>
  match HexToECDSA (TrimPrefix privateKeyHex "0x") with
  | inl err => (None, Some (Errorf "invalid private key" err))
  | inr privateKey =>
  let publicKey := Public privateKey in
  match publicKey with
  | otherPublicKey => (None, Some "error casting public key to ECDSA"%string)
  | ecdsaPublicKey X Y =>
      let address := PubkeyToAddress (X, Y) in
      (Some (mkEVMClient ethClient privateKey address), None)
  end end end.

End Constructor.

(** Big-endian value of a byte string, as an ABI decoder reads a word. *)
Definition beValue (b : bytes) : Z :=
  fold_left (fun acc x => acc * 256 + x) b 0.

(** Sample library functions: a node that is reached at one URL only, keys
    written as one decimal digit, and a toy curve. *)
Definition sampleDial (rpcURL : string) : error + EthClient :=
  if String.eqb rpcURL "http://localhost:8545" then inr quietNode
  else inl "dial tcp: connection refused"%string.

Definition sampleHexToECDSA (hexkey : string) : error + Z :=
  match hexkey with
  | String c EmptyString =>
      if (48 <? Z.of_N (N_of_ascii c)) && (Z.of_N (N_of_ascii c) <? 58)
      then inr (Z.of_N (N_of_ascii c) - 48)
      else inl "invalid hex character in private key"%string
  | _ => inl "invalid length, need 256 bits"%string
  end.

Definition samplePoint (prv : Z) : Z * Z := (2 * prv, 3 * prv).

Definition sampleAddress (p : Z * Z) : Address := [p.1; p.2].

Definition sampleSign (tx : Transaction) (chainID prv : Z)
  : error + (Z * Z * Z) :=
  inr (35 + 2 * chainID, prv, txNonce tx).

End EVMClientSetup.

(** * The deployment scripts *)

Module DeployVault.

(** Solidity values: [address], [uint16], [uint8], [uint256] and [bytes32]
    as integers. *)
Abbreviation address := Z (only parsing).
Abbreviation bytes32 := Z (only parsing).

(** The explicit conversions [uint16(x)] and [uint8(x)] of a [uint256]:
    the low bits are kept. *)
Definition uint16 (x : Z) : Z := x mod 2 ^ 16.
Definition uint8 (x : Z) : Z := x mod 2 ^ 8.

(** The message of a revert. *)
Abbreviation error := string (only parsing).

(** The cheatcodes the scripts call; those that read the environment or
    take a private key can revert. *)
Record Vm := mkVm {
  envUint : string -> error + Z;
  envAddress : string -> error + address;
  envOrAddress : string -> address -> error + address;
  envOrUint : string -> Z -> error + Z;
  envOrBytes32 : string -> bytes32 -> error + bytes32;
  addr : Z -> error + address;
  toString : Z -> string;
  startBroadcast : option Z -> option error
}.

(** The transactions a script sends between [startBroadcast] and
    [stopBroadcast]. *)
Inductive Broadcast :=
| NewDonation (receiver : address)
| NewVault (wormholeAddress : address) (chainId : Z) (evmChainId : Z)
           (finality : Z) (donationContract : address)
| RegisterEmitter (vault : address) (chainId : Z) (emitterAddress : bytes32).

(** The chain the script runs against: its id, and how it answers the
    transactions of a sender ([None] is the default sender): a creation
    gives the new contract's address, and each of them can revert. *)
Record Chain := mkChain {
  chainid : Z;
  create : option Z -> Broadcast -> error + address;
  call : option Z -> Broadcast -> option error
}.

Record NetworkConfig := mkNetworkConfig {
  wormholeAddress : address;
  wormholeChainId : Z;
  finality : Z;
  aztecEmitter : bytes32
}.

Definition Run := M (list Broadcast) error.

(** A call that can revert. *)
Definition lift {A} (r : error + A) : Run A :=
  match r with
  | inl e => throw e
  | inr a => ret a
  end.

Definition require (r : option error) : Run unit :=
  match r with
  | Some e => throw e
  | None => ret tt
  end.

(** A transaction sent while broadcasting. *)
Definition broadcast (tx : Broadcast) : Run unit :=
  modify (fun txs => txs ++ [tx]).

Section Script.

Variable vm : Vm.
Variable chain : Chain.

(** [_getNetworkConfig] of [script/DeployVault.s.sol] *)
Definition _getNetworkConfig : Run NetworkConfig :=
  if chainid chain =? 31337 then
    ret (mkNetworkConfig 0xC89Ce4735882C9F0f0FE26686c53074E09B0D550 10003 2
           0x0d6fe810321185c97a0e94200f998bcae787aaddf953a03b14ec5da3b6838bad)
  else if chainid chain =? 421614 then
    let* wormholeAddress :=
      lift (envOrAddress vm "WORMHOLE_ADDRESS"
                         0x6b9C8671cdDC8dEab9c719bB87cBd3e782bA6a35) in
    let* wormholeChainId := lift (envOrUint vm "WORMHOLE_CHAIN_ID" 10003) in
    let* finality := lift (envOrUint vm "FINALITY" 2) in
    let* aztecEmitter :=
      lift (envOrBytes32 vm "AZTEC_EMITTER_ADDRESS"
              0x0d6fe810321185c97a0e94200f998bcae787aaddf953a03b14ec5da3b6838bad) in
    ret (mkNetworkConfig wormholeAddress (uint16 wormholeChainId)
                         (uint8 finality) aztecEmitter)
  else
    throw ("Unsupported chain ID: " ++ toString vm (chainid chain)
             ++ " (only local and testnet supported)")%string.

(** [new C(...)] while broadcasting as [sender]. *)
Definition new (sender : option Z) (tx : Broadcast) : Run address :=
  let* a := lift (create chain sender tx) in
  broadcast tx >> ret a.

(** [run] of [script/DeployVault.s.sol]; the [console.log] lines are left
    out except for the call of [vm.addr] that one of them makes. *)
Definition run : Run (address * address) :=
  let* deployerPrivateKey := lift (envUint vm "PRIVATE_KEY") in
  let* donationReceiver := lift (envAddress vm "DONATION_RECEIVER") in
  let* config := _getNetworkConfig in
  let* _ := lift (addr vm deployerPrivateKey) in
  require (startBroadcast vm (Some deployerPrivateKey)) >>
  let* donationContractAddr :=
    new (Some deployerPrivateKey) (NewDonation donationReceiver) in
  let* vaultAddress :=
    new (Some deployerPrivateKey)
        (NewVault (wormholeAddress config) (wormholeChainId config)
                  (chainid chain) (finality config) donationContractAddr) in
  let registration := RegisterEmitter vaultAddress 52 (aztecEmitter config) in
  require (call chain (Some deployerPrivateKey) registration) >>
  broadcast registration >>
  ret (vaultAddress, donationContractAddr).

(** [run] of the earlier deployment script, with its constants. *)
Definition runLegacy : Run (address * address) :=
  let wormholeAddress := 0x6b9C8671cdDC8dEab9c719bB87cBd3e782bA6a35 in
  let chainId := 10003 in
  let evmChainId := chainid chain in
  let finality := 2 in
  let emitterAddress :=
    0x0d6fe810321185c97a0e94200f998bcae787aaddf953a03b14ec5da3b6838bad in
  let emitterChainId := 52 in
  require (startBroadcast vm None) >>
  let* donationContractAddress :=
    new None (NewDonation 0x70997970C51812dc3A010C7d01b50e0d17dc79C8) in
  let* vault :=
    new None (NewVault wormholeAddress chainId evmChainId finality
                       donationContractAddress) in
  let registration := RegisterEmitter vault emitterChainId emitterAddress in
  require (call chain None registration) >>
  broadcast registration >>
  ret (vault, donationContractAddress).

End Script.

(** *** Vocabulary and samples *)

(** The environment sets none of the optional variables: every [envOr]
    returns its default. *)
Definition noOverrides (vm : Vm) : Prop :=
  (forall name d, envOrAddress vm name d = inr d)
  /\ (forall name d, envOrUint vm name d = inr d)
  /\ (forall name d, envOrBytes32 vm name d = inr d).

(** A transaction without the addresses that differ from one deployment to
    the next: the donation receiver and the deployed contracts. *)
Definition withoutAddresses (tx : Broadcast) : Broadcast :=
  match tx with
  | NewDonation _ => NewDonation 0
  | NewVault w c e f _ => NewVault w c e f 0
  | RegisterEmitter _ c e => RegisterEmitter 0 c e
  end.

(** An environment with the two required variables and, for the optional
    numbers, the given values. *)
Definition sampleVm (chainIdVar finalityVar : option Z) : Vm :=
  mkVm (fun name => if String.eqb name "PRIVATE_KEY" then inr 7
                    else inl "environment variable not found"%string)
       (fun name => if String.eqb name "DONATION_RECEIVER" then inr 0xd0
                    else inl "environment variable not found"%string)
       (fun _ d => inr d)
       (fun name d =>
          if String.eqb name "WORMHOLE_CHAIN_ID" then inr (default d chainIdVar)
          else if String.eqb name "FINALITY" then inr (default d finalityVar)
          else inr d)
       (fun _ d => inr d)
       (fun key => inr (key + 1000))
       (fun n => pretty n)
       (fun _ => None).

(** A chain on which every transaction goes through; contracts get the
    addresses 0xd1 (Donation) and 0xd2 (Vault). *)
Definition sampleChain (id : Z) : Chain :=
  mkChain id
          (fun _ tx => match tx with
                       | NewDonation _ => inr 0xd1
                       | _ => inr 0xd2
                       end)
          (fun _ _ => None).

End DeployVault.

(** * The [.env] loader of [test-devnet.mjs] *)

Module TestDevnet.

Import SendMessage SendMessageHelpers.

(** [s.split(sep)] for a separator of one code unit: the pieces between
    the separators, at least one piece. *)
Fixpoint split (sep : Z) (s : jsstring) : list jsstring :=
  match s with
  | [] => [[]]
  | c :: rest =>
      if c =? sep then [] :: split sep rest
      else match split sep rest with
           | piece :: pieces => (c :: piece) :: pieces
           | [] => [[c]]
           end
  end.

(** The body of the [forEach] callback for one line: the assignment
    [process.env[key.trim()] = values.join('=').trim()] it makes, if any. *)
Definition assignment (line : jsstring) : option (jsstring * jsstring) :=
  match split 61 line with
  | key :: values =>
      if negb (length key =? 0)%nat && negb (length values =? 0)%nat
         && negb (startsWith (trim line) (codeUnits "#"))
      then Some (trim key, trim (join (codeUnits "=") values))
      else None
  | [] => None
  end.

(** [env.split('\n').forEach(...)]: the assignments to [process.env], in
    the order they are made, after those made before. *)
Definition loadEnv (env : jsstring) (assigned : list (jsstring * jsstring))
  : list (jsstring * jsstring) :=
  fold_left (fun done line =>
               match assignment line with
               | Some kv => done ++ [kv]
               | None => done
               end)
            (split 10 env) assigned.

(** No code unit of the string is [c]. *)
Definition without (c : Z) (s : jsstring) : Prop := Forall (fun x => x <> c) s.

(** The lines of a file whose line ends are [\r\n], as [split('\n')] sees
    them: all but the last end in [\r]. *)
Fixpoint withCR (lines : list jsstring) : list jsstring :=
  match lines with
  | [] => []
  | [l] => [l]
  | l :: rest => (l ++ [13]) :: withCR rest
  end.

(** Sample lines of a file. *)
Definition sampleLines : list jsstring :=
  map codeUnits ["# devnet"; "AZTEC_DEVNET_URL = http://localhost:8080/?a=b";
                 ""; "export"; "=x"].

End TestDevnet.

(** * Reading the nonce file *)

Module NonceFile.

Import SendMessage SendMessageHelpers.

(** The digits of [s] in a radix up to 16, most significant first, added to
    [acc]; [None] when a code unit is not a digit of the radix. *)
Fixpoint digitsValue (radix acc : Z) (s : jsstring) : option Z :=
  match s with
  | [] => Some acc
  | c :: rest =>
      match hexDigitValue c with
      | Some d => if d <? radix then digitsValue radix (acc * radix + d) rest
                  else None
      | None => None
      end
  end.

(** One digit or more. *)
Definition parseDigits (radix : Z) (s : jsstring) : option Z :=
  match s with
  | [] => None
  | _ :: _ => digitsValue radix 0 s
  end.

(** A binary, octal or hexadecimal literal with its prefix. *)
Definition nonDecimal (literal : jsstring) : option Z :=
  match literal with
  | z :: p :: rest =>
      if negb (z =? 48) then None
      else if (p =? 120) || (p =? 88) then parseDigits 16 rest
      else if (p =? 111) || (p =? 79) then parseDigits 8 rest
      else if (p =? 98) || (p =? 66) then parseDigits 2 rest
      else None
  | _ => None
  end.

(** [StringToBigInt]: white space around an optional literal, which is a
    decimal number with an optional sign or an unsigned binary, octal or
    hexadecimal number with its prefix; the empty literal is [0n]. [None]
    is the [undefined] that makes [BigInt] throw a [SyntaxError]. *)
Definition StringToBigInt (s : jsstring) : option Z :=
  match trim s with
  | [] => Some 0
  | c :: rest =>
      if c =? 45 then option_map Z.opp (parseDigits 10 rest)
      else if c =? 43 then parseDigits 10 rest
      else match parseDigits 10 (c :: rest) with
           | Some v => Some v
           | None => nonDecimal (c :: rest)
           end
  end.

Section Values.

(** JavaScript numbers stay abstract. *)
Variable Number : Type.

(** The values [JSON.parse] can return, and [undefined]. An object is the
    list of its own properties. *)
#[warnings="-register-all"]
Inductive JSValue :=
| JUndefined
| JNull
| JBool (b : bool)
| JNumber (x : Number)
| JString (s : jsstring)
| JArray (elements : list JSValue)
| JObject (properties : list (string * JSValue)).

(** A number is falsy when it is zero or [NaN]. *)
Variable isZeroOrNaN : Number -> bool.

(** [ToBoolean], the test of the conditional operator. *)
Definition ToBoolean (v : JSValue) : bool :=
  match v with
  | JUndefined | JNull => false
  | JBool b => b
  | JNumber x => negb (isZeroOrNaN x)
  | JString s => negb (length s =? 0)%nat
  | JArray _ | JObject _ => true
  end.

(** [v.name] for a name that no prototype defines: an own property of an
    object, [undefined] on other values, a [TypeError] on [null] and
    [undefined]. *)
Definition getProperty (v : JSValue) (name : string) : exn + JSValue :=
  match v with
  | JUndefined => inl (Raised "TypeError: Cannot read properties of undefined")
  | JNull => inl (Raised "TypeError: Cannot read properties of null")
  | JObject properties =>
      match find (fun p => String.eqb p.1 name) properties with
      | Some p => inr p.2
      | None => inr JUndefined
      end
  | _ => inr JUndefined
  end.

(** Library functions that stay abstract: [JSON.parse], and [BigInt] on
    numbers and on arrays and objects. *)
Variable JSONparse : string -> exn + JSValue.
Variable NumberToBigInt : Number -> exn + Z.
Variable ObjectToBigInt : JSValue -> exn + Z.

(** [BigInt(v)] *)
Definition BigInt (v : JSValue) : exn + Z :=
  match v with
  | JUndefined => inl (Raised "TypeError: Cannot convert undefined to a BigInt")
  | JNull => inl (Raised "TypeError: Cannot convert null to a BigInt")
  | JBool b => inr (if b then 1 else 0)
  | JNumber x => NumberToBigInt x
  | JString s =>
      match StringToBigInt s with
      | Some n => inr n
      | None => inl (Raised "SyntaxError: Cannot convert string to a BigInt")
      end
  | JArray _ | JObject _ => ObjectToBigInt v
  end.

Definition liftJS {A} (r : exn + A) : JS A :=
  match r with
  | inl e => throw e
  | inr a => ret a
  end.

(** [existsSync(NONCE_FILE_PATH)] *)
Definition existsSync : JS bool :=
  let* w := get in
  ret (match nonceFile w with Some _ => true | None => false end).

(** [readFileSync(NONCE_FILE_PATH, 'utf8')]: a fallible external call. *)
Definition readFileSync : JS string :=
  let* f := nextFault in
  match f with
  | Some e => throw e
  | None =>
      let* w := get in
      match nonceFile w with
      | Some contents => ret contents
      | None => throw (Raised "ENOENT: no such file or directory")
      end
  end.

(** [loadNoncesFromFile]; its console lines are left out. *)
Definition loadNoncesFromFile : JS (Z * Z) :=
  try_catch
    (let* present := existsSync in
     if present then
       let* text := readFileSync in
       let* nonceData := liftJS (JSONparse text) in
       let* token_nonce := liftJS (getProperty nonceData "token_nonce") in
       let* tokenNonce :=
         if ToBoolean token_nonce then liftJS (BigInt token_nonce) else ret 67 in
       let* wallet_nonce := liftJS (getProperty nonceData "wallet_nonce") in
       let* walletNonce :=
         if ToBoolean wallet_nonce then liftJS (BigInt wallet_nonce)
         else ret 100042 in
       ret (tokenNonce, walletNonce)
     else ret (67, 100042))
    (fun error => ret (67, 100042)).

(** The first statements of [init]: the loaded nonces become the current
    ones. *)
Definition initNonces : JS unit :=
  let* loaded := loadNoncesFromFile in
  setTokenNonce loaded.1 >> setWalletNonce loaded.2.

(** The object [saveNoncesToFile] writes. *)
Definition nonceData (tokenNonce walletNonce : Z) : JSValue :=
  JObject [("token_nonce"%string, JString (codeUnits (bigintToString tokenNonce)));
           ("wallet_nonce"%string, JString (codeUnits (bigintToString walletNonce)))].

(** [JSON.parse] reads back what [JSON.stringify] wrote for two nonces. *)
Definition parsesSaved (tokenNonce walletNonce : Z) : Prop :=
  JSONparse (stringifyNonceData (bigintToString tokenNonce)
                                (bigintToString walletNonce))
  = inr (nonceData tokenNonce walletNonce).

End Values.

(** A call that only reads: it changes nothing of the world but the
    schedule of the environment's answers. *)
Definition readsOnly (w w' : World) : Prop :=
  currentTokenNonce w' = currentTokenNonce w
  /\ currentWalletNonce w' = currentWalletNonce w
  /\ pxe w' = pxe w
  /\ nodeClient w' = nodeClient w
  /\ nonceFile w' = nonceFile w
  /\ trace w' = trace w.

Arguments JUndefined {Number}.
Arguments JNull {Number}.
Arguments JBool {Number} b.
Arguments JNumber {Number} x.
Arguments JString {Number} s.
Arguments JArray {Number} elements.
Arguments JObject {Number} properties.

(** A [JSON.parse] that knows one text, for numbers as integers. *)
Definition sampleParse (text : string) (value : JSValue Z) (s : string)
  : exn + JSValue Z :=
  if String.eqb s text then inr value
  else inl (Raised "SyntaxError: Unexpected token").

End NonceFile.

(** * The Counter deployment script, [deploy-counter.mjs] *)

Module DeployCounter.

Definition exn := string.

(** What a run leaves behind: the calls into libraries and the platform
    that returned, by the name of what was called, in order. *)
Record World := mkWorld {
  faults : list (option exn);
  called : list string
}.

Definition JS := M World exn.

(** A call into a library or the platform. The environment decides whether
    it throws (or, awaited, rejects): [faults] is the schedule of its
    answers, one per call, [Some e] for a call that throws [e]; after the
    schedule's end no call fails. *)
Definition external (name : string) : JS unit :=
  fun w =>
    match faults w with
    | Some e :: fs => (Throw e, mkWorld fs (called w))
    | None :: fs => (Ret tt, mkWorld fs (called w ++ [name]))
    | [] => (Ret tt, mkWorld [] (called w ++ [name]))
    end.

(** The bindings an identifier in the body of [main] can refer to: the
    constants of [main] declared before the statement that builds
    [deploymentInfo], the bindings of the module, its imports, and the
    global objects the script uses. *)
Definition mainBindings : list string :=
  ["devnetUrl"; "pxe"; "wallet"; "accountAddress"; "sponsoredFPCInstance";
   "sponsoredPaymentMethod"; "counterArtifactPath"; "counterJson";
   "counterArtifact"; "counter"].

Definition moduleBindings : list string :=
  ["__dirname"; "parentDir"; "DEFAULTS"; "envPath"; "getConfig"; "main"].

Definition imports : list string :=
  ["createPXEClient"; "Contract"; "Fr"; "AztecAddress";
   "getContractInstanceFromInstantiationParams"; "SponsoredFeePaymentMethod";
   "loadContractArtifact"; "getInitialTestAccountsWallets";
   "SponsoredFPCContract"; "readFileSync"; "writeFileSync"; "dirname"; "join";
   "fileURLToPath"].

Definition globals : list string := ["console"; "process"; "JSON"; "Date"].

Definition inScope (name : string) : bool :=
  existsb (String.eqb name) (mainBindings ++ moduleBindings ++ imports ++ globals).

(** The value of an identifier is looked up: a name with no binding throws
    a [ReferenceError]. *)
Definition identifier (name : string) : JS unit :=
  if inScope name then ret tt
  else throw ("ReferenceError: " ++ name ++ " is not defined")%string.

(** The object literal assigned to [deploymentInfo]; its property values
    are evaluated in the order they are written. *)
Definition deploymentInfo : JS unit :=
  identifier "counter" >> external "counter.address.toString" >>
  identifier "accountAddress" >> external "accountAddress.toString" >>
  identifier "devnetUrl" >>
  identifier "sponsoredFPCInstance" >>
  external "sponsoredFPCInstance.address.toString" >>
  external "new Date().toISOString" >>
  identifier "privateKeyHex" >>
  identifier "signingKeyHex".

(** [main]: its statements that call out, in order; the console lines are
    left out but for the calls their arguments make. *)
Definition main : JS unit :=
  identifier "getConfig" >>
  external "createPXEClient" >>
  external "getInitialTestAccountsWallets" >>
  external "wallet.getAddress" >>
  external "accountAddress.toString" >>
  external "getContractInstanceFromInstantiationParams" >>
  external "sponsoredFPCInstance.address.toString" >>
  external "new SponsoredFeePaymentMethod" >>
  external "readFileSync" >>
  external "JSON.parse" >>
  external "loadContractArtifact" >>
  external "accountAddress.toString" >>
  external "Contract.deploy" >>
  deploymentInfo >>
  external "JSON.stringify" >>
  external "writeFileSync" >>
  external "counter.address.toString" >>
  external "accountAddress.toString" >>
  external "sponsoredFPCInstance.address.toString".

(** [main().then(() => process.exit(0)).catch(error => { ...;
    process.exit(1) })] *)
Definition script : JS unit :=
  try_catch (main >> exit 0) (fun error => exit 1).

End DeployCounter.

(** * The artifact copier, [wormhole/copy-artifacts.mjs] *)

Module CopyArtifacts.

Import SendMessage.

(** What [readdirSync] and [copyFileSync] throw: [Error] objects, kept by
    their message. *)
Definition exn := string.

(** [s.endsWith(suffix)] *)
Definition endsWith (s suffix : jsstring) : bool :=
  (length suffix <=? length s)%nat
  && bool_decide (drop (length s - length suffix) s = suffix).

(** The directory as [readdirSync] finds it, the schedule of the answers to
    [copyFileSync] (one per call, [Some e] for a call that throws [e]), and
    the files copied so far. *)
Record World := mkWorld {
  directory : exn + list jsstring;
  faults : list (option exn);
  copied : list jsstring
}.

Definition JS := M World exn.

Definition readdirSync : JS (list jsstring) :=
  fun w =>
    match directory w with
    | inl e => (Throw e, w)
    | inr files => (Ret files, w)
    end.

Definition copyFileSync (file : jsstring) : JS unit :=
  fun w =>
    match faults w with
    | Some e :: fs => (Throw e, mkWorld (directory w) fs (copied w))
    | None :: fs => (Ret tt, mkWorld (directory w) fs (copied w ++ [file]))
    | [] => (Ret tt, mkWorld (directory w) [] (copied w ++ [file]))
    end.

(** [for (const file of jsonFiles) { copyFileSync(...); ... }] *)
Fixpoint copyAll (jsonFiles : list jsstring) : JS unit :=
  match jsonFiles with
  | [] => ret tt
  | file :: rest => copyFileSync file >> copyAll rest
  end.

(** [files.filter(file => file.endsWith('.json'))] *)
Definition jsonFilesOf (files : list jsstring) : list jsstring :=
  filter (fun file => endsWith file (codeUnits ".json") = true) files.

(** The script; a run that falls off its end is [Ret tt], which leaves the
    process with exit code 0. *)
Definition script : JS unit :=
  try_catch
    (let* files := readdirSync in
     let jsonFiles := jsonFilesOf files in
     (if (length jsonFiles =? 0)%nat then exit 0 else ret tt) >>
     copyAll jsonFiles)
    (fun error => exit 1).

Definition sampleDirectory : list jsstring :=
  map codeUnits ["wormhole.json"; "notes.txt"; "token.json"; "json"].

End CopyArtifacts.

(** * Properties of send-message.mjs *)

Module SendMessageProofs.

Import SendMessage.

(** ** Nonce bookkeeping *)











(** The first call in a fresh process: 68 is returned and the file holds
    68 and 100042. *)
Example getNextTokenNonce_first_call :
  getNextTokenNonce (initialWorld None []) =
  (Ret 68,
   mkWorld 68 100042 None None (Some (stringifyNonceData "68" "100042"))
           [WriteFile (stringifyNonceData "68" "100042");
            Console (SavedNonces 68 100042)] []).
Proof. vm_compute. reflexivity. Qed.

(** A call whose write fails throws after the counter has moved. *)
Example getNextWalletNonce_failed_write :
  getNextWalletNonce (initialWorld None [Some (Raised "EACCES")]) =
  (Throw (Raised "EACCES"),
   mkWorld 67 100043 None None None
           [Console (ErrorSavingNonces (Raised "EACCES"))] []).
Proof. vm_compute. reflexivity. Qed.

(** Three calls with no failing write. *)
Example callAll_three_calls :
  returned NextToken
    (callAll [NextToken; NextWallet; NextToken] (initialWorld None [])).1
  = [68; 69].
Proof. vm_compute. reflexivity. Qed.

(** ** [hexAddressToUint8Array] *)

Lemma substring_take_drop (s : jsstring) (a b : nat) :
  (a <= b)%nat -> (b <= length s)%nat ->
  substring s a b = take (b - a) (drop a s).
Proof.
  intros Hab Hb. unfold substring.
  replace (Nat.min a (length s)) with a by lia.
  replace (Nat.min b (length s)) with b by lia.
  replace (Nat.min a b) with a by lia.
  replace (Nat.max a b) with b by lia.
  reflexivity.
Qed.

Lemma stripped_0x (s : jsstring) : stripped (codeUnits "0x" ++ s) = s.
Proof.
  unfold stripped. cbn [codeUnits list_ascii_of_string map app startsWith].
  change (Z.of_N (N_of_ascii "0")) with 48.
  change (Z.of_N (N_of_ascii "x")) with 120.
  rewrite !Z.eqb_refl. cbn [andb].
  unfold substringFrom. rewrite substring_take_drop by (cbn [length]; lia).
  cbn [drop length]. replace (S (S (length s)) - 2)%nat with (length s) by lia.
  apply firstn_all.
Qed.

(** The loop that fills the first [n] elements. *)
Lemma fill_loop (f : nat -> option Z) (n : nat) (arr : Uint8Array) :
  (n <= length arr)%nat ->
  fold_left (fun a i => setIndex i (f i) a) (seq 0 n) arr
  = map (fun i => ToUint8 (f i)) (seq 0 n) ++ drop n arr.
Proof.
  induction n as [|n IH]; intros Hn.
  - reflexivity.
  - rewrite seq_S, fold_left_app, IH by lia. cbn [fold_left Nat.add].
    rewrite map_app. cbn [map]. unfold setIndex.
    rewrite <- app_assoc. cbn [app].
    assert (Hlen : length (map (fun i => ToUint8 (f i)) (seq 0 n)) = n)
      by (rewrite length_map, length_seq; reflexivity).
    destruct (lookup_lt_is_Some_2 arr n ltac:(lia)) as [x Hx].
    rewrite (drop_S arr x n Hx).
    rewrite insert_app_r_alt by lia. rewrite Hlen, Nat.sub_diag.
    reflexivity.
Qed.

Lemma hexAddressToUint8Array_unfold (hexAddress : jsstring) :
  hexAddressToUint8Array hexAddress =
  if negb (length (stripped hexAddress) =? 40)%nat
  then inl (invalidAddressLength (length (stripped hexAddress)))
  else inr (map (fun i => ToUint8 (parseInt16
                    (substring (stripped hexAddress) (i * 2) (i * 2 + 2))))
                (seq 0 20) ++ replicate 11 0).
Proof.
  unfold hexAddressToUint8Array. fold (stripped hexAddress).
  destruct (negb (length (stripped hexAddress) =? 40)%nat); [reflexivity|].
  rewrite (fill_loop (fun i => parseInt16
                         (substring (stripped hexAddress) (i * 2) (i * 2 + 2))))
    by (cbn; lia).
  reflexivity.
Qed.

Lemma hexDigit_enum (c : Z) :
  isHexDigit c ->
  In c [48; 49; 50; 51; 52; 53; 54; 55; 56; 57;
        65; 66; 67; 68; 69; 70; 97; 98; 99; 100; 101; 102].
Proof.
  unfold isHexDigit, hexDigitValue. intros [v Hv]. cbn [In].
  destruct (Z.leb_spec 48 c), (Z.leb_spec c 57), (Z.leb_spec 97 c),
    (Z.leb_spec c 102), (Z.leb_spec 65 c), (Z.leb_spec c 70);
    cbn in Hv; try discriminate; lia.
Qed.

(** Two hexadecimal digits parse to the byte they spell. *)
Lemma parseInt16_hex_pair (hi lo : Z) :
  isHexDigit hi -> isHexDigit lo ->
  ToUint8 (parseInt16 [hi; lo])
  = 16 * default 0 (hexDigitValue hi) + default 0 (hexDigitValue lo).
Proof.
  intros Hhi Hlo. apply hexDigit_enum in Hhi, Hlo. cbn [In] in Hhi, Hlo.
  repeat match goal with
         | H : _ \/ _ |- _ => destruct H as [H|H]
         | H : False |- _ => destruct H
         end; subst; vm_compute; reflexivity.
Qed.

Lemma substring_skip_pair (a b : Z) (rest : jsstring) (i : nat) :
  (i * 2 + 2 <= length rest)%nat ->
  substring (a :: b :: rest) (S i * 2) (S i * 2 + 2)
  = substring rest (i * 2) (i * 2 + 2).
Proof.
  intros Hi. rewrite !substring_take_drop by (cbn [length]; lia).
  replace (S i * 2)%nat with (S (S (i * 2))) by lia. reflexivity.
Qed.

Lemma decode_pairs (n : nat) (s : jsstring) :
  length s = (2 * n)%nat -> Forall isHexDigit s ->
  map (fun i => ToUint8 (parseInt16 (substring s (i * 2) (i * 2 + 2)))) (seq 0 n)
  = decodeHex s.
Proof.
  revert s. induction n as [|n IH]; intros s Hlen Hhex.
  - destruct s; [reflexivity | discriminate].
  - destruct s as [|hi [|lo rest]]; try (cbn in Hlen; lia).
    inversion Hhex as [|? ? Hhi Hrest]; subst.
    inversion Hrest as [|? ? Hlo Hrest']; subst.
    cbn [seq map decodeHex]. f_equal.
    + rewrite substring_take_drop by (cbn [length]; lia).
      cbn [Nat.mul Nat.add Nat.sub drop take].
      apply parseInt16_hex_pair; assumption.
    + rewrite <- seq_shift, map_map.
      rewrite <- (IH rest) by (cbn in Hlen; first [lia | assumption]).
      apply map_ext_in. intros i Hi. apply in_seq in Hi.
      rewrite substring_skip_pair by (cbn in Hlen; lia). reflexivity.
Qed.

(** C9. When the string left after removing an optional [0x] prefix has
    exactly 40 code units, [hexAddressToUint8Array] returns 31 bytes: byte
    [i < 20] is what [parseInt] reads from the [i]-th pair of characters
    (for hexadecimal digits, the byte the pair spells), and the last 11
    bytes are zero. With any other length it throws and returns nothing. *)
Theorem hexAddressToUint8Array_spec (hexAddress : jsstring) :
  (length (stripped hexAddress) <> 40%nat ->
   hexAddressToUint8Array hexAddress
   = inl (invalidAddressLength (length (stripped hexAddress))))
  /\ (length (stripped hexAddress) = 40%nat ->
      exists arr : Uint8Array,
        hexAddressToUint8Array hexAddress = inr arr
        /\ length arr = 31%nat
        /\ drop 20 arr = replicate 11 0
        /\ (forall i : nat, (i < 20)%nat ->
              arr !! i = Some (ToUint8 (parseInt16
                           (substring (stripped hexAddress) (i * 2) (i * 2 + 2)))))
        /\ (Forall isHexDigit (stripped hexAddress) ->
            take 20 arr = decodeHex (stripped hexAddress))).
Proof.
  rewrite hexAddressToUint8Array_unfold. split; intros Hlen.
  - apply Nat.eqb_neq in Hlen. rewrite Hlen. reflexivity.
  - rewrite Hlen. cbn [Nat.eqb negb].
    set (f := fun i : nat => ToUint8 (parseInt16
                 (substring (stripped hexAddress) (i * 2) (i * 2 + 2)))).
    assert (Hmap : length (map f (seq 0 20)) = 20%nat)
      by (rewrite length_map, length_seq; reflexivity).
    exists (map f (seq 0 20) ++ replicate 11 0).
    split; [reflexivity|]. split; [|split; [|split]].
    + rewrite length_app, Hmap. reflexivity.
    + rewrite drop_app_length'; [reflexivity | exact Hmap].
    + intros i Hi. rewrite lookup_app_l by lia.
      change (map f (seq 0 20)) with (f <$> seq 0 20).
      rewrite list_lookup_fmap, lookup_seq_lt by lia. reflexivity.
    + intros Hhex. rewrite take_app_length' by exact Hmap.
      apply decode_pairs; [lia | assumption].
Qed.

(** The vault address of [main]: 40 digits after the prefix. *)
Lemma hexAddressToUint8Array_spec_witness :
  length (stripped vaultAddress) = 40%nat
  /\ exists arr : Uint8Array,
       hexAddressToUint8Array vaultAddress = inr arr
       /\ length arr = 31%nat
       /\ drop 20 arr = replicate 11 0
       /\ (forall i : nat, (i < 20)%nat ->
             arr !! i = Some (ToUint8 (parseInt16
                          (substring (stripped vaultAddress) (i * 2) (i * 2 + 2)))))
       /\ (Forall isHexDigit (stripped vaultAddress) ->
           take 20 arr = decodeHex (stripped vaultAddress)).
Proof.
  split; [reflexivity|].
  apply (proj2 (hexAddressToUint8Array_spec vaultAddress)). reflexivity.
Defined.


Example hexAddressToUint8Array_vault :
  hexAddressToUint8Array vaultAddress =
  inr [0; 156; 187; 143; 145; 211; 146; 133; 108; 184; 128; 214; 124; 128;
       106; 167; 49; 227; 214; 134; 0; 0; 0; 0; 0; 0; 0; 0; 0; 0; 0].
Proof. vm_compute. reflexivity. Qed.

(** Characters that are not digits: [parseInt] gives [NaN] for the first
    pair (stored as 0), reads one digit of the second, and a signed digit
    of the third. *)
Example hexAddressToUint8Array_not_hex :
  hexAddressToUint8Array (codeUnits "zz1g-1aaaaaaaaaaaaaaaaaaaaaaaaaaaaaaaaaa") =
  inr [0; 1; 255; 170; 170; 170; 170; 170; 170; 170; 170; 170; 170; 170;
       170; 170; 170; 170; 170; 170; 0; 0; 0; 0; 0; 0; 0; 0; 0; 0; 0].
Proof. vm_compute. reflexivity. Qed.

Example hexAddressToUint8Array_short :
  hexAddressToUint8Array (codeUnits "0x1234") =
  inl (Raised "Invalid address length: 4 chars, expected 40").
Proof. vm_compute. reflexivity. Qed.
(** ** [createMessageArrays] *)

Lemma alloc_filled (h : Heap) :
  heapFill (length h) 0 (h ++ [newUint8Array 31]) = h ++ [replicate 31 0].
Proof.
  unfold heapFill. 
  rewrite (alter_app_r_alt (fill 0) h [newUint8Array 31] (length h)) by lia.
  rewrite Nat.sub_diag. reflexivity.
Qed.

Lemma createMessageArrays_unfold (a c : ref) (h : Heap) :
  createMessageArrays a c h =
  let n := length h in
  ([a; c; n; S n; S (S n); S (S (S n)); S (S (S (S n)))],
   heapSet (S (S (S (S n)))) 30 7
     (heapSet (S (S (S n))) 30 6
        (heapSet (S (S n)) 30 5
           (heapSet (S n) 30 4
              (heapSet n 30 3
                 (heapSet c 30 2
                    (heapSet a 30 1
                       (h ++ replicate 5 (replicate 31 0))))))))).
Proof.
  unfold createMessageArrays. cbn [seq fold_left alloc].
  rewrite !alloc_filled.
  rewrite !length_app. cbn [length app lookup list_lookup].
  rewrite <- !app_assoc. cbn [app].
  rewrite !Nat.add_1_r.
  cbn [Nat.add length seq fold_left lookup list_lookup].
  reflexivity.
Qed.

Lemma heapSet_lookup (r : ref) (i : nat) (v : Z) (h : Heap) :
  heapSet r i v h !! r = setIndex i (Some v) <$> h !! r.
Proof. unfold heapSet. apply list_lookup_alter_eq. Qed.

Lemma heapSet_lookup_ne (r r' : ref) (i : nat) (v : Z) (h : Heap) :
  r <> r' -> heapSet r i v h !! r' = h !! r'.
Proof. intros Hne. unfold heapSet. apply list_lookup_alter_ne. exact Hne. Qed.

Ltac heap_lookup :=
  repeat first
    [ rewrite heapSet_lookup_ne by lia
    | rewrite heapSet_lookup ].

(** C10, as amended. For two different 31-byte arrays of the store,
    [createMessageArrays] returns seven arrays of 31 bytes: the two
    arguments (in that order, now ending in 1 and 2) followed by five
    fresh arrays that are zero except for their last byte; the last byte
    of array [i] is [i + 1], and no other array of the store changes. *)
Theorem createMessageArrays_distinct_arrays
        (h : Heap) (donationAddress arbChainId : ref) (da dc : Uint8Array) :
  donationAddress <> arbChainId ->
  h !! donationAddress = Some da -> length da = 31%nat ->
  h !! arbChainId = Some dc -> length dc = 31%nat ->
  messageArraysSpec h donationAddress arbChainId
  /\ (createMessageArrays donationAddress arbChainId h).2 !! donationAddress
     = Some (<[30%nat := 1]> da)
  /\ (createMessageArrays donationAddress arbChainId h).2 !! arbChainId
     = Some (<[30%nat := 2]> dc)
  /\ (forall r : ref, (r < length h)%nat -> r <> donationAddress -> r <> arbChainId ->
        (createMessageArrays donationAddress arbChainId h).2 !! r = h !! r).
Proof.
  intros Hne Ha Hla Hc Hlc.
  pose proof (lookup_lt_Some _ _ _ Ha) as Halt.
  pose proof (lookup_lt_Some _ _ _ Hc) as Hclt.
  unfold messageArraysSpec. rewrite createMessageArrays_unfold. cbn zeta.
  cbn [snd].
  assert (Hfresh : forall k : nat, (k < 5)%nat ->
            (h ++ replicate 5 (replicate 31 0)) !! (length h + k)%nat
            = Some (replicate 31 0)).
  { intros k Hk. rewrite lookup_app_r by lia.
    replace (length h + k - length h)%nat with k by lia.
    apply lookup_replicate_2. exact Hk. }
  assert (Hold : forall r : ref, (r < length h)%nat ->
            (h ++ replicate 5 (replicate 31 0)) !! r = h !! r).
  { intros r Hr. apply lookup_app_l. exact Hr. }
  split; [|split; [|split]].
  - split; [reflexivity|]. split; [reflexivity|]. split; [reflexivity|]. split.
    + intros i r Hi.
      destruct i as [|[|[|[|[|[|[|i]]]]]]]; cbn in Hi; try discriminate;
        injection Hi as <-; heap_lookup.
      * rewrite Hold, Ha by lia. eexists; split; [reflexivity|].
        unfold setIndex. rewrite length_insert. split; [exact Hla|].
        apply list_lookup_insert_eq. lia.
      * rewrite Hold, Hc by lia. eexists; split; [reflexivity|].
        unfold setIndex. rewrite length_insert. split; [exact Hlc|].
        apply list_lookup_insert_eq. lia.
      * rewrite <- (Nat.add_0_r (length h)), Hfresh by lia.
        eexists; split; [reflexivity|]. split; reflexivity.
      * replace (S (length h)) with (length h + 1)%nat by lia.
        rewrite Hfresh by lia.
        eexists; split; [reflexivity|]. split; reflexivity.
      * replace (S (S (length h))) with (length h + 2)%nat by lia.
        rewrite Hfresh by lia.
        eexists; split; [reflexivity|]. split; reflexivity.
      * replace (S (S (S (length h)))) with (length h + 3)%nat by lia.
        rewrite Hfresh by lia.
        eexists; split; [reflexivity|]. split; reflexivity.
      * replace (S (S (S (S (length h))))) with (length h + 4)%nat by lia.
        rewrite Hfresh by lia.
        eexists; split; [reflexivity|]. split; reflexivity.
    + intros i r Hge Hi.
      destruct i as [|[|[|[|[|[|[|i]]]]]]]; cbn in Hi; try discriminate;
        try lia; injection Hi as <-; heap_lookup.
      * rewrite <- (Nat.add_0_r (length h)), Hfresh by lia. reflexivity.
      * replace (S (length h)) with (length h + 1)%nat by lia.
        rewrite Hfresh by lia. reflexivity.
      * replace (S (S (length h))) with (length h + 2)%nat by lia.
        rewrite Hfresh by lia. reflexivity.
      * replace (S (S (S (length h)))) with (length h + 3)%nat by lia.
        rewrite Hfresh by lia. reflexivity.
      * replace (S (S (S (S (length h))))) with (length h + 4)%nat by lia.
        rewrite Hfresh by lia. reflexivity.
  - heap_lookup. rewrite Hold, Ha by lia. reflexivity.
  - heap_lookup. rewrite Hold, Hc by lia. reflexivity.
  - intros r Hr Hra Hrc. heap_lookup. apply Hold. exact Hr.
Qed.

(** C10, counterexample. When the same array is passed for both parameters
    the last byte of element 0 ends up as 2, not 1. *)
Lemma createMessageArrays_same_array :
  oneArray !! 0%nat = Some (newUint8Array 31)
  /\ length (newUint8Array 31) = 31%nat
  /\ ~ messageArraysSpec oneArray 0%nat 0%nat.
Proof.
  split; [reflexivity|]. split; [reflexivity|].
  unfold messageArraysSpec. intros (_ & _ & _ & Hlast & _).
  destruct (Hlast 0%nat 0%nat eq_refl) as (arr & Harr & _ & H30).
  vm_compute in Harr. injection Harr as <-. vm_compute in H30. discriminate.
Qed.

Lemma createMessageArrays_distinct_arrays_witness :
  (0 <> 1)%nat
  /\ twoArrays !! 0%nat = Some (newUint8Array 31)
  /\ twoArrays !! 1%nat = Some (newUint8Array 31)
  /\ messageArraysSpec twoArrays 0%nat 1%nat.
Proof.
  split; [lia|]. split; [reflexivity|]. split; [reflexivity|].
  apply (createMessageArrays_distinct_arrays
           twoArrays 0%nat 1%nat (newUint8Array 31) (newUint8Array 31));
    [lia | reflexivity | reflexivity | reflexivity | reflexivity].
Defined.

Example createMessageArrays_two_arrays :
  createMessageArrays 0%nat 1%nat twoArrays =
  ([0; 1; 2; 3; 4; 5; 6]%nat,
   [replicate 30 0 ++ [1]; replicate 30 0 ++ [2]; replicate 30 0 ++ [3];
    replicate 30 0 ++ [4]; replicate 30 0 ++ [5]; replicate 30 0 ++ [6];
    replicate 30 0 ++ [7]]).
Proof. vm_compute. reflexivity. Qed.

Example createMessageArrays_one_array_twice :
  createMessageArrays 0%nat 0%nat oneArray =
  ([0; 0; 1; 2; 3; 4; 5]%nat,
   [replicate 30 0 ++ [2]; replicate 30 0 ++ [3]; replicate 30 0 ++ [4];
    replicate 30 0 ++ [5]; replicate 30 0 ++ [6]; replicate 30 0 ++ [7]]).
Proof. vm_compute. reflexivity. Qed.

(** ** Process lifecycle *)

Lemma cleanup_then_exit (code : Z) (m : logmsg) (w : World) :
  closeReadable w ->
  shutsDown code w ((console m >> cleanup >> (exit code : JS unit)) w).1
                   ((console m >> cleanup >> (exit code : JS unit)) w).2.
Proof.
  unfold shutsDown, closeReadable, nextAnswer.
  destruct w as [t wn [p|] [n|] f tr [|[[d|raised]|] fs]]; cbn; intros Hread;
    try (exfalso; apply (Hread raised); [eexists; reflexivity | reflexivity]);
    (split; [reflexivity|]); eexists;
    (split; [rewrite <- ?app_assoc; reflexivity|]);
    (split; [intros Hp; first [set_solver | destruct Hp; discriminate]|]);
    (split; [intros Hp Hf; first [reflexivity | destruct Hp; discriminate
                                  | discriminate]|]);
    intros e Hp Hf; first [reflexivity | destruct Hp; discriminate | discriminate].
Qed.

(** C6. A SIGINT or SIGTERM handler run calls [pxe.close()] on the PXE
    service (when one is held) and, when that call resolves or rejects with
    a value whose message can be read, exits the process with code 0, the
    service being closed when the call resolved and left as it was when it
    rejected; when [main] fails, the same cleanup runs and, under the same
    condition, the process exits with code 1. *)
Theorem termination_exit_codes :
  (forall w : World,
      closeReadable w -> shutsDown 0 w (onSIGINT w).1 (onSIGINT w).2)
  /\ (forall w : World,
      closeReadable w -> shutsDown 0 w (onSIGTERM w).1 (onSIGTERM w).2)
  /\ (forall (A : Type) (main : JS A) (w w1 : World) (e : exn),
        main w = (Throw e, w1) ->
        closeReadable w1 ->
        shutsDown 1 w1 (runMain main w).1 (runMain main w).2).
Proof.
  split; [|split].
  - intros w Hread. apply cleanup_then_exit, Hread.
  - intros w Hread. apply cleanup_then_exit, Hread.
  - intros A main w w1 e Hmain Hread.
    assert (Hrun : runMain main w
                   = (console (UnhandledError e) >> cleanup >> (exit 1 : JS unit)) w1).
    { unfold runMain, try_catch, bind at 1. rewrite Hmain. reflexivity. }
    rewrite Hrun. apply cleanup_then_exit, Hread.
Qed.

(** [main] fails after the PXE service was created. *)
Lemma termination_exit_codes_witness :
  failingMain (initialWorld None [])
  = (Throw (Raised "transaction reverted"),
     mkWorld 67 100042 (Some PxeOpen) None None [] [])
  /\ (runMain failingMain (initialWorld None [])).1 = Exit 1.
Proof.
  split; [reflexivity|].
  refine (proj1 (proj2 (proj2 termination_exit_codes) unit failingMain
                   (initialWorld None []) _ (Raised "transaction reverted")
                   eq_refl _)).
  intros raised _. discriminate.
Defined.

(** C6, counterexample. When [pxe.close()] rejects with an error, the
    handler logs it and the process exits with code 0 with the service
    still open; when it rejects with [undefined], reading the message in the
    [catch] block throws and [process.exit(0)] is not reached. *)
Lemma close_rejected_service_left_open :
  onSIGTERM busyService
  = (Exit 0,
     mkWorld 67 100042 (Some PxeOpen) (Some tt) None
             [Console ReceivedSIGTERM; Console CleaningUp; PxeCloseCalled;
              Console (ErrorDuringCleanup (Raised "busy"))] [])
  /\ ~ exitsClosed onSIGTERM busyService
  /\ (onSIGINT rejectsUndefined).1
     = Throw (Raised "TypeError: Cannot read properties of undefined (reading 'message')")
  /\ ~ exitsClosed onSIGINT rejectsUndefined.
Proof.
  split; [reflexivity|]. split; [|split; [reflexivity|]].
  - intros [_ Hclosed]. specialize (Hclosed (ex_intro _ PxeOpen eq_refl)).
    vm_compute in Hclosed. discriminate.
  - intros [Hexit _]. vm_compute in Hexit. discriminate.
Qed.

Example onSIGINT_closes_pxe :
  onSIGINT (mkWorld 67 100042 (Some PxeOpen) (Some tt) None [] []) =
  (Exit 0,
   mkWorld 67 100042 (Some PxeClosed) None None
           [Console ReceivedSIGINT; Console CleaningUp; PxeCloseCalled;
            Console PxeServiceClosed; Console NodeClientCleanedUp] []).
Proof. vm_compute. reflexivity. Qed.

(** A failing [main] whose cleanup meets a rejection with [null]: the
    handler of [main().catch] throws in its turn. *)
Example runMain_close_rejects_null :
  (runMain failingMain (initialWorld None [Some nullValue])).1
  = Throw (Raised "TypeError: Cannot read properties of null (reading 'message')").
Proof. vm_compute. reflexivity. Qed.

End SendMessageProofs.
(** * Properties of the EVM chain client *)

Module EVMClientProofs.

Import ABI EVMClient.

(** The Keccak-256 model against two published values: the hash of the
    empty string and the selector of [transfer(address,uint256)]. *)
Example keccak256_empty :
  Hex (Keccak.keccak256 [])
  = "0xc5d2460186f7233c927e7db2dcc703c0e500b653ca82273b7bfad8045d85a470".
Proof. vm_compute. reflexivity. Qed.

Example keccak256_transfer_selector :
  take 4 (Keccak.keccak256 (bytesOfString "transfer(address,uint256)"))
  = [0xa9; 0x05; 0x9c; 0xbb].
Proof. vm_compute. reflexivity. Qed.

Lemma verify_methodID : methodID verifyMethod = [0x8e; 0x76; 0x0a; 0xfe].
Proof. vm_compute. reflexivity. Qed.

Lemma rightPadBytes_padding (b : bytes) :
  rightPadBytes b ((length b + 31) / 32 * 32)%nat
  = b ++ replicate (padding (length b)) 0.
Proof.
  unfold rightPadBytes, padding.
  pose proof (Nat.div_mod_eq (length b) 32) as Hdm.
  pose proof (Nat.mod_upper_bound (length b) 32 ltac:(lia)) as Hub.
  set (q := (length b / 32)%nat) in *. set (m := (length b mod 32)%nat) in *.
  destruct (Nat.eq_dec m 0%nat) as [Hm|Hm].
  - rewrite Hm in *. 
    replace ((length b + 31) / 32)%nat with q.
    2:{ apply (Nat.div_unique _ 32 q 31); lia. }
    replace (q * 32 <=? length b)%nat with true by (symmetry; apply Nat.leb_le; lia).
    cbn. rewrite app_nil_r. reflexivity.
  - replace ((length b + 31) / 32)%nat with (S q).
    2:{ apply (Nat.div_unique _ 32 (S q) (m - 1)); lia. }
    replace (S q * 32 <=? length b)%nat with false by (symmetry; apply Nat.leb_gt; lia).
    rewrite (Nat.mod_small (32 - m) 32) by lia.
    f_equal. f_equal. lia.
Qed.

Lemma packArguments_bytes (name : string) (b : bytes) :
  packArguments [mkArgument name BytesTy] [GoBytes b]
  = inr (packNum 32 ++ packBytesSlice b).
Proof. reflexivity. Qed.

(** [Pack] never fails on one byte-string argument. *)
Lemma Pack_verify (vaaBytes : bytes) :
  Pack abiJSON "verify" [GoBytes vaaBytes] = inr (verifyCallData vaaBytes).
Proof.
  unfold Pack.
  change (find (fun m => String.eqb (methodName m) "verify") abiJSON)
    with (Some verifyMethod).
  cbv beta iota.
  change (methodInputs verifyMethod) with [mkArgument "encodedVm" BytesTy].
  rewrite packArguments_bytes, verify_methodID.
  unfold verifyCallData, packBytesSlice.
  rewrite rightPadBytes_padding. reflexivity.
Qed.

Lemma length_packNum (n : Z) : length (packNum n) = 32%nat.
Proof. unfold packNum. rewrite length_map, length_seq. reflexivity. Qed.

(** The payload sits, unchanged, right after the 68 bytes of selector,
    offset and length. *)
Lemma verifyCallData_payload (encodedVm : bytes) :
  take (length encodedVm) (drop 68 (verifyCallData encodedVm)) = encodedVm.
Proof.
  unfold verifyCallData.
  rewrite (app_assoc (packNum 32)), (app_assoc [_; _; _; _]).
  rewrite drop_app_length'.
  - apply take_app_length.
  - rewrite !length_app, !length_packNum. reflexivity.
Qed.

Lemma Hex_nonempty (h : Hash) : Hex h <> "".
Proof. unfold Hex. cbn. discriminate. Qed.

Section Results.

Variable HexToAddress : string -> Address.
Variable ecdsaSign : Transaction -> Z -> Z -> error + (Z * Z * Z).
Variable txHash : SignedTransaction -> Hash.

Lemma SendVerifyTransaction_cases (c : EVMClient) (targetContract : string)
      (vaaBytes : bytes) :
  let res := SendVerifyTransaction HexToAddress ecdsaSign txHash
                                   c targetContract vaaBytes in
  (exists signedTx,
      stepsSucceed HexToAddress ecdsaSign c targetContract vaaBytes signedTx
      /\ res = ((Hex (txHash signedTx), None), [signedTx]))
  \/ (exists e,
        someStepFails HexToAddress ecdsaSign c targetContract vaaBytes
        /\ res.1 = ("", Some e)
        /\ (res.2 = []
            \/ exists nonce gasPrice v r s,
                 res.2 = [mkSigned (verifyTx HexToAddress targetContract vaaBytes nonce gasPrice)
                                   v r s])).
Proof.
  cbv zeta. unfold SendVerifyTransaction, parseABI. rewrite Pack_verify.
  unfold someStepFails, stepsSucceed.
  destruct (PendingNonceAt (client c) (address c)) as [e|nonce] eqn:Hnonce.
  { right. eexists. split; [eauto|]. split; [reflexivity|]. left. reflexivity. }
  destruct (SuggestGasPrice (client c)) as [e|gasPrice] eqn:Hgas.
  { right. eexists. split; [eauto|]. split; [reflexivity|]. left. reflexivity. }
  cbv zeta.
  destruct (NetworkID (client c)) as [e|chainID] eqn:Hchain.
  { right. eexists. split; [eauto 6|]. split; [reflexivity|]. left. reflexivity. }
  unfold SignTx, NewTransaction.
  fold (verifyTx HexToAddress targetContract vaaBytes nonce gasPrice).
  destruct (ecdsaSign (verifyTx HexToAddress targetContract vaaBytes nonce gasPrice)
                      chainID (privateKey c)) as [e|[[v r] s]] eqn:Hsign.
  { right. eexists. split; [|split; [reflexivity|left; reflexivity]].
    right. right. right. left. eauto. }
  destruct (SendTransaction (client c) _) as [e|] eqn:Hsend.
  { right. eexists. split; [|split; [reflexivity|right; eauto 6]].
    right. right. right. right. eauto 8. }
  left. eexists. split; [|reflexivity].
  exists nonce, gasPrice, chainID, v, r, s. auto 7.
Qed.

(** C2. A call of [SendVerifyTransaction] ends in one of two ways: all
    five steps succeed and it returns the non-empty hexadecimal hash of
    the signed transaction with a nil error, or a step fails and it
    returns the empty string with a non-nil error. It never returns a
    non-empty identifier together with an error. *)
Theorem SendVerifyTransaction_result_shape (c : EVMClient)
        (targetContract : string) (vaaBytes : bytes) :
  let res := SendVerifyTransaction HexToAddress ecdsaSign txHash
                                   c targetContract vaaBytes in
  ((exists signedTx,
       stepsSucceed HexToAddress ecdsaSign c targetContract vaaBytes signedTx
       /\ res.1 = (Hex (txHash signedTx), None)
       /\ res.1.1 <> "")
   \/ (exists e,
         someStepFails HexToAddress ecdsaSign c targetContract vaaBytes
         /\ res.1 = ("", Some e)))
  /\ ~ (res.1.1 <> "" /\ res.1.2 <> None).
Proof.
  cbv zeta.
  destruct (SendVerifyTransaction_cases c targetContract vaaBytes)
    as [(signedTx & Hok & Hres)|(e & Hfail & Hres & _)]; rewrite Hres.
  - split.
    + left. exists signedTx. split; [exact Hok|]. split; [reflexivity|].
      apply Hex_nonempty.
    + cbn. intros [_ Hne]. apply Hne. reflexivity.
  - split.
    + right. exists e. split; [exact Hfail | reflexivity].
    + cbn. intros [Hne _]. apply Hne. reflexivity.
Qed.

(** C7. The call data the client submits is the ABI encoding of
    [verify(encodedVm)] with the payload bytes in place, whatever the
    payload is. Whenever the node gives the nonce, the gas price and the
    chain id and the signing succeeds, the client hands exactly one
    transaction to the node, and it is the signed transaction whose data
    is that encoding; every transaction handed to the node, in any run,
    carries exactly that data, zero value, and the target contract as
    recipient. *)
Theorem payload_forwarded_unmodified (c : EVMClient)
        (targetContract : string) (vaaBytes : bytes) :
  let res := SendVerifyTransaction HexToAddress ecdsaSign txHash
                                   c targetContract vaaBytes in
  Pack abiJSON "verify" [GoBytes vaaBytes] = inr (verifyCallData vaaBytes)
  /\ take (length vaaBytes) (drop 68 (verifyCallData vaaBytes)) = vaaBytes
  /\ Forall (fun signedTx =>
               txData (inner signedTx) = verifyCallData vaaBytes
               /\ txValue (inner signedTx) = 0
               /\ txTo (inner signedTx) = HexToAddress targetContract)
            res.2
  /\ match res.1.2 with
     | None => length res.2 = 1%nat
     | Some _ => (length res.2 <= 1)%nat
     end
  /\ (forall (nonce gasPrice chainID v r s : Z),
        PendingNonceAt (client c) (address c) = inr nonce ->
        SuggestGasPrice (client c) = inr gasPrice ->
        NetworkID (client c) = inr chainID ->
        ecdsaSign (verifyTx HexToAddress targetContract vaaBytes nonce gasPrice)
                  chainID (privateKey c) = inr (v, r, s) ->
        res.2 = [mkSigned (verifyTx HexToAddress targetContract vaaBytes
                                    nonce gasPrice) v r s]
        /\ txData (verifyTx HexToAddress targetContract vaaBytes nonce gasPrice)
           = verifyCallData vaaBytes
        /\ txValue (verifyTx HexToAddress targetContract vaaBytes nonce gasPrice)
           = 0).
Proof.
  cbv zeta. split; [apply Pack_verify|]. split; [apply verifyCallData_payload|].
  assert (Hsent : forall (nonce gasPrice chainID v r s : Z),
             PendingNonceAt (client c) (address c) = inr nonce ->
             SuggestGasPrice (client c) = inr gasPrice ->
             NetworkID (client c) = inr chainID ->
             ecdsaSign (verifyTx HexToAddress targetContract vaaBytes nonce gasPrice)
                       chainID (privateKey c) = inr (v, r, s) ->
             (SendVerifyTransaction HexToAddress ecdsaSign txHash
                                    c targetContract vaaBytes).2
             = [mkSigned (verifyTx HexToAddress targetContract vaaBytes
                                   nonce gasPrice) v r s]).
  { intros nonce gasPrice chainID v r s Hnonce Hgas Hchain Hsign.
    unfold SendVerifyTransaction, parseABI. rewrite Pack_verify, Hnonce, Hgas.
    cbv zeta. rewrite Hchain. unfold SignTx, NewTransaction.
    fold (verifyTx HexToAddress targetContract vaaBytes nonce gasPrice).
    rewrite Hsign.
    destruct (SendTransaction (client c) _); reflexivity. }
  destruct (SendVerifyTransaction_cases c targetContract vaaBytes)
    as [(signedTx & Hok & Hres)|(e & Hfail & Hres & Hsent')].
  - rewrite Hres. cbn [fst snd].
    destruct Hok as (nonce & gasPrice & chainID & v & r & s & _ & _ & _ & _ & -> & _).
    split; [repeat constructor|]. split; [reflexivity|].
    intros nonce' gasPrice' chainID' v' r' s' Hn Hg Hc Hs.
    rewrite <- (Hsent _ _ _ _ _ _ Hn Hg Hc Hs), Hres. auto.
  - rewrite Hres. cbn [fst snd].
    destruct Hsent' as [Hnil|(nonce & gasPrice & v & r & s & Hone)].
    + rewrite Hnil. split; [constructor|]. split; [cbn; lia|].
      intros nonce' gasPrice' chainID' v' r' s' Hn Hg Hc Hs.
      rewrite <- (Hsent _ _ _ _ _ _ Hn Hg Hc Hs), Hnil. auto.
    + rewrite Hone. split; [repeat constructor|]. split; [cbn; lia|].
      intros nonce' gasPrice' chainID' v' r' s' Hn Hg Hc Hs.
      rewrite <- (Hsent _ _ _ _ _ _ Hn Hg Hc Hs), Hone. auto.
Qed.

End Results.


Example SendVerifyTransaction_success :
  SendVerifyTransaction (fun _ => [0xaa]) (fun _ _ _ => inr (27, 1, 2))
                        (fun _ => [0xab; 0xcd])
                        (mkEVMClient quietNode 1 [0x01]) "0xaa" [1; 2; 3]
  = (("0xabcd", None),
     [mkSigned (mkTransaction 7 [0xaa] 0 3000000 1000000000
                              (verifyCallData [1; 2; 3])) 27 1 2]).
Proof. vm_compute. reflexivity. Qed.

Example SendVerifyTransaction_nonce_failure :
  SendVerifyTransaction (fun _ => [0xaa]) (fun _ _ _ => inr (27, 1, 2))
                        (fun _ => [0xab; 0xcd])
                        (mkEVMClient downNode 1 [0x01]) "0xaa" [1; 2; 3]
  = (("", Some "failed to get nonce: connection refused"), []).
Proof. vm_compute. reflexivity. Qed.

End EVMClientProofs.
(** * Properties of the relayer pipeline *)

Module RelayerProofs.

Import Relayer.

(** ** Relevance Filter *)

Lemma routeMatches_iff (a : Attestation) (r : Route) :
  routeMatches a r = true
  <-> originChain a = routeOriginChain r /\ originEmitter a = routeOriginEmitter r.
Proof.
  unfold routeMatches. rewrite andb_true_iff, Z.eqb_eq, bool_decide_eq_true.
  reflexivity.
Qed.

Lemma isRelevant_Some (a : Attestation) (routeTable : list Route) (r : Route) :
  isRelevant a routeTable = Some r ->
  In r routeTable
  /\ originChain a = routeOriginChain r
  /\ originEmitter a = routeOriginEmitter r.
Proof.
  unfold isRelevant. intros Hfind. apply find_some in Hfind as [Hin Hm].
  apply routeMatches_iff in Hm. tauto.
Qed.

Lemma isRelevant_None (a : Attestation) (routeTable : list Route) :
  isRelevant a routeTable = None
  <-> forall r, In r routeTable ->
        ~ (originChain a = routeOriginChain r
           /\ originEmitter a = routeOriginEmitter r).
Proof.
  unfold isRelevant. split.
  - intros Hnone r Hin Hpair. apply routeMatches_iff in Hpair.
    pose proof (find_none _ _ Hnone r Hin) as Hf. congruence.
  - intros Hno. destruct (find (routeMatches a) routeTable) as [r|] eqn:Hfind;
      [|reflexivity].
    apply find_some in Hfind as [Hin Hm]. apply routeMatches_iff in Hm.
    exfalso. exact (Hno r Hin Hm).
Qed.

Lemma deployed_relevant (vault : string) (a : Attestation) :
  is_Some (isRelevant a (deployedRoutes vault))
  <-> originChain a = 52 /\ originEmitter a = emitterAddress.
Proof.
  unfold deployedRoutes, registerEmitter, isRelevant. cbn [app find].
  destruct (routeMatches a _) eqn:Hm.
  - apply routeMatches_iff in Hm. cbn in Hm. split; [tauto | eauto].
  - split.
    + intros [r Hr]. discriminate.
    + intros Hpair. assert (Ht : routeMatches a
                (mkRoute emitterChainId emitterAddress chainId vault) = true)
        by (apply routeMatches_iff; exact Hpair).
      congruence.
Qed.

Section Pipeline.

Context {C : Type} `{ChainClient C}.
Variable eligibleForRetry : ProcessingRecord -> bool.
Variable policy : Policy.

(** C5. A route is selected only when the attestation's origin chain
    and origin emitter both equal the route's, and an attestation with
    no such route is dropped: the ledger gets no record and the client
    is not called. With the table that [DeployVault.run] registers, the
    attestations that pass are those of chain 52 with the registered
    emitter; one from chain 99 is dropped. *)
Theorem relevance_is_exact_match :
  (forall a routeTable r,
      isRelevant a routeTable = Some r ->
      In r routeTable
      /\ originChain a = routeOriginChain r
      /\ originEmitter a = routeOriginEmitter r)
  /\ (forall a routeTable,
        isRelevant a routeTable = None
        <-> forall r, In r routeTable ->
              ~ (originChain a = routeOriginChain r
                 /\ originEmitter a = routeOriginEmitter r))
  /\ (forall vault a,
        is_Some (isRelevant a (deployedRoutes vault))
        <-> originChain a = 52 /\ originEmitter a = emitterAddress)
  /\ (forall a routeTable ledger (c : C),
        isRelevant a routeTable = None ->
        processAttestation eligibleForRetry policy routeTable a ledger c
        = (ledger, c, [LogNoRoute (identity a)]))
  /\ (forall vault a ledger (c : C),
        originChain a = 99 ->
        processAttestation eligibleForRetry policy (deployedRoutes vault) a ledger c
        = (ledger, c, [LogNoRoute (identity a)])).
Proof.
  split; [exact isRelevant_Some|]. split; [exact isRelevant_None|].
  split; [exact deployed_relevant|].
  assert (Hdrop : forall a routeTable ledger (c : C),
             isRelevant a routeTable = None ->
             processAttestation eligibleForRetry policy routeTable a ledger c
             = (ledger, c, [LogNoRoute (identity a)])).
  { intros a routeTable ledger c Hnone. unfold processAttestation.
    rewrite Hnone. reflexivity. }
  split; [exact Hdrop|].
  intros vault a ledger c H99. apply Hdrop.
  destruct (isRelevant a (deployedRoutes vault)) as [r|] eqn:Hrel; [|reflexivity].
  assert (Hsome : is_Some (isRelevant a (deployedRoutes vault))) by eauto.
  apply deployed_relevant in Hsome as [H52 _]. lia.
Qed.

End Pipeline.

(** An attestation from chain 99 meets the deployed table. *)
Lemma relevance_is_exact_match_witness :
  originChain strayAttestation = 99
  /\ processAttestation neverRetry samplePolicy (deployedRoutes "vault")
                        strayAttestation confirmedLedger 0%nat
     = (confirmedLedger, 0%nat, [LogNoRoute (identity strayAttestation)]).
Proof.
  split; [reflexivity|].
  apply (proj2 (proj2 (proj2 (proj2
           (relevance_is_exact_match (C := nat) neverRetry samplePolicy))))
           "vault" strayAttestation confirmedLedger 0%nat).
  reflexivity.
Defined.

(** A prefix of the registered emitter is not the registered emitter. *)
Example emitter_prefix_not_relevant :
  isRelevant (mkAttestation 52 (take 31 emitterAddress) 100 [] [])
             (deployedRoutes "vault") = None.
Proof. vm_compute. reflexivity. Qed.

Example registered_emitter_relevant :
  isRelevant sampleAttestation (deployedRoutes "vault") = Some sampleRoute.
Proof. vm_compute. reflexivity. Qed.

(** ** Dedup Ledger and Dispatcher *)

Lemma tryBegin_handled (eligible : ProcessingRecord -> bool) (id : Identity)
      (ledger : gmap Identity ProcessingRecord) (r : ProcessingRecord) :
  ledger !! id = Some r -> handled r ->
  tryBegin eligible id ledger = (false, ledger).
Proof.
  intros Hr [Hs|Hs]; unfold tryBegin; rewrite Hr, Hs; reflexivity.
Qed.

Lemma tryBegin_other (eligible : ProcessingRecord -> bool) (id id' : Identity)
      (ledger : gmap Identity ProcessingRecord) :
  id <> id' -> (tryBegin eligible id ledger).2 !! id' = ledger !! id'.
Proof.
  intros Hne. unfold tryBegin.
  destruct (ledger !! id) as [r|]; [destruct (recStatus r)|]; cbn;
    try destruct (eligible r); cbn;
    rewrite ?lookup_insert_ne by exact Hne; reflexivity.
Qed.

Lemma commit_other (id id' : Identity) (o : Outcome)
      (ledger : gmap Identity ProcessingRecord) :
  id <> id' -> commit id o ledger !! id' = ledger !! id'.
Proof.
  intros Hne. unfold commit.
  destruct (ledger !! id) as [r|]; [destruct (recStatus r), o|]; cbn;
    rewrite ?lookup_insert_ne by exact Hne; reflexivity.
Qed.

Lemma restart_confirmed (ledger : gmap Identity ProcessingRecord)
      (id : Identity) (r : ProcessingRecord) :
  ledger !! id = Some r -> recStatus r = Confirmed ->
  restart ledger !! id = Some r.
Proof.
  intros Hr Hs. unfold restart. rewrite lookup_fmap, Hr. cbn. rewrite Hs.
  reflexivity.
Qed.

Lemma submissions_app (l1 l2 : list LogEntry) :
  submissions (l1 ++ l2) = submissions l1 ++ submissions l2.
Proof. unfold submissions. apply omap_app. Qed.

Lemma submissions_controller (id : Identity) (d : Z) (evs : list ControllerEvent) :
  Forall (fun s => s.1.1.1 = id) (submissions (map (LogController id d) evs)).
Proof.
  induction evs as [|[n p r|delay] evs IH]; cbn.
  - constructor.
  - constructor; [reflexivity | exact IH].
  - exact IH.
Qed.

Section Idempotence.

Context {C : Type} `{ChainClient C}.
Variable eligibleForRetry : ProcessingRecord -> bool.
Variable policy : Policy.

Lemma dispatch_handled (a : Attestation) (route : Route)
      (ledger : gmap Identity ProcessingRecord) (c : C) (r : ProcessingRecord) :
  ledger !! identity a = Some r -> handled r ->
  dispatch eligibleForRetry policy a route ledger c
  = (ledger, c, [LogAlreadyProcessing (identity a)]).
Proof.
  intros Hr Hh. unfold dispatch.
  rewrite (tryBegin_handled _ _ _ _ Hr Hh). reflexivity.
Qed.

(** A delivery leaves the record of any other identity alone and only
    submits for its own identity. *)
Lemma processAttestation_other (routeTable : list Route) (a : Attestation)
      (ledger : gmap Identity ProcessingRecord) (c : C) (id : Identity) :
  identity a <> id ->
  (processAttestation eligibleForRetry policy routeTable a ledger c).1.1 !! id
  = ledger !! id
  /\ Forall (fun s => s.1.1.1 <> id)
            (submissions
               (processAttestation eligibleForRetry policy routeTable a ledger c).2).
Proof.
  intros Hne. unfold processAttestation.
  destruct (isRelevant a routeTable) as [route|]; cbn; [|split; [reflexivity|constructor]].
  unfold dispatch.
  pose proof (tryBegin_other eligibleForRetry (identity a) id ledger Hne) as Hbegin.
  destruct (tryBegin eligibleForRetry (identity a) ledger) as [[|] ledger1]; cbn in *.
  - destruct (execute policy (destinationContext route) (payload a) c)
      as [[o evs] c1]. cbn. split.
    + rewrite commit_other by exact Hne. exact Hbegin.
    + eapply Forall_impl; [apply submissions_controller|].
      cbn. intros s Hs. congruence.
  - split; [reflexivity|constructor].
Qed.

(** C1. The ledger answers false for an identity whose record is
    in-flight or confirmed, and the dispatcher then drops the delivery
    without calling the client. Once an identity is confirmed it stays
    so over any later deliveries and restarts, and none of them submits
    for that identity again. *)
Theorem confirmed_identity_not_resubmitted :
  (forall id ledger r,
      ledger !! id = Some r -> handled r ->
      tryBegin eligibleForRetry id ledger = (false, ledger))
  /\ (forall a route ledger (c : C) r,
        ledger !! identity a = Some r -> handled r ->
        dispatch eligibleForRetry policy a route ledger c
        = (ledger, c, [LogAlreadyProcessing (identity a)]))
  /\ (forall routeTable steps id ledger (c : C) r,
        ledger !! id = Some r -> recStatus r = Confirmed ->
        (run eligibleForRetry policy routeTable steps ledger c).1.1 !! id = Some r
        /\ Forall (fun s => s.1.1.1 <> id)
             (submissions (run eligibleForRetry policy routeTable steps ledger c).2)).
Proof.
  split; [intros; eapply tryBegin_handled; eassumption|].
  split; [intros; eapply dispatch_handled; eassumption|].
  intros routeTable steps id. induction steps as [|[a|] steps IH];
    intros ledger c r Hr Hs.
  - cbn. split; [exact Hr | constructor].
  - cbn [run].
    destruct (decide (identity a = id)) as [Heq|Hne].
    + assert (Hsame : processAttestation eligibleForRetry policy routeTable a ledger c
                      = (ledger, c, [LogNoRoute (identity a)])
                      \/ processAttestation eligibleForRetry policy routeTable a ledger c
                         = (ledger, c, [LogAlreadyProcessing (identity a)])).
      { unfold processAttestation.
        destruct (isRelevant a routeTable) as [route|]; [right | left; reflexivity].
        apply (dispatch_handled a route ledger c r); [rewrite Heq; exact Hr|].
        right. exact Hs. }
      specialize (IH ledger c r Hr Hs).
      destruct Hsame as [-> | ->];
        destruct (run eligibleForRetry policy routeTable steps ledger c)
          as [[ledger2 c2] log2]; cbn in *; exact IH.
    + pose proof (processAttestation_other routeTable a ledger c id Hne)
        as [Hkeep Hlog].
      destruct (processAttestation eligibleForRetry policy routeTable a ledger c)
        as [[ledger1 c1] log1]. cbn in Hkeep, Hlog.
      specialize (IH ledger1 c1 r ltac:(rewrite Hkeep; exact Hr) Hs).
      destruct (run eligibleForRetry policy routeTable steps ledger1 c1)
        as [[ledger2 c2] log2]. cbn in *.
      destruct IH as [IHr IHlog]. split; [exact IHr|].
      rewrite submissions_app. apply Forall_app. split; assumption.
  - cbn [run]. apply IH; [apply restart_confirmed; assumption | exact Hs].
Qed.

End Idempotence.

(** The confirmed sample attestation is delivered again, the relayer
    restarts, and the attestation is delivered once more. *)
Lemma confirmed_identity_not_resubmitted_witness :
  confirmedLedger !! identity sampleAttestation = Some confirmedRecord
  /\ recStatus confirmedRecord = Confirmed
  /\ (run neverRetry samplePolicy (deployedRoutes "vault")
          [Deliver sampleAttestation; Restart; Deliver sampleAttestation]
          confirmedLedger ([] : list Path)).1.1 !! identity sampleAttestation
     = Some confirmedRecord
  /\ Forall (fun s => s.1.1.1 <> identity sampleAttestation)
       (submissions
          (run neverRetry samplePolicy (deployedRoutes "vault")
               [Deliver sampleAttestation; Restart; Deliver sampleAttestation]
               confirmedLedger ([] : list Path)).2).
Proof.
  split; [reflexivity|]. split; [reflexivity|].
  exact (proj2 (proj2 (confirmed_identity_not_resubmitted (C := list Path)
                         neverRetry samplePolicy))
               (deployedRoutes "vault")
               [Deliver sampleAttestation; Restart; Deliver sampleAttestation]
               (identity sampleAttestation) confirmedLedger [] confirmedRecord
               eq_refl eq_refl).
Defined.

(** The client is not called at all in that run. *)
Example redelivery_makes_no_call :
  (run neverRetry samplePolicy (deployedRoutes "vault")
       [Deliver sampleAttestation; Restart; Deliver sampleAttestation]
       confirmedLedger ([] : list Path)).1.2 = [].
Proof. vm_compute. reflexivity. Qed.

(** A first delivery, by contrast, submits and ends confirmed. *)
Example first_delivery_submits :
  submissions
    (run neverRetry samplePolicy (deployedRoutes "vault")
         [Deliver sampleAttestation; Deliver sampleAttestation]
         ∅ ([] : list Path)).2
  = [(identity sampleAttestation, 10003, 1%nat, Primary);
     (identity sampleAttestation, 10003, 2%nat, Secondary)].
Proof. vm_compute. reflexivity. Qed.

(** ** Retry/Failover Controller *)

Lemma attempts_attempt (n : nat) (p : Path) (r : SubmitResult)
      (evs : list ControllerEvent) :
  attempts (EvAttempt n p r :: evs) = (n, p, r) :: attempts evs.
Proof. reflexivity. Qed.

Lemma attempts_backoff (d : Z) (evs : list ControllerEvent) :
  attempts (EvBackoff d :: evs) = attempts evs.
Proof. reflexivity. Qed.

Lemma attempts_maybe_backoff (budget : nat) (d : Z) (evs : list ControllerEvent) :
  attempts (match budget with
            | O => evs
            | S _ => EvBackoff d :: evs
            end) = attempts evs.
Proof. destruct budget; reflexivity. Qed.

Section Failover.

Context {C : Type} `{ChainClient C}.
Variable policy : Policy.
Variable context : string.
Variable payload_ : bytes.






End Failover.

Section Controller.

Context {C : Type} `{ChainClient C}.
Variable eligibleForRetry : ProcessingRecord -> bool.
Variable policy : Policy.

Lemma attemptLoop_transient (context : string) (payload_ : bytes) :
  alwaysTransientFor context payload_ ->
  forall (budget attemptNo : nat) (path : Path) (lastError : option error) (c : C),
    exhausts budget attemptNo path
             (attemptLoop policy context payload_ budget attemptNo path lastError c).
Proof.
  intros Htr. unfold exhausts.
  induction budget as [|budget IH]; intros attemptNo path lastError c.
  - cbn. split; [reflexivity|]. split; [constructor|].
    exists lastError. f_equal; lia.
  - cbn [attemptLoop].
    destruct (Htr c path) as (e & c1 & ->).
    specialize (IH (S attemptNo) path (Some e) c1).
    destruct (attemptLoop policy context payload_ budget (S attemptNo) path (Some e) c1)
      as [[o evs] c2]. cbn [fst snd] in *.
    destruct IH as (IHnum & IHall & e' & ->).
    rewrite attempts_attempt, attempts_maybe_backoff.
    cbn [map seq fst snd]. split; [f_equal; exact IHnum|].
    split; [constructor; [eauto | exact IHall]|].
    exists e'. f_equal. lia.
Qed.

(** C4. Against a client whose every call fails with a Transient error
    the controller makes exactly [maxAttempts] attempts, numbered 1 to
    [maxAttempts], and then reports failed-permanent; the dispatcher
    records the identity as failed-permanent. *)
Theorem transient_client_exhausts_budget (a : Attestation) (route : Route)
        (ledger : gmap Identity ProcessingRecord) (c : C) :
  alwaysTransientFor (destinationContext route) (payload a) ->
  ledger !! identity a = None ->
  let res := execute policy (destinationContext route) (payload a) c in
  length (attempts res.1.2) = maxAttempts policy
  /\ exhausts (maxAttempts policy) 1 Primary res
  /\ (exists e, res.1.1 = OutFailed e (maxAttempts policy))
  /\ exists r,
       (dispatch eligibleForRetry policy a route ledger c).1.1 !! identity a = Some r
       /\ recStatus r = FailedPermanent
       /\ recAttempts r = maxAttempts policy.
Proof.
  intros Htr Hfresh. cbv zeta.
  pose proof (attemptLoop_transient _ _ Htr (maxAttempts policy) 1 Primary None c)
    as Hex.
  fold (execute policy (destinationContext route) (payload a) c) in Hex.
  unfold dispatch, tryBegin. rewrite Hfresh.
  destruct (execute policy (destinationContext route) (payload a) c)
    as [[o evs] c1] eqn:Hexec.
  pose proof Hex as (Hnum & Hall & e & Ho). cbn [fst snd] in *.
  split.
  { apply (f_equal length) in Hnum. rewrite !length_map, length_seq in Hnum.
    exact Hnum. }
  split; [exact Hex|].
  replace (1 + maxAttempts policy - 1)%nat with (maxAttempts policy) in Ho by lia.
  split; [eauto|].
  subst o. unfold commit. rewrite lookup_insert_eq. cbn.
  eexists. rewrite lookup_insert_eq. split; [reflexivity|]. split; reflexivity.
Qed.


End Controller.

(** The client that always times out, with a budget of three attempts. *)
Lemma transient_client_exhausts_budget_witness :
  alwaysTransientFor (C := nat) (destinationContext sampleRoute)
                     (payload sampleAttestation)
  /\ (∅ : gmap Identity ProcessingRecord) !! identity sampleAttestation = None
  /\ length (attempts
               (execute samplePolicy (destinationContext sampleRoute)
                        (payload sampleAttestation) 0%nat).1.2) = 3%nat.
Proof.
  assert (Htr : alwaysTransientFor (C := nat) (destinationContext sampleRoute)
                                   (payload sampleAttestation))
    by (intros c p; eexists _, _; reflexivity).
  split; [exact Htr|]. split; [reflexivity|].
  exact (proj1 (transient_client_exhausts_budget neverRetry samplePolicy
                  sampleAttestation sampleRoute ∅ 0%nat Htr eq_refl)).
Defined.



(** With a budget of one attempt the failover has no attempt left. *)
Example single_attempt_budget_no_failover :
  execute (mkPolicy 1 100) "vault" [1; 2; 3] ([] : list Path)
  = (OutFailed (Some "verification service failed") 1,
     [EvAttempt 1 Primary (Failed ServiceUnavailable "verification service failed")],
     [Primary]).
Proof. vm_compute. reflexivity. Qed.

Example transient_three_attempts :
  execute samplePolicy "vault" [1; 2; 3] 0%nat
  = (OutFailed (Some "timeout") 3,
     [EvAttempt 1 Primary (Failed Transient "timeout"); EvBackoff 100;
      EvAttempt 2 Primary (Failed Transient "timeout"); EvBackoff 200;
      EvAttempt 3 Primary (Failed Transient "timeout")],
     3%nat).
Proof. vm_compute. reflexivity. Qed.

End RelayerProofs.

(** * Further properties of send-message.mjs *)

Module SendMessageHelpersProofs.

Import SendMessage SendMessageHelpers SendMessageProofs.

(** ** [chainIdToUint8Array] *)

Lemma ToInt32_mod (n : Z) : ToInt32 n mod 65536 = n mod 65536.
Proof.
  unfold ToInt32.
  change (2 ^ 31) with 2147483648. change (2 ^ 32) with 4294967296.
  pose proof (Z.div_mod (n + 2147483648) 4294967296 ltac:(lia)) as Hdm.
  replace ((n + 2147483648) mod 4294967296 - 2147483648)
    with (n + (- (65536 * ((n + 2147483648) / 4294967296))) * 65536) by lia.
  apply Z.mod_add. lia.
Qed.

Lemma low_bytes (t : Z) :
  Z.land t 255 mod 256 + 256 * (Z.land (Z.shiftr t 8) 255 mod 256) = t mod 65536.
Proof.
  change 255 with (Z.ones 8). rewrite !Z.land_ones by lia.
  rewrite Z.shiftr_div_pow2 by lia. change (2 ^ 8) with 256.
  rewrite !Z.mod_mod by lia.
  pose proof (Z.div_mod t 256 ltac:(lia)) as H1.
  pose proof (Z.div_mod (t / 256) 256 ltac:(lia)) as H2.
  pose proof (Z.mod_pos_bound t 256 ltac:(lia)) as B1.
  pose proof (Z.mod_pos_bound (t / 256) 256 ltac:(lia)) as B2.
  apply (Z.mod_unique_pos _ _ (t / 256 / 256)); lia.
Qed.

Lemma chainIdToUint8Array_form (chainId : Z) :
  chainIdToUint8Array chainId
  = [Z.land (ToInt32 chainId) 255 mod 256;
     Z.land (Z.shiftr (ToInt32 chainId) 8) 255 mod 256] ++ replicate 28 0 ++ [2].
Proof. reflexivity. Qed.

Lemma chainIdToUint8Array_small (chainId : Z) :
  0 <= chainId < 65536 ->
  chainIdToUint8Array chainId
  = [chainId mod 256; chainId / 256] ++ replicate 28 0 ++ [2].
Proof.
  intros Hc. rewrite chainIdToUint8Array_form.
  assert (Ht : ToInt32 chainId = chainId).
  { unfold ToInt32. change (2 ^ 31) with 2147483648. change (2 ^ 32) with 4294967296.
    rewrite Z.mod_small by lia. lia. }
  rewrite Ht. change 255 with (Z.ones 8). rewrite !Z.land_ones by lia.
  rewrite Z.shiftr_div_pow2 by lia. change (2 ^ 8) with 256.
  rewrite !Z.mod_mod by lia.
  assert (chainId / 256 < 256) by (apply Z.div_lt_upper_bound; lia).
  assert (0 <= chainId / 256) by (apply Z.div_pos; lia).
  rewrite (Z.mod_small (chainId / 256)) by lia. reflexivity.
Qed.

(** X1. [chainIdToUint8Array] returns 31 bytes: the low and the high byte of
    the chain id (little-endian), 28 zero bytes, and a final 2. The two
    bytes spell the chain id modulo 65536, so a chain id below 65536 can be
    read back and a larger one loses its upper bits. *)
Theorem chainIdToUint8Array_little_endian (chainId : Z) :
  exists lo hi : Z,
    chainIdToUint8Array chainId = [lo; hi] ++ replicate 28 0 ++ [2]
    /\ 0 <= lo < 256 /\ 0 <= hi < 256
    /\ lo + 256 * hi = chainId mod 65536.
Proof.
  exists (Z.land (ToInt32 chainId) 255 mod 256),
         (Z.land (Z.shiftr (ToInt32 chainId) 8) 255 mod 256).
  split; [reflexivity|].
  split; [apply Z.mod_pos_bound; lia|].
  split; [apply Z.mod_pos_bound; lia|].
  rewrite low_bytes. apply ToInt32_mod.
Qed.

Example chainIdToUint8Array_arbitrum :
  chainIdToUint8Array 10004 = [0x14; 0x27] ++ replicate 28 0 ++ [2].
Proof. vm_compute. reflexivity. Qed.

(** A chain id that does not fit two bytes is cut: 75540 = 65536 + 10004. *)
Example chainIdToUint8Array_wide :
  chainIdToUint8Array 75540 = chainIdToUint8Array 10004.
Proof. vm_compute. reflexivity. Qed.

(** ** [stringToUint8Array] *)

Lemma utf8_bytes (cp : Z) :
  0 <= cp < 0x110000 -> Forall (fun b => 0 <= b < 256) (utf8 cp).
Proof.
  intros Hcp. unfold utf8.
  destruct (Z.ltb_spec cp 0x80); [repeat constructor; lia|].
  destruct (Z.ltb_spec cp 0x800).
  { repeat constructor; try (pose proof (Z.mod_pos_bound cp 64 ltac:(lia)); lia).
    - apply Z.add_nonneg_nonneg; [lia | apply Z.div_pos; lia].
    - assert (cp / 64 < 32) by (apply Z.div_lt_upper_bound; lia). lia. }
  destruct (Z.ltb_spec cp 0x10000).
  { repeat constructor;
      try (pose proof (Z.mod_pos_bound cp 64 ltac:(lia));
           pose proof (Z.mod_pos_bound (cp / 64) 64 ltac:(lia)); lia).
    - apply Z.add_nonneg_nonneg; [lia | apply Z.div_pos; lia].
    - assert (cp / 4096 < 16) by (apply Z.div_lt_upper_bound; lia). lia. }
  repeat constructor;
    try (pose proof (Z.mod_pos_bound cp 64 ltac:(lia));
         pose proof (Z.mod_pos_bound (cp / 64) 64 ltac:(lia));
         pose proof (Z.mod_pos_bound (cp / 4096) 64 ltac:(lia)); lia).
  - apply Z.add_nonneg_nonneg; [lia | apply Z.div_pos; lia].
  - assert (cp / 262144 < 5) by (apply Z.div_lt_upper_bound; lia). lia.
Qed.

Lemma codePoints_range (s : jsstring) :
  Forall isCodeUnit s -> Forall (fun cp => 0 <= cp < 0x110000) (codePoints s).
Proof.
  unfold isCodeUnit.
  assert (Hgen : forall n (s : jsstring), (length s <= n)%nat ->
             Forall (fun c => 0 <= c < 65536) s ->
             Forall (fun cp => 0 <= cp < 0x110000) (codePoints s)).
  { induction n as [|n IH]; intros [|c rest] Hlen Hs; cbn in *;
      try constructor; try lia.
    - inversion Hs as [|? ? Hc Hrest]; subst.
      destruct (isHighSurrogate c) eqn:Hhi.
      + unfold isHighSurrogate in Hhi. apply andb_true_iff in Hhi as [H1 H2].
        apply Z.leb_le in H1, H2.
        destruct rest as [|d rest']; [repeat constructor; lia|].
        inversion Hrest as [|? ? Hd Hrest']; subst.
        destruct (isLowSurrogate d) eqn:Hlo.
        * unfold isLowSurrogate in Hlo. apply andb_true_iff in Hlo as [H3 H4].
          apply Z.leb_le in H3, H4.
          constructor; [lia|]. apply IH; [cbn in Hlen; lia | assumption].
        * constructor; [lia|]. apply IH; [cbn in *; lia | assumption].
      + destruct (isLowSurrogate c); constructor; try lia;
          apply IH; try lia; assumption. }
  intros Hs. exact (Hgen (length s) s (le_n _) Hs).
Qed.

Lemma encode_bytes (str : jsstring) :
  Forall isCodeUnit str -> Forall (fun b => 0 <= b < 256) (encode str).
Proof.
  intros Hs. unfold encode. apply Forall_flat_map.
  eapply Forall_impl; [apply codePoints_range; exact Hs|].
  intros cp Hcp. apply utf8_bytes. exact Hcp.
Qed.

Lemma encode_ascii (str : jsstring) :
  Forall (fun c => 0 <= c < 128) str -> encode str = str.
Proof.
  unfold encode. induction str as [|c rest IH]; intros Hs; [reflexivity|].
  inversion Hs as [|? ? Hc Hrest]; subst. cbn [codePoints].
  assert (Hhi : isHighSurrogate c = false)
    by (unfold isHighSurrogate; apply andb_false_iff; left; apply Z.leb_gt; lia).
  assert (Hlo : isLowSurrogate c = false)
    by (unfold isLowSurrogate; apply andb_false_iff; left; apply Z.leb_gt; lia).
  rewrite Hhi, Hlo. cbn [flat_map]. rewrite (IH Hrest).
  unfold utf8. destruct (Z.ltb_spec c 0x80); [reflexivity | lia].
Qed.

(** X2. [stringToUint8Array(str, length)] always returns exactly [length]
    bytes: the UTF-8 encoding of the string, cut after [length] bytes when
    it is longer and filled with zero bytes when it is shorter. For a
    string of ASCII characters the bytes are the character codes. *)
Theorem stringToUint8Array_cuts_or_pads (str : jsstring) (length_ : nat) :
  Forall isCodeUnit str ->
  stringToUint8Array str length_
  = take length_ (encode str) ++ replicate (length_ - length (encode str)) 0
  /\ length (stringToUint8Array str length_) = length_
  /\ (Forall (fun c => 0 <= c < 128) str ->
      stringToUint8Array str length_
      = take length_ str ++ replicate (length_ - length str) 0).
Proof.
  intros Hs.
  assert (Hmain : stringToUint8Array str length_
                  = take length_ (encode str)
                    ++ replicate (length_ - length (encode str)) 0).
  { unfold stringToUint8Array.
    rewrite (fill_loop (fun i => encode str !! i))
      by (unfold newUint8Array; rewrite length_replicate; lia).
    pose proof (encode_bytes str Hs) as Hbytes.
    set (enc := encode str) in *.
    set (m := Nat.min (length enc) length_).
    assert (Hmap : map (fun i => ToUint8 (enc !! i)) (seq 0 m) = take m enc).
    { apply list_eq. intros i.
      change (map (fun i0 => ToUint8 (enc !! i0)) (seq 0 m))
        with ((fun i0 => ToUint8 (enc !! i0)) <$> seq 0 m).
      rewrite list_lookup_fmap.
      destruct (decide (i < m)%nat) as [Hi|Hi].
      - rewrite lookup_seq_lt by lia. rewrite lookup_take_lt by lia. cbn.
        destruct (lookup_lt_is_Some_2 enc i ltac:(lia)) as [b Hb].
        rewrite Hb. cbn. f_equal.
        rewrite Forall_forall in Hbytes.
        apply Z.mod_small, Hbytes. eapply list_elem_of_lookup_2, Hb.
      - rewrite lookup_seq_ge by lia. rewrite lookup_take_ge by lia. reflexivity. }
    rewrite Hmap. unfold newUint8Array. rewrite drop_replicate.
    f_equal.
    + subst m. destruct (Nat.le_ge_cases (length enc) length_) as [Hle|Hge].
      * rewrite Nat.min_l by lia. rewrite !take_ge by lia. reflexivity.
      * rewrite Nat.min_r by lia. reflexivity.
    + f_equal. lia. }
  split; [exact Hmain|]. split.
  - rewrite Hmain, length_app, length_take, length_replicate. lia.
  - intros Hascii. rewrite Hmain, (encode_ascii str Hascii). reflexivity.
Qed.

Lemma stringToUint8Array_cuts_or_pads_witness :
  Forall isCodeUnit (codeUnits "hello")
  /\ stringToUint8Array (codeUnits "hello") 8
     = take 8 (encode (codeUnits "hello"))
       ++ replicate (8 - length (encode (codeUnits "hello"))) 0.
Proof.
  assert (Hs : Forall isCodeUnit (codeUnits "hello"))
    by (repeat constructor; unfold isCodeUnit; cbn; lia).
  split; [exact Hs|].
  exact (proj1 (stringToUint8Array_cuts_or_pads (codeUnits "hello") 8 Hs)).
Defined.

(** Cutting does not respect characters: two euro signs cut to four bytes
    end in the first byte of the second sign. *)
Example stringToUint8Array_cuts_inside_character :
  stringToUint8Array [0x20AC; 0x20AC] 4 = [0xE2; 0x82; 0xAC; 0xE2].
Proof. vm_compute. reflexivity. Qed.

(** ** [hexAddressToUint8Array] and [debugArray] *)

Lemma hex_digit_not_x (c : Z) : isHexDigit c -> (120 =? c) = false.
Proof.
  intros Hc. apply hexDigit_enum in Hc. cbn [In] in Hc.
  repeat match goal with
         | H : _ \/ _ |- _ => destruct H as [H|H]
         | H : False |- _ => destruct H
         end; subst; reflexivity.
Qed.

Lemma stripped_hex (s : jsstring) :
  Forall isHexDigit s -> stripped s = s.
Proof.
  intros Hs. unfold stripped. change (codeUnits "0x") with [48; 120].
  destruct s as [|a [|b rest]]; cbn [startsWith]; try reflexivity.
  - rewrite andb_false_r. reflexivity.
  - inversion Hs as [|? ? _ Hrest]; subst. inversion Hrest as [|? ? Hb _]; subst.
    rewrite (hex_digit_not_x b Hb). cbn [andb]. rewrite andb_false_r. reflexivity.
Qed.

(** Forty hexadecimal digits convert to their twenty bytes and eleven zeros. *)
Lemma hexAddressToUint8Array_digits (s : jsstring) :
  length s = 40%nat -> Forall isHexDigit s ->
  hexAddressToUint8Array s = inr (decodeHex s ++ replicate 11 0).
Proof.
  intros Hlen Hs. rewrite hexAddressToUint8Array_unfold, (stripped_hex s Hs), Hlen.
  cbn [Nat.eqb negb]. rewrite (decode_pairs 20 s) by (first [lia | assumption]).
  reflexivity.
Qed.

Lemma hexAddressToUint8Array_prefixed (s : jsstring) :
  hexAddressToUint8Array (codeUnits "0x" ++ s)
  = if negb (length s =? 40)%nat
    then inl (invalidAddressLength (length s))
    else inr (map (fun i => ToUint8 (parseInt16 (substring s (i * 2) (i * 2 + 2))))
                  (seq 0 20) ++ replicate 11 0).
Proof. rewrite hexAddressToUint8Array_unfold, stripped_0x. reflexivity. Qed.

Lemma hexDigitValue_lower (c : Z) :
  isHexDigit c ->
  hexDigitValue (toLowerAscii c) = hexDigitValue c /\ isHexDigit (toLowerAscii c).
Proof.
  intros Hc. apply hexDigit_enum in Hc. cbn [In] in Hc.
  repeat match goal with
         | H : _ \/ _ |- _ => destruct H as [H|H]
         | H : False |- _ => destruct H
         end; subst; (split; [reflexivity | eexists; reflexivity]).
Qed.

Lemma decodeHex_lower (s : jsstring) :
  Forall isHexDigit s -> decodeHex (map toLowerAscii s) = decodeHex s.
Proof.
  assert (Hgen : forall n (s : jsstring), (length s <= n)%nat ->
             Forall isHexDigit s -> decodeHex (map toLowerAscii s) = decodeHex s).
  { induction n as [|n IH]; intros [|a [|b rest]] Hlen Hs; cbn in *;
      try reflexivity; try lia.
    inversion Hs as [|? ? Ha Hrest]; subst. inversion Hrest as [|? ? Hb Hrest']; subst.
    rewrite (proj1 (hexDigitValue_lower a Ha)), (proj1 (hexDigitValue_lower b Hb)).
    f_equal. apply IH; [lia | assumption]. }
  intros Hs. exact (Hgen (length s) s (le_n _) Hs).
Qed.

Lemma lower_hex (s : jsstring) :
  Forall isHexDigit s -> Forall isHexDigit (map toLowerAscii s).
Proof.
  induction 1 as [|c rest Hc _ IH]; cbn; constructor;
    [apply hexDigitValue_lower; exact Hc | exact IH].
Qed.

(** X3. The spelling of an address does not matter: forty hexadecimal
    digits convert to the same 31 bytes with or without the [0x] prefix and
    in upper, lower or mixed case. *)
Theorem hexAddressToUint8Array_spelling (s : jsstring) :
  length s = 40%nat -> Forall isHexDigit s ->
  hexAddressToUint8Array (codeUnits "0x" ++ s) = hexAddressToUint8Array s
  /\ hexAddressToUint8Array (map toLowerAscii s) = hexAddressToUint8Array s
  /\ hexAddressToUint8Array (codeUnits "0x" ++ map toLowerAscii s)
     = hexAddressToUint8Array s.
Proof.
  intros Hlen Hs.
  assert (Hlow : hexAddressToUint8Array (map toLowerAscii s) = hexAddressToUint8Array s).
  { rewrite !hexAddressToUint8Array_digits;
      rewrite ?length_map; try assumption; try (apply lower_hex; assumption).
    rewrite decodeHex_lower by assumption. reflexivity. }
  assert (Hpre : forall t : jsstring, length t = 40%nat -> Forall isHexDigit t ->
            hexAddressToUint8Array (codeUnits "0x" ++ t) = hexAddressToUint8Array t).
  { intros t Ht Hhex. rewrite hexAddressToUint8Array_prefixed, Ht.
    cbn [Nat.eqb negb]. rewrite (decode_pairs 20 t) by (first [lia | assumption]).
    symmetry. apply hexAddressToUint8Array_digits; assumption. }
  split; [apply Hpre; assumption|]. split; [exact Hlow|].
  rewrite Hpre; [exact Hlow | rewrite length_map; exact Hlen | apply lower_hex; exact Hs].
Qed.

Lemma vaultDigits_hex :
  length (drop 2 vaultAddress) = 40%nat /\ Forall isHexDigit (drop 2 vaultAddress).
Proof.
  split; [reflexivity|].
  repeat (constructor; [eexists; reflexivity|]). constructor.
Qed.

Lemma hexAddressToUint8Array_spelling_witness :
  length (drop 2 vaultAddress) = 40%nat
  /\ Forall isHexDigit (drop 2 vaultAddress)
  /\ hexAddressToUint8Array (codeUnits "0x" ++ drop 2 vaultAddress)
     = hexAddressToUint8Array (drop 2 vaultAddress).
Proof.
  split; [exact (proj1 vaultDigits_hex)|]. split; [exact (proj2 vaultDigits_hex)|].
  exact (proj1 (hexAddressToUint8Array_spelling (drop 2 vaultAddress)
                  (proj1 vaultDigits_hex) (proj2 vaultDigits_hex))).
Defined.

(** A 40-character string that itself begins with [0x] is rejected, because
    the prefix is stripped before the length is checked. *)
Example hexAddressToUint8Array_prefix_counts :
  hexAddressToUint8Array (codeUnits "0x9cbB8f91d392856Cb880d67c806Aa731E3d686")
  = inl (Raised "Invalid address length: 38 chars, expected 40").
Proof. vm_compute. reflexivity. Qed.

Lemma hex_pair_chars (hi lo : Z) :
  isHexDigit hi -> isHexDigit lo ->
  [hexDigitChar ((16 * default 0 (hexDigitValue hi) + default 0 (hexDigitValue lo)) / 16);
   hexDigitChar ((16 * default 0 (hexDigitValue hi) + default 0 (hexDigitValue lo)) mod 16)]
  = [toLowerAscii hi; toLowerAscii lo]
  /\ 0 <= 16 * default 0 (hexDigitValue hi) + default 0 (hexDigitValue lo) < 256.
Proof.
  intros Hhi Hlo. apply hexDigit_enum in Hhi, Hlo. cbn [In] in Hhi, Hlo.
  repeat match goal with
         | H : _ \/ _ |- _ => destruct H as [H|H]
         | H : False |- _ => destruct H
         end; subst; vm_compute; repeat split; congruence.
Qed.

(** Rendering the decoded bytes in hexadecimal gives the digits back, in
    lower case. *)
Lemma bufferHex_decodeHex (n : nat) (s : jsstring) :
  length s = (2 * n)%nat -> Forall isHexDigit s ->
  bufferHex (decodeHex s) = map toLowerAscii s.
Proof.
  revert s. induction n as [|n IH]; intros s Hlen Hs.
  - destruct s; [reflexivity | discriminate].
  - destruct s as [|hi [|lo rest]]; try (cbn in Hlen; lia).
    inversion Hs as [|? ? Hhi Hrest]; subst.
    inversion Hrest as [|? ? Hlo Hrest']; subst.
    cbn [decodeHex bufferHex flat_map map app].
    fold (bufferHex (decodeHex rest)).
    rewrite (IH rest) by (cbn in Hlen; first [lia | assumption]).
    pose proof (proj1 (hex_pair_chars hi lo Hhi Hlo)) as Hpair.
    injection Hpair as -> ->. reflexivity.
Qed.

Lemma length_decodeHex (n : nat) (s : jsstring) :
  length s = (2 * n)%nat -> length (decodeHex s) = n.
Proof.
  revert s. induction n as [|n IH]; intros s Hlen.
  - destruct s; [reflexivity | discriminate].
  - destruct s as [|hi [|lo rest]]; try (cbn in Hlen; lia).
    cbn [decodeHex length]. f_equal. apply IH. cbn in Hlen. lia.
Qed.

Lemma byte_padStart (b : Z) :
  0 <= b < 256 ->
  padStart 2 48 (byteToString16 b) = [hexDigitChar (b / 16); hexDigitChar (b mod 16)].
Proof.
  intros Hb. unfold byteToString16, padStart.
  destruct (Z.ltb_spec b 16).
  - rewrite Z.div_small, Z.mod_small by lia. reflexivity.
  - reflexivity.
Qed.

(** X4. The first twenty bytes returned for forty hexadecimal digits,
    rendered in hexadecimal as [debugArray] does, are the digits themselves
    in lower case; the line [debugArray] prints for the array shows the
    first ten digits twice, once byte by byte and once in a row. *)
Theorem hexAddressToUint8Array_hex_round_trip (name s : jsstring) :
  length s = 40%nat -> Forall isHexDigit s ->
  exists arr : Uint8Array,
    hexAddressToUint8Array s = inr arr
    /\ bufferHex (take 20 arr) = map toLowerAscii s
    /\ debugArray name arr
       = name ++ codeUnits " - Length: 31, First 5 bytes: ["
              ++ join (codeUnits ", ")
                      (map (fun p => codeUnits "0x" ++ p)
                           (pairs (map toLowerAscii (take 10 s))))
              ++ codeUnits "], as hex: 0x"
              ++ map toLowerAscii (take 10 s)
              ++ codeUnits "...".
Proof.
  intros Hlen Hs. exists (decodeHex s ++ replicate 11 0).
  split; [apply hexAddressToUint8Array_digits; assumption|].
  assert (Hdec : length (decodeHex s) = 20%nat)
    by (apply (length_decodeHex 20); exact Hlen).
  split.
  - rewrite take_app_length' by (first [exact Hdec | symmetry; exact Hdec]).
    apply (bufferHex_decodeHex 20); [lia | assumption].
  - do 10 (destruct s as [|? s]; [discriminate|]).
    repeat match goal with
           | H : Forall isHexDigit (_ :: _) |- _ =>
               let Hc := fresh "Hc" in
               let Hr := fresh "Hr" in
               inversion H as [|? ? Hc Hr]; subst; clear H
           end.
    unfold debugArray.
    assert (Hlength : lengthString
              (decodeHex (z :: z0 :: z1 :: z2 :: z3 :: z4 :: z5 :: z6 :: z7 :: z8 :: s)
               ++ replicate 11 0) = codeUnits "31").
    { unfold lengthString. rewrite length_app, Hdec. reflexivity. }
    rewrite Hlength.
    cbn [decodeHex take app map pairs].
    rewrite substring_take_drop.
    2: lia.
    2:{ cbn [bufferHex flat_map app length]. lia. }
    cbn [bufferHex flat_map app drop take Nat.sub].
    rewrite !byte_padStart by (apply hex_pair_chars; assumption).
    repeat match goal with
           | |- context [hexDigitChar ((16 * default 0 (hexDigitValue ?a)
                                        + default 0 (hexDigitValue ?b)) / 16)] =>
               let Hp := fresh "Hp" in
               pose proof (proj1 (hex_pair_chars a b ltac:(assumption) ltac:(assumption)))
                 as Hp;
               injection Hp as -> ->
           end.
    reflexivity.
Qed.

Lemma hexAddressToUint8Array_hex_round_trip_witness :
  length (drop 2 vaultAddress) = 40%nat
  /\ Forall isHexDigit (drop 2 vaultAddress)
  /\ exists arr : Uint8Array,
       hexAddressToUint8Array (drop 2 vaultAddress) = inr arr
       /\ bufferHex (take 20 arr) = map toLowerAscii (drop 2 vaultAddress).
Proof.
  split; [exact (proj1 vaultDigits_hex)|]. split; [exact (proj2 vaultDigits_hex)|].
  destruct (hexAddressToUint8Array_hex_round_trip [] (drop 2 vaultAddress)
              (proj1 vaultDigits_hex) (proj2 vaultDigits_hex))
    as (arr & Harr & Hhex & _).
  exists arr. split; assumption.
Defined.

Example debugArray_vault :
  debugArray (codeUnits "vault")
             (decodeHex (drop 2 vaultAddress) ++ replicate 11 0)
  = codeUnits ("vault - Length: 31, First 5 bytes: [0x00, 0x9c, 0xbb, 0x8f, 0x91], "
               ++ "as hex: 0x009cbb8f91...").
Proof. vm_compute. reflexivity. Qed.

(** ** The message [main] builds *)

Lemma heapSet_app_r (h l : Heap) (k i : nat) (v : Z) :
  heapSet (length h + k) i v (h ++ l) = h ++ heapSet k i v l.
Proof.
  unfold heapSet. rewrite alter_app_r_alt by lia.
  replace (length h + k - length h)%nat with k by lia. reflexivity.
Qed.

Lemma heapSet_app_0 (h l : Heap) (i : nat) (v : Z) :
  heapSet (length h) i v (h ++ l) = h ++ heapSet 0 i v l.
Proof. rewrite <- (heapSet_app_r h l 0). f_equal. lia. Qed.

(** X5. For forty hexadecimal digits and a chain id below 65536, the seven
    arrays [main] hands to the contract are new objects holding: the twenty
    address bytes, ten zeros and a final 1; the two chain-id bytes
    (little-endian), 28 zeros and a final 2; and five arrays of zeros ending
    in 3 to 7. The index bytes overwrite neither the address nor the chain
    id, and no array that existed before is changed. *)
Theorem buildMessage_payload (s : jsstring) (chainId : Z) (h : Heap) :
  length s = 40%nat -> Forall isHexDigit s -> 0 <= chainId < 65536 ->
  buildMessage s chainId h
  = inr (seq (length h) 7,
         h ++ [ decodeHex s ++ replicate 10 0 ++ [1];
                [chainId mod 256; chainId / 256] ++ replicate 28 0 ++ [2];
                replicate 30 0 ++ [3]; replicate 30 0 ++ [4];
                replicate 30 0 ++ [5]; replicate 30 0 ++ [6];
                replicate 30 0 ++ [7] ]).
Proof.
  intros Hlen Hs Hc. unfold buildMessage.
  rewrite hexAddressToUint8Array_digits by assumption.
  rewrite chainIdToUint8Array_small by assumption.
  cbn [alloc]. rewrite createMessageArrays_unfold. cbv zeta.
  rewrite !length_app. cbn [length].
  rewrite <- !app_assoc. cbn [app replicate].
  assert (Hstamp : forall (A : list Z) (lo hi : Z), length A = 20%nat ->
            heapSet 6 30 7 (heapSet 5 30 6 (heapSet 4 30 5 (heapSet 3 30 4
              (heapSet 2 30 3 (heapSet 1 30 2 (heapSet 0 30 1
                 [A ++ replicate 11 0; [lo; hi] ++ replicate 28 0 ++ [2];
                  replicate 31 0; replicate 31 0; replicate 31 0;
                  replicate 31 0; replicate 31 0]))))))
            = [A ++ replicate 10 0 ++ [1]; [lo; hi] ++ replicate 28 0 ++ [2];
               replicate 30 0 ++ [3]; replicate 30 0 ++ [4];
               replicate 30 0 ++ [5]; replicate 30 0 ++ [6];
               replicate 30 0 ++ [7]]).
  { intros A lo hi HA.
    do 20 (destruct A as [|? A]; [discriminate|]).
    destruct A; [reflexivity | discriminate]. }
  specialize (Hstamp (decodeHex s) (chainId mod 256) (chainId / 256)
                     (length_decodeHex 20 s Hlen)).
  cbn [app replicate] in Hstamp.
  replace (S (S (S (S (length h + 1 + 1))))) with (length h + 6)%nat by lia.
  replace (S (S (S (length h + 1 + 1)))) with (length h + 5)%nat by lia.
  replace (S (S (length h + 1 + 1))) with (length h + 4)%nat by lia.
  replace (S (length h + 1 + 1)) with (length h + 3)%nat by lia.
  replace (length h + 1 + 1)%nat with (length h + 2)%nat by lia.
  rewrite (heapSet_app_0 h), !heapSet_app_r, Hstamp.
  cbn [seq]. repeat f_equal; lia.
Qed.

Lemma buildMessage_payload_witness :
  length (drop 2 vaultAddress) = 40%nat
  /\ Forall isHexDigit (drop 2 vaultAddress)
  /\ 0 <= 10004 < 65536
  /\ buildMessage (drop 2 vaultAddress) 10004 []
     = inr (seq 0 7,
            [ decodeHex (drop 2 vaultAddress) ++ replicate 10 0 ++ [1];
              [10004 mod 256; 10004 / 256] ++ replicate 28 0 ++ [2];
              replicate 30 0 ++ [3]; replicate 30 0 ++ [4];
              replicate 30 0 ++ [5]; replicate 30 0 ++ [6];
              replicate 30 0 ++ [7] ]).
Proof.
  split; [exact (proj1 vaultDigits_hex)|]. split; [exact (proj2 vaultDigits_hex)|].
  split; [lia|].
  exact (buildMessage_payload (drop 2 vaultAddress) 10004 []
           (proj1 vaultDigits_hex) (proj2 vaultDigits_hex) ltac:(lia)).
Defined.

(** ** [cleanup] *)

(** X6. [cleanup] never exits, leaves both nonces and the nonce file alone
    and never clears the [pxe] variable. It returns normally unless
    [pxe.close()] rejects with a value whose [message] cannot be read
    ([undefined], [null]); then its [catch] block throws what reading the
    message throws. When no PXE is held it makes no external call and resets
    the node client; when [pxe.close()] rejects, the service is left as it
    was and the node client is not reset; when it resolves, the service ends
    closed and the node client reset. *)
Theorem cleanup_outcomes (w : World) :
  (closeReadable w -> (cleanup w).1 = Ret tt)
  /\ (forall raised,
        is_Some (pxe w) -> nextAnswer w = Some (Unreadable raised) ->
        (cleanup w).1 = Throw raised)
  /\ (forall code, (cleanup w).1 <> Exit code)
  /\ currentTokenNonce (cleanup w).2 = currentTokenNonce w
  /\ currentWalletNonce (cleanup w).2 = currentWalletNonce w
  /\ nonceFile (cleanup w).2 = nonceFile w
  /\ (is_Some (pxe w) <-> is_Some (pxe (cleanup w).2))
  /\ (pxe w = None ->
      (cleanup w).1 = Ret tt
      /\ nodeClient (cleanup w).2 = None /\ faults (cleanup w).2 = faults w)
  /\ (forall e, is_Some (pxe w) -> nextAnswer w = Some e ->
      pxe (cleanup w).2 = pxe w /\ nodeClient (cleanup w).2 = nodeClient w)
  /\ (is_Some (pxe w) -> nextAnswer w = None ->
      pxe (cleanup w).2 = Some PxeClosed /\ nodeClient (cleanup w).2 = None).
Proof.
  unfold closeReadable, nextAnswer.
  destruct w as [t wn [p|] [n|] f tr [|[[d|raised]|] fs]]; cbn;
    repeat match goal with
           | |- _ /\ _ => split
           | |- _ <-> _ => split
           | |- _ -> _ => intro
           | |- forall _, _ => intro
           end;
    try reflexivity; try eauto; try discriminate;
    repeat match goal with
           | H : is_Some None |- _ => destruct H; discriminate
           | H : Some (Unreadable _) = Some (Unreadable _) |- _ => injection H as ->
           | H : forall r, is_Some (Some _) -> Some (Unreadable ?x) <> Some (Unreadable r) |- _ =>
               exfalso; apply (H x); [eexists; reflexivity | reflexivity]
           end; try discriminate; try reflexivity; eauto.
Qed.

(** A rejection with an error is logged; a rejection with [undefined] is
    not, and escapes. *)
Example cleanup_rejections :
  cleanup busyService
  = (Ret tt,
     mkWorld 67 100042 (Some PxeOpen) (Some tt) None
             [Console CleaningUp; PxeCloseCalled;
              Console (ErrorDuringCleanup (Raised "busy"))] [])
  /\ cleanup rejectsUndefined
     = (Throw (Raised "TypeError: Cannot read properties of undefined (reading 'message')"),
        mkWorld 67 100042 (Some PxeOpen) (Some tt) None
                [Console CleaningUp; PxeCloseCalled] []).
Proof. split; vm_compute; reflexivity. Qed.

(** Running [cleanup] twice with a PXE held calls [pxe.close()] twice. *)
Example cleanup_twice :
  (cleanup >> cleanup) (mkWorld 67 100042 (Some PxeOpen) (Some tt) None [] [])
  = (Ret tt,
     mkWorld 67 100042 (Some PxeClosed) None None
             [Console CleaningUp; PxeCloseCalled; Console PxeServiceClosed;
              Console NodeClientCleanedUp;
              Console CleaningUp; PxeCloseCalled; Console PxeServiceClosed] []).
Proof. vm_compute. reflexivity. Qed.

End SendMessageHelpersProofs.

(** * Properties of [ProxyLogger] *)

Module ProxyLoggerProofs.

Import SendMessage ProxyLogger.

Section Logger.

Variable Value : Type.
Variable undefined : Value.
Variable target : string -> string -> list Value -> option exn.

Local Abbreviation Store := (Store Value).
Local Abbreviation LogEntry := (LogEntry Value).

Lemma proxiedCall_records (now : Z) (prefix prop : string) (data : list Value)
      (st : Store) (this : ref) (old : list LogEntry) :
  instance st = Some this ->
  logsContent this st = Some old ->
  let entry := mkLogEntry prop prefix (argument undefined data 0)
                          (argument undefined data 1) now in
  let st' := (proxiedCall undefined target now prefix prop data st).2 in
  (proxiedCall undefined target now prefix prop data st).1
  = match target prefix prop [argument undefined data 0; argument undefined data 1] with
    | Some e => Throw e
    | None => Ret tt
    end
  /\ instance st' = Some this
  /\ loggers st' = loggers st
  /\ logsContent this st' = Some (entry :: old)
  /\ targetCalls st'
     = targetCalls st
       ++ [mkTargetCall prefix prop
                        [argument undefined data 0; argument undefined data 1]].
Proof.
  intros Hinst Hold. cbv zeta.
  unfold logsContent in *. destruct (logsOf this st) as [logs|] eqn:Hlogs;
    [|discriminate].
  unfold proxiedCall, getInstance, handleLog, bind, seq, get, ret, modify, throw.
  rewrite Hinst, Hlogs. cbn [fst snd].
  destruct (target prefix prop _) as [e|]; cbn [fst snd instance loggers arrays targetCalls].
  all: split; [reflexivity|]; split; [exact Hinst|]; split; [reflexivity|];
    split; [|reflexivity];
    unfold logsOf in *; cbn [loggers arrays]; rewrite Hlogs;
    rewrite list_lookup_alter_eq, Hold; reflexivity.
Qed.

(** X7. Calls made through proxied loggers are recorded newest first: after
    a run of calls whose underlying methods return, the array of the current
    [ProxyLogger] holds one entry per call, in reverse call order, in front
    of what it held before. Each entry keeps the level, the logger's prefix
    and the first two arguments; the underlying logger receives exactly those
    two arguments, in call order, and further arguments are dropped. *)
Theorem logAll_newest_first (calls : list (Logged Value)) (st : Store)
        (this : ref) (old : list LogEntry) :
  instance st = Some this ->
  logsContent this st = Some old ->
  Forall (fun c => target (loggedPrefix c) (loggedLevel c)
                          [argument undefined (loggedData c) 0;
                           argument undefined (loggedData c) 1] = None) calls ->
  (logAll undefined target calls st).1 = Ret tt
  /\ logsContent this (logAll undefined target calls st).2
     = Some (rev (map (entryOf undefined) calls) ++ old)
  /\ targetCalls (logAll undefined target calls st).2
     = targetCalls st ++ map (passedOn undefined) calls.
Proof.
  revert st old. induction calls as [|c calls IH]; intros st old Hinst Hold Hok.
  - cbn. rewrite app_nil_r. auto.
  - inversion Hok as [|? ? Hc Hrest]; subst.
    pose proof (proxiedCall_records (loggedAt c) (loggedPrefix c) (loggedLevel c)
                  (loggedData c) st this old Hinst Hold) as Hcall.
    cbv zeta in Hcall. rewrite Hc in Hcall.
    destruct (proxiedCall undefined target (loggedAt c) (loggedPrefix c)
                          (loggedLevel c) (loggedData c) st) as [r st1] eqn:Hrun.
    cbn [fst snd] in Hcall. destruct Hcall as (-> & Hinst1 & _ & Hold1 & Hcalls1).
    assert (Hstep : logAll undefined target (c :: calls) st
                    = logAll undefined target calls st1)
      by (cbn [logAll]; unfold bind; rewrite Hrun; reflexivity).
    rewrite Hstep.
    specialize (IH st1 _ Hinst1 Hold1 Hrest).
    destruct IH as (IHr & IHlogs & IHcalls).
    split; [exact IHr|]. split.
    + rewrite IHlogs. cbn [map rev]. rewrite <- app_assoc. reflexivity.
    + rewrite IHcalls, Hcalls1. cbn [map]. rewrite <- app_assoc. reflexivity.
Qed.

(** X8. The array [getLogs] returns is the logger's own array, not a copy:
    an entry recorded later appears in it. [flushLogs] does not empty that
    array but replaces it: a reference taken before the flush keeps every
    entry, and the logger starts again from an empty array of its own, so
    entries recorded after the flush do not reach the old reference. *)
Theorem getLogs_shared_until_flush (st : Store) (this logs : ref)
        (old : list LogEntry) (now now' : Z) (type prefix type' prefix' : string)
        (message data message' data' : Value) :
  (getLogs this st).1 = Ret (Some logs) ->
  arrays st !! logs = Some old ->
  let entry := mkLogEntry type prefix message data now in
  let entry' := mkLogEntry type' prefix' message' data' now' in
  let st1 := (handleLog now this type prefix message data st).2 in
  let st2 := (flushLogs this st1).2 in
  let st3 := (handleLog now' this type' prefix' message' data' st2).2 in
  (getLogs this st1).1 = Ret (Some logs)
  /\ arrays st1 !! logs = Some (entry :: old)
  /\ (getLogs this st2).1 <> Ret (Some logs)
  /\ arrays st2 !! logs = Some (entry :: old)
  /\ logsContent this st2 = Some []
  /\ arrays st3 !! logs = Some (entry :: old)
  /\ logsContent this st3 = Some [entry'].
Proof.
  intros Hget Hold. cbv zeta.
  unfold getLogs, bind, get, ret in *. cbn [fst snd] in *.
  assert (Hlogs : logsOf this st = Some logs) by congruence. clear Hget.
  pose proof (lookup_lt_Some _ _ _ Hold) as Hlt.
  unfold logsOf in Hlogs. pose proof (lookup_lt_Some _ _ _ Hlogs) as Hthis.
  unfold handleLog, flushLogs, modify, logsContent, logsOf.
  cbn [fst snd instance loggers arrays targetCalls].
  rewrite Hlogs. cbn [fst snd instance loggers arrays targetCalls].
  rewrite !list_lookup_insert_eq by (rewrite ?length_insert; exact Hthis).
  cbn [fst snd instance loggers arrays targetCalls].
  rewrite !list_lookup_insert_eq by (rewrite ?length_insert; exact Hthis).
  rewrite length_alter.
  split; [rewrite Hlogs; reflexivity|].
  split; [rewrite list_lookup_alter_eq, Hold; reflexivity|].
  split; [intros Heq; inversion Heq; lia|].
  split; [rewrite lookup_app_l by (rewrite length_alter; exact Hlt);
          rewrite list_lookup_alter_eq, Hold; reflexivity|].
  split; [rewrite lookup_app_r by (rewrite length_alter; lia);
          rewrite length_alter, Nat.sub_diag; reflexivity|].
  split.
  - rewrite list_lookup_alter_ne by lia.
    rewrite lookup_app_l by (rewrite length_alter; exact Hlt).
    rewrite list_lookup_alter_eq, Hold. reflexivity.
  - rewrite list_lookup_alter_eq.
    rewrite lookup_app_r by (rewrite length_alter; lia).
    rewrite length_alter, Nat.sub_diag. reflexivity.
Qed.

(** X9. Records go to the instance made by the latest [ProxyLogger.create()]:
    after a further [create], a proxied call puts its entry in the new
    instance, whose array holds nothing else, and the array of any earlier
    instance is left as it was, whether or not the underlying method throws. *)
Theorem create_replaces_singleton (st : Store) (earlier : ref)
        (old : list LogEntry) (now : Z) (prefix prop : string)
        (data : list Value) :
  logsContent earlier st = Some old ->
  let st' := ((create >> proxiedCall undefined target now prefix prop data) st).2 in
  instance st' = Some (length (loggers st))
  /\ instance st' <> Some earlier
  /\ logsContent (length (loggers st)) st'
     = Some [mkLogEntry prop prefix (argument undefined data 0)
                        (argument undefined data 1) now]
  /\ logsContent earlier st' = Some old.
Proof.
  intros Hold. cbv zeta.
  unfold logsContent in Hold.
  destruct (logsOf earlier st) as [logs|] eqn:Hlogs; [|discriminate].
  unfold logsOf in Hlogs.
  pose proof (lookup_lt_Some _ _ _ Hlogs) as Hearlier.
  pose proof (lookup_lt_Some _ _ _ Hold) as Hlt.
  set (st1 := (create st).2).
  assert (Hcreate : create st = (Ret tt, st1)) by reflexivity.
  assert (Hinst1 : instance st1 = Some (length (loggers st))) by reflexivity.
  assert (Hnew1 : logsContent (length (loggers st)) st1 = Some []).
  { unfold logsContent, logsOf. cbn.
    rewrite lookup_app_r by lia. rewrite Nat.sub_diag. cbn.
    rewrite lookup_app_r by lia. rewrite Nat.sub_diag. reflexivity. }
  pose proof (proxiedCall_records now prefix prop data st1 _ _ Hinst1 Hnew1) as Hcall.
  cbv zeta in Hcall. destruct Hcall as (_ & Hinst2 & Hloggers2 & Hnew2 & _).
  assert (Hrun : ((create >> proxiedCall undefined target now prefix prop data) st).2
                 = (proxiedCall undefined target now prefix prop data st1).2).
  { unfold bind at 1. rewrite Hcreate. reflexivity. }
  rewrite Hrun.
  split; [exact Hinst2|]. split; [rewrite Hinst2; intros Heq; inversion Heq; lia|].
  split; [exact Hnew2|].
  unfold logsContent, logsOf. rewrite Hloggers2.
  change (loggers st1) with (loggers st ++ [length (arrays st)]).
  rewrite lookup_app_l by exact Hearlier. rewrite Hlogs.
  unfold proxiedCall, getInstance, handleLog, bind, get, ret, modify, throw.
  rewrite Hinst1. cbn [fst snd].
  unfold logsOf.
  change (loggers st1) with (loggers st ++ [length (arrays st)]).
  rewrite lookup_app_r by lia. rewrite Nat.sub_diag. cbn [lookup list_lookup].
  destruct (target prefix prop _); cbn [fst snd arrays];
    rewrite list_lookup_alter_ne by lia;
    change (arrays st1) with (arrays st ++ [[]]);
    rewrite lookup_app_l by exact Hlt; exact Hold.
Qed.

(** X10. Before any [ProxyLogger.create()], a call of a log-level method on
    a proxied logger throws a [TypeError] at [getInstance().handleLog]:
    nothing is recorded and the underlying logger is not called, for this
    call and so for a whole run of calls. Properties other than the log
    levels are the underlying logger's own. *)
Theorem proxied_call_without_instance (st : Store) (c : Logged Value)
        (calls : list (Logged Value)) (prefix prop : string) :
  instance st = None ->
  logAll undefined target (c :: calls) st
  = (Throw "TypeError: Cannot read properties of undefined (reading 'handleLog')",
     st)
  /\ (isLogLevel prop = false ->
      getTrap undefined target prefix prop = TargetProperty prop)
  /\ (In prop logLevel ->
      exists call, getTrap undefined target prefix prop = Recording call
                   /\ forall now data,
                        call now data st
                        = (Throw "TypeError: Cannot read properties of undefined (reading 'handleLog')",
                           st)).
Proof.
  intros Hinst.
  assert (Hcall : forall now prefix prop data,
             proxiedCall undefined target now prefix prop data st
             = (Throw "TypeError: Cannot read properties of undefined (reading 'handleLog')",
                st)).
  { intros. unfold proxiedCall, getInstance, bind, get, ret, throw.
    rewrite Hinst. reflexivity. }
  split; [|split].
  - cbn [logAll]. unfold bind at 1. rewrite Hcall. reflexivity.
  - intros Hno. unfold getTrap. rewrite Hno. reflexivity.
  - intros Hin. unfold getTrap.
    assert (Hyes : isLogLevel prop = true).
    { unfold isLogLevel. apply existsb_exists. exists prop. split; [exact Hin|].
      apply String.eqb_refl. }
    rewrite Hyes. eexists. split; [reflexivity|]. intros. apply Hcall.
Qed.

End Logger.

Lemma getLogs_shared_until_flush_witness :
  arrays (handleLog 1000 0%nat "info" "pxe" 10 20 created).2 !! 0%nat
  = Some [mkLogEntry "info" "pxe" 10 20 1000]
  /\ logsContent 0%nat
       (flushLogs 0%nat (handleLog 1000 0%nat "info" "pxe" 10 20 created).2).2
     = Some [].
Proof.
  pose proof (getLogs_shared_until_flush Z created 0%nat 0%nat [] 1000 1001
                "info" "pxe" "warn" "pxe" 10 20 30 40 eq_refl eq_refl) as H.
  cbv zeta in H. destruct H as (_ & H1 & _ & _ & H2 & _).
  split; [exact H1 | exact H2].
Defined.

Lemma create_replaces_singleton_witness :
  logsContent 0%nat created = Some []
  /\ logsContent 0%nat
       ((create >> proxiedCall 0 quiet 1000 "pxe" "info" [10; 20; 30]) created).2
     = Some [].
Proof.
  split; [reflexivity|].
  pose proof (create_replaces_singleton Z 0 quiet created 0%nat [] 1000 "pxe" "info"
                [10; 20; 30] eq_refl) as H.
  cbv zeta in H. destruct H as (_ & _ & _ & H). exact H.
Defined.

Lemma proxied_call_without_instance_witness :
  logAll 0 quiet twoCalls (mkStore None [] [] [])
  = (Throw "TypeError: Cannot read properties of undefined (reading 'handleLog')",
     mkStore None [] [] []).
Proof.
  exact (proj1 (proxied_call_without_instance Z 0 quiet (mkStore None [] [] [])
                  (mkLogged 1000 "pxe" "info" [10; 20; 30])
                  [mkLogged 1001 "pxe" "warn" []] "pxe" "info" eq_refl)).
Defined.

Lemma logAll_newest_first_witness :
  instance created = Some 0%nat
  /\ logsContent 0%nat created = Some []
  /\ logsContent 0%nat (logAll 0 quiet twoCalls created).2
     = Some (rev (map (entryOf 0) twoCalls) ++ []).
Proof.
  split; [reflexivity|]. split; [reflexivity|].
  apply (logAll_newest_first Z 0 quiet twoCalls created 0%nat [] eq_refl eq_refl).
  repeat constructor.
Defined.

(** The third argument of the first call is recorded nowhere. *)
Example logAll_two_calls :
  logsContent 0%nat (logAll 0 quiet twoCalls created).2
  = Some [mkLogEntry "warn" "pxe" 0 0 1001; mkLogEntry "info" "pxe" 10 20 1000].
Proof. vm_compute. reflexivity. Qed.

End ProxyLoggerProofs.

(** * Properties of the EVM client's constructor and call data *)

Module EVMClientSetupProofs.

Import ABI EVMClient EVMClientSetup EVMClientProofs.

Lemma substring_all (s : string) : String.substring 0 (String.length s) s = s.
Proof. induction s as [|c s IH]; cbn; [reflexivity | rewrite IH; reflexivity]. Qed.

Lemma substring_0_0 (s : string) : String.substring 0 0 s = EmptyString.
Proof. destruct s; reflexivity. Qed.

(** One leading [0x] is removed, whatever follows. *)
Lemma TrimPrefix_0x (s : string) : TrimPrefix ("0x" ++ s) "0x" = s.
Proof.
  change ("0x" ++ s)%string with (String "0" (String "x" s)).
  unfold TrimPrefix, HasPrefix. cbn. rewrite substring_0_0. cbn.
  rewrite Nat.sub_0_r. apply substring_all.
Qed.

(** A string that does not begin with [0x] is left as it is. *)
Lemma TrimPrefix_other (s : string) :
  HasPrefix s "0x" = false -> TrimPrefix s "0x" = s.
Proof. unfold TrimPrefix. intros ->. reflexivity. Qed.

Lemma beValue_snoc (l : bytes) (x : Z) : beValue (l ++ [x]) = beValue l * 256 + x.
Proof. unfold beValue. rewrite fold_left_app. reflexivity. Qed.

Lemma beValue_big_endian (k : nat) (n : Z) :
  beValue (map (fun i => (n / 256 ^ Z.of_nat (k - 1 - i)) mod 256) (seq 0 k))
  = n mod 256 ^ Z.of_nat k.
Proof.
  revert n. induction k as [|k IH]; intros n.
  - cbn. rewrite Z.mod_1_r. reflexivity.
  - rewrite seq_S, map_app. cbn [map Nat.add]. rewrite beValue_snoc.
    replace (S k - 1 - k)%nat with 0%nat by lia.
    rewrite Z.pow_0_r, Z.div_1_r.
    rewrite (map_ext_in _ (fun i => ((n / 256) / 256 ^ Z.of_nat (k - 1 - i)) mod 256)).
    + rewrite IH. rewrite Nat2Z.inj_succ, Z.pow_succ_r by lia.
      rewrite Z.rem_mul_r by lia. lia.
    + intros i Hi. apply in_seq in Hi.
      replace (S k - 1 - i)%nat with (S (k - 1 - i)) by lia.
      rewrite Nat2Z.inj_succ, Z.pow_succ_r by lia.
      rewrite Z.div_div by lia. reflexivity.
Qed.

Lemma beValue_packNum (n : Z) : 0 <= n < 2 ^ 256 -> beValue (packNum n) = n.
Proof.
  intros Hn. unfold packNum.
  change (fun i : nat => (n / 256 ^ Z.of_nat (31 - i)) mod 256)
    with (fun i : nat => (n / 256 ^ Z.of_nat (32 - 1 - i)) mod 256).
  rewrite beValue_big_endian. apply Z.mod_small.
  change (256 ^ Z.of_nat 32) with (2 ^ 256). exact Hn.
Qed.

Lemma padded_length (n : nat) : (n + padding n = 32 * ((n + 31) / 32))%nat.
Proof.
  unfold padding.
  pose proof (Nat.div_mod_eq n 32) as Hdm.
  pose proof (Nat.mod_upper_bound n 32 ltac:(lia)) as Hub.
  set (q := (n / 32)%nat) in *. set (m := (n mod 32)%nat) in *.
  destruct (Nat.eq_dec m 0%nat) as [Hm|Hm].
  - rewrite Hm in *. replace ((n + 31) / 32)%nat with q.
    2:{ apply (Nat.div_unique _ 32 q 31); lia. }
    change ((32 - 0) mod 32)%nat with 0%nat. lia.
  - replace ((n + 31) / 32)%nat with (S q).
    2:{ apply (Nat.div_unique _ 32 (S q) (m - 1)); lia. }
    rewrite (Nat.mod_small (32 - m) 32) by lia. lia.
Qed.

Lemma verifyCallData_words (b : bytes) :
  take 32 (drop 4 (verifyCallData b)) = packNum 32
  /\ take 32 (drop 36 (verifyCallData b)) = packNum (Z.of_nat (length b)).
Proof.
  unfold verifyCallData. split.
  - rewrite drop_app_length' by reflexivity.
    apply take_app_length'. rewrite length_packNum. reflexivity.
  - rewrite (app_assoc [_; _; _; _]).
    rewrite drop_app_length' by (rewrite length_app, length_packNum; reflexivity).
    apply take_app_length'. rewrite length_packNum. reflexivity.
Qed.

(** X14. The call data of [verify] can be read back: it is 68 bytes of
    selector, offset and length followed by the payload padded to whole
    32-byte words; the offset word reads 32 and the length word reads the
    payload's length, so two payloads with the same call data are the same
    payload. *)
Theorem verifyCallData_decodes (vaaBytes : bytes) :
  Z.of_nat (length vaaBytes) < 2 ^ 256 ->
  length (verifyCallData vaaBytes)
  = (68 + 32 * ((length vaaBytes + 31) / 32))%nat
  /\ beValue (take 32 (drop 4 (verifyCallData vaaBytes))) = 32
  /\ beValue (take 32 (drop 36 (verifyCallData vaaBytes)))
     = Z.of_nat (length vaaBytes)
  /\ forall other,
       Z.of_nat (length other) < 2 ^ 256 ->
       verifyCallData other = verifyCallData vaaBytes -> other = vaaBytes.
Proof.
  intros Hlen.
  assert (Hword : forall b, Z.of_nat (length b) < 2 ^ 256 ->
                            beValue (take 32 (drop 36 (verifyCallData b)))
                            = Z.of_nat (length b)).
  { intros b Hb. rewrite (proj2 (verifyCallData_words b)).
    apply beValue_packNum. lia. }
  split; [|split; [|split]].
  - unfold verifyCallData.
    rewrite !length_app, !length_packNum, length_replicate.
    pose proof (padded_length (length vaaBytes)). cbn [length]. lia.
  - rewrite (proj1 (verifyCallData_words vaaBytes)). vm_compute. reflexivity.
  - apply Hword, Hlen.
  - intros other Hother Heq.
    assert (Hsame : length other = length vaaBytes).
    { apply Nat2Z.inj. rewrite <- (Hword other Hother), <- (Hword vaaBytes Hlen), Heq.
      reflexivity. }
    rewrite <- (verifyCallData_payload other), <- (verifyCallData_payload vaaBytes).
    rewrite Heq, Hsame. reflexivity.
Qed.

Lemma verifyCallData_decodes_witness :
  length (verifyCallData [1; 2; 3]) = 100%nat
  /\ beValue (take 32 (drop 36 (verifyCallData [1; 2; 3]))) = 3.
Proof.
  pose proof (verifyCallData_decodes [1; 2; 3] ltac:(cbn; lia)) as H.
  destruct H as (H1 & _ & H2 & _). split; [exact H1 | exact H2].
Defined.

Section Constructor.

Variable Dial : string -> error + EthClient.
Variable HexToECDSA : string -> error + Z.
Variable publicPoint : Z -> Z * Z.
Variable PubkeyToAddress : Z * Z -> Address.

Local Abbreviation NewEVMClient :=
  (NewEVMClient Dial HexToECDSA publicPoint PubkeyToAddress).

Lemma NewEVMClient_some (rpcURL privateKeyHex : string) (c : EVMClient) :
  (NewEVMClient rpcURL privateKeyHex).1 = Some c ->
  Dial rpcURL = inr (client c)
  /\ HexToECDSA (TrimPrefix privateKeyHex "0x") = inr (privateKey c)
  /\ address c = PubkeyToAddress (publicPoint (privateKey c)).
Proof.
  unfold EVMClientSetup.NewEVMClient, Public.
  destruct (Dial rpcURL) as [e|ethClient]; [discriminate|].
  destruct (HexToECDSA _) as [e|prv]; [discriminate|].
  cbn. intros [= <-]. cbn. destruct (publicPoint prv). auto.
Qed.

(** X11. [NewEVMClient] returns either a client and a nil error, or a nil
    client and an error. A returned client holds the dialled connection and
    the key parsed from the hexadecimal string with one leading [0x]
    removed, and its address is the one derived from that key. The only
    errors are a failed dial, which is reported whatever the key is, and an
    invalid key; the public-key cast never fails. *)
Theorem NewEVMClient_result (rpcURL privateKeyHex : string) :
  let res := NewEVMClient rpcURL privateKeyHex in
  (exists c,
      res = (Some c, None)
      /\ Dial rpcURL = inr (client c)
      /\ HexToECDSA (TrimPrefix privateKeyHex "0x") = inr (privateKey c)
      /\ GetAddress c = PubkeyToAddress (publicPoint (privateKey c)))
  \/ (exists e,
         res = (None, Some e)
         /\ ((exists d, Dial rpcURL = inl d
                        /\ e = ("failed to connect to EVM node: " ++ d)%string)
             \/ (exists ethClient d,
                    Dial rpcURL = inr ethClient
                    /\ HexToECDSA (TrimPrefix privateKeyHex "0x") = inl d
                    /\ e = ("invalid private key: " ++ d)%string))).
Proof.
  cbv zeta. unfold EVMClientSetup.NewEVMClient, Public, GetAddress.
  destruct (Dial rpcURL) as [d|ethClient].
  { right. eexists. split; [reflexivity|]. left. eauto. }
  destruct (HexToECDSA _) as [d|prv].
  { right. eexists. split; [reflexivity|]. right. eauto. }
  left. eexists. split; [reflexivity|]. cbn. destruct (publicPoint prv). auto.
Qed.

(** X12. The [0x] in front of the private key is optional: a key that does
    not itself begin with [0x] gives the same result with and without the
    prefix. *)
Theorem NewEVMClient_prefix_optional (rpcURL privateKeyHex : string) :
  HasPrefix privateKeyHex "0x" = false ->
  NewEVMClient rpcURL ("0x" ++ privateKeyHex) = NewEVMClient rpcURL privateKeyHex.
Proof.
  intros Hno. unfold EVMClientSetup.NewEVMClient.
  rewrite TrimPrefix_0x, (TrimPrefix_other _ Hno). reflexivity.
Qed.

Variable HexToAddress : string -> Address.
Variable ecdsaSign : Transaction -> Z -> Z -> error + (Z * Z * Z).
Variable txHash : SignedTransaction -> Hash.

Lemma SendVerifyTransaction_broadcast (c : EVMClient) (targetContract : string)
      (vaaBytes : bytes) :
  Forall (fun signedTx =>
            exists chainID,
              PendingNonceAt (client c) (address c) = inr (txNonce (inner signedTx))
              /\ SuggestGasPrice (client c) = inr (txGasPrice (inner signedTx))
              /\ NetworkID (client c) = inr chainID
              /\ txGas (inner signedTx) = 3000000
              /\ ecdsaSign (inner signedTx) chainID (privateKey c)
                 = inr (sigV signedTx, sigR signedTx, sigS signedTx))
         (SendVerifyTransaction HexToAddress ecdsaSign txHash
                                c targetContract vaaBytes).2.
Proof.
  unfold SendVerifyTransaction, parseABI. rewrite Pack_verify.
  destruct (PendingNonceAt (client c) (address c)) as [e|nonce]; [constructor|].
  destruct (SuggestGasPrice (client c)) as [e|gasPrice]; [constructor|].
  cbv zeta.
  destruct (NetworkID (client c)) as [e|chainID]; [constructor|].
  unfold SignTx.
  destruct (ecdsaSign _ chainID (privateKey c)) as [e|[[v r] s]] eqn:Hsign;
    [constructor|].
  destruct (SendTransaction (client c) _); cbn [snd];
    (constructor; [|constructor]); exists chainID; cbn; auto.
Qed.

(** X13. A client made by [NewEVMClient] submits under its own key: every
    transaction that [SendVerifyTransaction] hands to the node was signed
    with the key parsed from the constructor's hexadecimal string, for the
    chain id the dialled node reported, carries the nonce that node gave for
    the address derived from that key and the gas price it suggested, and
    has the gas limit 3000000. Nothing is handed over unless all of these
    were obtained. *)
Theorem constructed_client_signs_with_its_key
        (rpcURL privateKeyHex targetContract : string) (vaaBytes : bytes)
        (c : EVMClient) :
  (NewEVMClient rpcURL privateKeyHex).1 = Some c ->
  exists ethClient prv,
    Dial rpcURL = inr ethClient
    /\ HexToECDSA (TrimPrefix privateKeyHex "0x") = inr prv
    /\ Forall (fun signedTx =>
                 exists chainID,
                   PendingNonceAt ethClient (PubkeyToAddress (publicPoint prv))
                   = inr (txNonce (inner signedTx))
                   /\ SuggestGasPrice ethClient = inr (txGasPrice (inner signedTx))
                   /\ NetworkID ethClient = inr chainID
                   /\ txGas (inner signedTx) = 3000000
                   /\ ecdsaSign (inner signedTx) chainID prv
                      = inr (sigV signedTx, sigR signedTx, sigS signedTx))
              (SendVerifyTransaction HexToAddress ecdsaSign txHash
                                     c targetContract vaaBytes).2.
Proof.
  intros Hnew. destruct (NewEVMClient_some _ _ _ Hnew) as (Hdial & Hkey & Haddr).
  exists (client c), (privateKey c). split; [exact Hdial|]. split; [exact Hkey|].
  rewrite <- Haddr. apply SendVerifyTransaction_broadcast.
Qed.

End Constructor.

Lemma NewEVMClient_prefix_optional_witness :
  HasPrefix "7" "0x" = false
  /\ EVMClientSetup.NewEVMClient sampleDial sampleHexToECDSA samplePoint sampleAddress
       "http://localhost:8545" "0x7"
     = EVMClientSetup.NewEVMClient sampleDial sampleHexToECDSA samplePoint
         sampleAddress "http://localhost:8545" "7".
Proof.
  split; [reflexivity|].
  exact (NewEVMClient_prefix_optional sampleDial sampleHexToECDSA samplePoint
           sampleAddress "http://localhost:8545" "7" eq_refl).
Defined.

(** Only one prefix is removed, and only the lower-case one. *)
Example TrimPrefix_once :
  TrimPrefix "0x0x7" "0x" = "0x7"%string /\ TrimPrefix "0X7" "0x" = "0X7"%string.
Proof. split; reflexivity. Qed.

Example NewEVMClient_sample :
  EVMClientSetup.NewEVMClient sampleDial sampleHexToECDSA samplePoint sampleAddress
    "http://localhost:8545" "0x7"
  = (Some (mkEVMClient quietNode 7 [14; 21]), None).
Proof. reflexivity. Qed.

(** The dial comes first: with no node, the key is not looked at. *)
Example NewEVMClient_no_node :
  EVMClientSetup.NewEVMClient sampleDial sampleHexToECDSA samplePoint sampleAddress
    "http://localhost:1" "not a key"
  = (None, Some "failed to connect to EVM node: dial tcp: connection refused"%string).
Proof. reflexivity. Qed.

Lemma constructed_client_signs_with_its_key_witness :
  exists ethClient prv,
    sampleDial "http://localhost:8545" = inr ethClient
    /\ sampleHexToECDSA (TrimPrefix "0x7" "0x") = inr prv
    /\ Forall (fun signedTx =>
                 exists chainID,
                   PendingNonceAt ethClient (sampleAddress (samplePoint prv))
                   = inr (txNonce (inner signedTx))
                   /\ SuggestGasPrice ethClient = inr (txGasPrice (inner signedTx))
                   /\ NetworkID ethClient = inr chainID
                   /\ txGas (inner signedTx) = 3000000
                   /\ sampleSign (inner signedTx) chainID prv
                      = inr (sigV signedTx, sigR signedTx, sigS signedTx))
              (SendVerifyTransaction (fun _ => [0xaa]) sampleSign (fun _ => [0xab])
                 (mkEVMClient quietNode 7 [14; 21]) "0xaa" [1; 2; 3]).2.
Proof.
  exact (constructed_client_signs_with_its_key sampleDial sampleHexToECDSA
           samplePoint sampleAddress (fun _ => [0xaa]) sampleSign (fun _ => [0xab])
           "http://localhost:8545" "0x7" "0xaa" [1; 2; 3]
           (mkEVMClient quietNode 7 [14; 21]) eq_refl).
Defined.

End EVMClientSetupProofs.

(** * Properties of the deployment scripts *)

Module DeployVaultProofs.

Import DeployVault.

Lemma getNetworkConfig_local (vm : Vm) (chain : Chain) (txs : list Broadcast) :
  chainid chain = 31337 ->
  _getNetworkConfig vm chain txs
  = (Ret (mkNetworkConfig 0xC89Ce4735882C9F0f0FE26686c53074E09B0D550 10003 2
            0x0d6fe810321185c97a0e94200f998bcae787aaddf953a03b14ec5da3b6838bad),
     txs).
Proof. intros H. unfold _getNetworkConfig. rewrite H. reflexivity. Qed.

Lemma getNetworkConfig_testnet (vm : Vm) (chain : Chain) (txs : list Broadcast)
      (w c f e : Z) :
  chainid chain = 421614 ->
  envOrAddress vm "WORMHOLE_ADDRESS" 0x6b9C8671cdDC8dEab9c719bB87cBd3e782bA6a35
  = inr w ->
  envOrUint vm "WORMHOLE_CHAIN_ID" 10003 = inr c ->
  envOrUint vm "FINALITY" 2 = inr f ->
  envOrBytes32 vm "AZTEC_EMITTER_ADDRESS"
    0x0d6fe810321185c97a0e94200f998bcae787aaddf953a03b14ec5da3b6838bad = inr e ->
  _getNetworkConfig vm chain txs
  = (Ret (mkNetworkConfig w (c mod 65536) (f mod 256) e), txs).
Proof.
  intros H Hw Hc Hf He. unfold _getNetworkConfig. rewrite H. cbn [Z.eqb Pos.eqb].
  unfold bind, lift. rewrite Hw, Hc, Hf, He. reflexivity.
Qed.

Lemma getNetworkConfig_pure (vm : Vm) (chain : Chain) (txs : list Broadcast) :
  (_getNetworkConfig vm chain txs).2 = txs.
Proof.
  unfold _getNetworkConfig, bind, lift, ret, throw.
  destruct (chainid chain =? 31337); [reflexivity|].
  destruct (chainid chain =? 421614); [|reflexivity].
  destruct (envOrAddress _ _ _); [reflexivity|].
  destruct (envOrUint _ "WORMHOLE_CHAIN_ID" _); [reflexivity|].
  destruct (envOrUint _ "FINALITY" _); [reflexivity|].
  destruct (envOrBytes32 _ _ _); reflexivity.
Qed.

(** X15. [_getNetworkConfig] supports two chains. On chain 31337 it returns
    the fixed local configuration whatever the environment holds; on any
    chain other than 31337 and 421614 it reverts with the unsupported-chain
    message; and every configuration it returns has a Wormhole chain id
    below 65536 and a finality below 256. It sends no transaction. *)
Theorem getNetworkConfig_supported_chains (vm : Vm) (chain : Chain)
        (txs : list Broadcast) :
  let res := _getNetworkConfig vm chain txs in
  res.2 = txs
  /\ (chainid chain = 31337 ->
      res.1 = Ret (mkNetworkConfig 0xC89Ce4735882C9F0f0FE26686c53074E09B0D550
                     10003 2
                     0x0d6fe810321185c97a0e94200f998bcae787aaddf953a03b14ec5da3b6838bad))
  /\ (chainid chain <> 31337 -> chainid chain <> 421614 ->
      res.1 = Throw ("Unsupported chain ID: " ++ toString vm (chainid chain)
                       ++ " (only local and testnet supported)")%string)
  /\ (forall config,
        res.1 = Ret config ->
        (chainid chain = 31337 \/ chainid chain = 421614)
        /\ 0 <= wormholeChainId config < 65536
        /\ 0 <= finality config < 256).
Proof.
  cbv zeta. split; [apply getNetworkConfig_pure|]. split; [|split].
  - intros H. rewrite (getNetworkConfig_local _ _ _ H). reflexivity.
  - intros H1 H2. unfold _getNetworkConfig.
    apply Z.eqb_neq in H1, H2. rewrite H1, H2. reflexivity.
  - intros config. unfold _getNetworkConfig, bind, lift, ret, throw.
    destruct (Z.eqb_spec (chainid chain) 31337) as [H1|H1].
    { cbn. intros [= <-]. cbn. split; [left; exact H1|]. lia. }
    destruct (Z.eqb_spec (chainid chain) 421614) as [H2|H2]; [|discriminate].
    destruct (envOrAddress _ _ _); [discriminate|].
    destruct (envOrUint _ "WORMHOLE_CHAIN_ID" _) as [|c]; [discriminate|].
    destruct (envOrUint _ "FINALITY" _) as [|f]; [discriminate|].
    destruct (envOrBytes32 _ _ _); [discriminate|].
    cbn. intros [= <-]. cbn. split; [right; exact H2|].
    unfold uint16, uint8.
    pose proof (Z.mod_pos_bound c (2 ^ 16) ltac:(lia)).
    pose proof (Z.mod_pos_bound f (2 ^ 8) ltac:(lia)). lia.
Qed.

(** X16. On chain 421614 the numbers read from [WORMHOLE_CHAIN_ID] and
    [FINALITY] are cut to 16 and 8 bits without a revert: two environments
    whose chain ids agree modulo 65536 and whose finalities agree modulo 256
    give the same configuration. *)
Theorem getNetworkConfig_truncates (vm vm' : Vm) (chain : Chain)
        (txs : list Broadcast) (w c c' f f' e : Z) :
  chainid chain = 421614 ->
  envOrAddress vm "WORMHOLE_ADDRESS" 0x6b9C8671cdDC8dEab9c719bB87cBd3e782bA6a35
  = inr w ->
  envOrAddress vm' "WORMHOLE_ADDRESS" 0x6b9C8671cdDC8dEab9c719bB87cBd3e782bA6a35
  = inr w ->
  envOrUint vm "WORMHOLE_CHAIN_ID" 10003 = inr c ->
  envOrUint vm' "WORMHOLE_CHAIN_ID" 10003 = inr c' ->
  envOrUint vm "FINALITY" 2 = inr f ->
  envOrUint vm' "FINALITY" 2 = inr f' ->
  envOrBytes32 vm "AZTEC_EMITTER_ADDRESS"
    0x0d6fe810321185c97a0e94200f998bcae787aaddf953a03b14ec5da3b6838bad = inr e ->
  envOrBytes32 vm' "AZTEC_EMITTER_ADDRESS"
    0x0d6fe810321185c97a0e94200f998bcae787aaddf953a03b14ec5da3b6838bad = inr e ->
  c mod 65536 = c' mod 65536 ->
  f mod 256 = f' mod 256 ->
  _getNetworkConfig vm chain txs = _getNetworkConfig vm' chain txs
  /\ (_getNetworkConfig vm chain txs).1
     = Ret (mkNetworkConfig w (c mod 65536) (f mod 256) e).
Proof.
  intros H Hw Hw' Hc Hc' Hf Hf' He He' Hcc Hff.
  rewrite (getNetworkConfig_testnet vm chain txs w c f e) by assumption.
  rewrite (getNetworkConfig_testnet vm' chain txs w c' f' e) by assumption.
  rewrite Hcc, Hff. split; reflexivity.
Qed.

Lemma getNetworkConfig_truncates_witness :
  _getNetworkConfig (sampleVm (Some 75539) (Some 258)) (sampleChain 421614) []
  = _getNetworkConfig (sampleVm None None) (sampleChain 421614) []
  /\ (_getNetworkConfig (sampleVm (Some 75539) (Some 258)) (sampleChain 421614) []).1
     = Ret (mkNetworkConfig 0x6b9C8671cdDC8dEab9c719bB87cBd3e782bA6a35
              (75539 mod 65536) (258 mod 256)
              0x0d6fe810321185c97a0e94200f998bcae787aaddf953a03b14ec5da3b6838bad).
Proof.
  exact (getNetworkConfig_truncates
           (sampleVm (Some 75539) (Some 258)) (sampleVm None None)
           (sampleChain 421614) []
           0x6b9C8671cdDC8dEab9c719bB87cBd3e782bA6a35 75539 10003 258 2
           0x0d6fe810321185c97a0e94200f998bcae787aaddf953a03b14ec5da3b6838bad
           eq_refl eq_refl eq_refl eq_refl eq_refl eq_refl eq_refl eq_refl eq_refl
           eq_refl eq_refl).
Defined.

(** On the local chain the optional variables are not read. *)
Example getNetworkConfig_local_ignores_overrides :
  (_getNetworkConfig (sampleVm (Some 1) (Some 200)) (sampleChain 31337) []).1
  = Ret (mkNetworkConfig 0xC89Ce4735882C9F0f0FE26686c53074E09B0D550 10003 2
           0x0d6fe810321185c97a0e94200f998bcae787aaddf953a03b14ec5da3b6838bad).
Proof. reflexivity. Qed.

Lemma run_cases (vm : Vm) (chain : Chain) :
  (exists key receiver config donation vault,
      envUint vm "PRIVATE_KEY" = inr key
      /\ envAddress vm "DONATION_RECEIVER" = inr receiver
      /\ (_getNetworkConfig vm chain []).1 = Ret config
      /\ create chain (Some key) (NewDonation receiver) = inr donation
      /\ create chain (Some key)
                (NewVault (wormholeAddress config) (wormholeChainId config)
                          (chainid chain) (finality config) donation)
         = inr vault
      /\ run vm chain []
         = (Ret (vault, donation),
            [NewDonation receiver;
             NewVault (wormholeAddress config) (wormholeChainId config)
                      (chainid chain) (finality config) donation;
             RegisterEmitter vault 52 (aztecEmitter config)]))
  \/ (exists e txs,
         run vm chain [] = (Throw e, txs)
         /\ (txs = []
             \/ exists receiver config donation,
                  (_getNetworkConfig vm chain []).1 = Ret config
                  /\ (txs = [NewDonation receiver]
                      \/ txs = [NewDonation receiver;
                                NewVault (wormholeAddress config)
                                         (wormholeChainId config)
                                         (chainid chain) (finality config)
                                         donation]))).
Proof.
  unfold run, new, broadcast, require, lift, bind, ret, throw, modify.
  destruct (envUint vm "PRIVATE_KEY") as [e|key] eqn:Hkey;
    [right; eauto 6|].
  destruct (envAddress vm "DONATION_RECEIVER") as [e|receiver] eqn:Hreceiver;
    [right; eauto 6|].
  pose proof (getNetworkConfig_pure vm chain []) as Hpure.
  destruct (_getNetworkConfig vm chain []) as [[config|e|n] txs] eqn:Hconfig;
    cbn [fst snd] in Hpure; subst txs.
  2:{ right; eauto 6. }
  2:{ exfalso. revert Hconfig.
      unfold _getNetworkConfig, bind, lift, ret, throw.
      destruct (chainid chain =? 31337); [discriminate|].
      destruct (chainid chain =? 421614); [|discriminate].
      destruct (envOrAddress _ _ _); [discriminate|].
      destruct (envOrUint _ "WORMHOLE_CHAIN_ID" _); [discriminate|].
      destruct (envOrUint _ "FINALITY" _); [discriminate|].
      destruct (envOrBytes32 _ _ _); discriminate. }
  destruct (addr vm key) as [e|deployer]; [right; eauto 6|].
  destruct (startBroadcast vm (Some key)) as [e|]; [right; eauto 6|].
  destruct (create chain (Some key) (NewDonation receiver)) as [e|donation] eqn:Hd;
    [right; eauto 6|].
  cbn [app].
  destruct (create chain (Some key) (NewVault _ _ _ _ donation)) as [e|vault] eqn:Hv.
  { right. do 2 eexists. split; [reflexivity|]. right.
    exists receiver, config, donation. split; [reflexivity|]. left. reflexivity. }
  cbn [app].
  destruct (call chain (Some key) (RegisterEmitter vault 52 _)) as [e|].
  { right. do 2 eexists. split; [reflexivity|]. right.
    exists receiver, config, donation. split; [reflexivity|]. right. reflexivity. }
  left. exists key, receiver, config, donation, vault. cbn [fst snd app]. auto 7.
Qed.

(** X17. A run of the deployment script that returns has sent exactly three
    transactions, in this order: the creation of the Donation contract for
    the receiver read from [DONATION_RECEIVER], the creation of the Vault
    with the network configuration, the chain's own id and the address of
    that Donation contract, and the registration of the configured emitter
    for chain 52 on that Vault; it returns the two new addresses. A run that
    reverts has sent no registration, and none at all on a chain other than
    31337 and 421614. *)
Theorem run_transactions (vm : Vm) (chain : Chain) :
  let res := run vm chain [] in
  match res.1 with
  | Ret (vault, donation) =>
      exists key receiver config,
        envUint vm "PRIVATE_KEY" = inr key
        /\ envAddress vm "DONATION_RECEIVER" = inr receiver
        /\ (_getNetworkConfig vm chain []).1 = Ret config
        /\ (chainid chain = 31337 \/ chainid chain = 421614)
        /\ create chain (Some key) (NewDonation receiver) = inr donation
        /\ res.2 = [NewDonation receiver;
                    NewVault (wormholeAddress config) (wormholeChainId config)
                             (chainid chain) (finality config) donation;
                    RegisterEmitter vault 52 (aztecEmitter config)]
  | Throw e =>
      (forall vault c emitter, ~ In (RegisterEmitter vault c emitter) res.2)
      /\ (chainid chain <> 31337 -> chainid chain <> 421614 -> res.2 = [])
  | Exit _ => False
  end.
Proof.
  cbv zeta.
  assert (Hchain : forall config, (_getNetworkConfig vm chain []).1 = Ret config ->
                                  chainid chain = 31337 \/ chainid chain = 421614).
  { intros config. unfold _getNetworkConfig, throw.
    destruct (Z.eqb_spec (chainid chain) 31337); [auto|].
    destruct (Z.eqb_spec (chainid chain) 421614); [auto|discriminate]. }
  destruct (run_cases vm chain)
    as [(key & receiver & config & donation & vault & Hkey & Hreceiver & Hconfig
         & Hd & Hv & ->)
       |(e & txs & -> & Htxs)]; cbn [fst snd].
  - exists key, receiver, config. eauto 8.
  - destruct Htxs as [->|(receiver & config & donation & Hconfig & [->| ->])].
    + split; [intros ? ? ? []|reflexivity].
    + split; [intros ? ? ? [|[]]; discriminate|].
      intros H1 H2. destruct (Hchain _ Hconfig); contradiction.
    + split; [intros ? ? ? [|[|[]]]; discriminate|].
      intros H1 H2. destruct (Hchain _ Hconfig); contradiction.
Qed.

Example run_testnet :
  run (sampleVm None None) (sampleChain 421614) []
  = (Ret (0xd2, 0xd1),
     [NewDonation 0xd0;
      NewVault 0x6b9C8671cdDC8dEab9c719bB87cBd3e782bA6a35 10003 421614 2 0xd1;
      RegisterEmitter 0xd2 52
        0x0d6fe810321185c97a0e94200f998bcae787aaddf953a03b14ec5da3b6838bad]).
Proof. reflexivity. Qed.

Example run_unsupported_chain :
  run (sampleVm None None) (sampleChain 1) []
  = (Throw "Unsupported chain ID: 1 (only local and testnet supported)", []).
Proof. vm_compute. reflexivity. Qed.

Lemma runLegacy_cases (vm : Vm) (chain : Chain) (r : Z * Z) :
  (runLegacy vm chain []).1 = Ret r ->
  (runLegacy vm chain []).2
  = [NewDonation 0x70997970C51812dc3A010C7d01b50e0d17dc79C8;
     NewVault 0x6b9C8671cdDC8dEab9c719bB87cBd3e782bA6a35 10003 (chainid chain) 2 r.2;
     RegisterEmitter r.1 52
       0x0d6fe810321185c97a0e94200f998bcae787aaddf953a03b14ec5da3b6838bad].
Proof.
  unfold runLegacy, new, broadcast, require, lift, bind, ret, throw, modify.
  cbv zeta.
  destruct (startBroadcast vm None); [discriminate|].
  destruct (create chain None (NewDonation _)) as [e|donation]; [discriminate|].
  cbn [app].
  destruct (create chain None (NewVault _ _ _ _ donation)) as [e|vault];
    [discriminate|].
  cbn [app].
  destruct (call chain None (RegisterEmitter vault 52 _)); [discriminate|].
  cbn. intros [= <-]. reflexivity.
Qed.

(** X18. On chain 421614 with none of the optional variables set, the
    deployment script and the earlier script with built-in constants deploy
    alike: when both return, they have sent the same three transactions but
    for the donation receiver and the addresses of the new contracts, with
    the same Wormhole address, chain id 10003, finality 2 and the same
    emitter registered for chain 52. *)
Theorem scripts_agree_on_testnet (vm vm' : Vm) (chain chain' : Chain)
        (r r' : Z * Z) :
  noOverrides vm ->
  chainid chain = 421614 -> chainid chain' = 421614 ->
  (run vm chain []).1 = Ret r ->
  (runLegacy vm' chain' []).1 = Ret r' ->
  map withoutAddresses (run vm chain []).2
  = map withoutAddresses (runLegacy vm' chain' []).2
  /\ map withoutAddresses (run vm chain []).2
     = [NewDonation 0;
        NewVault 0x6b9C8671cdDC8dEab9c719bB87cBd3e782bA6a35 10003 421614 2 0;
        RegisterEmitter 0 52
          0x0d6fe810321185c97a0e94200f998bcae787aaddf953a03b14ec5da3b6838bad].
Proof.
  intros (Ha & Hu & Hb) Hchain Hchain' Hrun Hlegacy.
  rewrite (runLegacy_cases vm' chain' r' Hlegacy), Hchain'.
  assert (Hconfig : (_getNetworkConfig vm chain []).1
                    = Ret (mkNetworkConfig 0x6b9C8671cdDC8dEab9c719bB87cBd3e782bA6a35
                             10003 2
                             0x0d6fe810321185c97a0e94200f998bcae787aaddf953a03b14ec5da3b6838bad)).
  { rewrite (getNetworkConfig_testnet vm chain [] _ 10003 2 _ Hchain
               (Ha _ _) (Hu _ _) (Hu _ _) (Hb _ _)). reflexivity. }
  destruct (run_cases vm chain)
    as [(key & receiver & config & donation & vault & _ & _ & Hconfig' & _ & _ & Heq)
       |(e & txs & Heq & _)]; rewrite Heq in *; [|discriminate].
  rewrite Hconfig in Hconfig'. injection Hconfig' as <-.
  cbn. rewrite Hchain. split; reflexivity.
Qed.

Lemma scripts_agree_on_testnet_witness :
  map withoutAddresses (run (sampleVm None None) (sampleChain 421614) []).2
  = map withoutAddresses (runLegacy (sampleVm None None) (sampleChain 421614) []).2.
Proof.
  refine (proj1 (scripts_agree_on_testnet (sampleVm None None) (sampleVm None None)
                   (sampleChain 421614) (sampleChain 421614) (0xd2, 0xd1) (0xd2, 0xd1)
                   _ eq_refl eq_refl eq_refl eq_refl)).
  unfold noOverrides. split; [|split]; intros name d; cbn;
    repeat (destruct (String.eqb _ _)); reflexivity.
Defined.

End DeployVaultProofs.

(** * Properties of the [.env] loader *)

Module TestDevnetProofs.

Import SendMessage SendMessageHelpers TestDevnet.

Lemma split_nonempty (sep : Z) (s : jsstring) : split sep s <> [].
Proof.
  induction s as [|c s IH]; cbn; [discriminate|].
  destruct (c =? sep); [discriminate|].
  destruct (split sep s); [contradiction | discriminate].
Qed.

Lemma split_without (sep : Z) (s : jsstring) :
  without sep s -> split sep s = [s].
Proof.
  induction 1 as [|c s Hc _ IH]; cbn; [reflexivity|].
  apply Z.eqb_neq in Hc. rewrite Hc, IH. reflexivity.
Qed.

Lemma split_first (sep : Z) (key rest : jsstring) :
  without sep key -> split sep (key ++ sep :: rest) = key :: split sep rest.
Proof.
  induction 1 as [|c s Hc _ IH]; cbn.
  - rewrite Z.eqb_refl. reflexivity.
  - apply Z.eqb_neq in Hc. rewrite Hc, IH. reflexivity.
Qed.

Lemma join_split (sep : Z) (s : jsstring) : join [sep] (split sep s) = s.
Proof.
  induction s as [|c s IH]; [reflexivity|]. cbn [split].
  destruct (Z.eqb_spec c sep) as [->|Hc].
  - pose proof (split_nonempty sep s) as Hne.
    destruct (split sep s) as [|p ps]; [contradiction|].
    cbn [join app] in *. rewrite IH. reflexivity.
  - pose proof (split_nonempty sep s) as Hne.
    destruct (split sep s) as [|p ps]; [contradiction|].
    destruct ps as [|q qs]; cbn [join app] in *; rewrite <- IH; reflexivity.
Qed.

Lemma split_join (sep : Z) (lines : list jsstring) :
  lines <> [] -> Forall (without sep) lines ->
  split sep (join [sep] lines) = lines.
Proof.
  induction lines as [|l lines IH]; [contradiction|].
  intros _ Hall. inversion Hall as [|? ? Hl Hrest]; subst.
  destruct lines as [|l2 lines].
  - cbn. apply split_without, Hl.
  - change (join [sep] (l :: l2 :: lines)) with (l ++ sep :: join [sep] (l2 :: lines)).
    rewrite (split_first _ _ _ Hl), IH by (discriminate || assumption).
    reflexivity.
Qed.

Lemma first_separator (sep : Z) (s : jsstring) :
  without sep s
  \/ exists key rest, without sep key /\ s = key ++ sep :: rest.
Proof.
  induction s as [|c s IH]; [left; constructor|].
  destruct (Z.eq_dec c sep) as [->|Hc].
  - right. exists [], s. split; [constructor | reflexivity].
  - destruct IH as [Hs|(key & rest & Hkey & ->)].
    + left. constructor; assumption.
    + right. exists (c :: key), rest. split; [constructor; assumption | reflexivity].
Qed.

Lemma trimStart_app (s t : jsstring) (c : Z) :
  isWhiteSpace c = false -> trimStart (s ++ c :: t) = trimStart s ++ c :: t.
Proof.
  intros Hc. induction s as [|x s IH]; cbn [app trimStart].
  - rewrite Hc. reflexivity.
  - destruct (isWhiteSpace x); [exact IH | reflexivity].
Qed.

Lemma trimStart_head (s : jsstring) (c : Z) (t : jsstring) :
  trimStart s = c :: t -> isWhiteSpace c = false.
Proof.
  induction s as [|x s IH]; cbn [trimStart]; [discriminate|].
  destruct (isWhiteSpace x) eqn:Hx; [exact IH|]. intros [= <- _]. exact Hx.
Qed.

Lemma trimStart_snoc (s : jsstring) (w : Z) :
  isWhiteSpace w = true ->
  trimStart (s ++ [w]) = match trimStart s with
                         | [] => []
                         | _ :: _ => trimStart s ++ [w]
                         end.
Proof.
  intros Hw. induction s as [|x s IH]; cbn [app trimStart].
  - rewrite Hw. reflexivity.
  - destruct (isWhiteSpace x); [exact IH | reflexivity].
Qed.

Lemma trimEnd_snoc (s : jsstring) (w : Z) :
  isWhiteSpace w = true -> trimEnd (s ++ [w]) = trimEnd s.
Proof.
  intros Hw. unfold trimEnd. rewrite rev_app_distr. cbn [rev app trimStart].
  rewrite Hw. reflexivity.
Qed.

Lemma trimEnd_cons (c : Z) (s : jsstring) :
  isWhiteSpace c = false -> trimEnd (c :: s) = c :: trimEnd s.
Proof.
  intros Hc. unfold trimEnd. cbn [rev].
  rewrite (trimStart_app _ [] c Hc), rev_app_distr. reflexivity.
Qed.

(** White space at the end of a string does not survive [trim]. *)
Lemma trim_snoc (s : jsstring) (w : Z) :
  isWhiteSpace w = true -> trim (s ++ [w]) = trim s.
Proof.
  intros Hw. unfold trim. rewrite (trimStart_snoc _ _ Hw).
  destruct (trimStart s) as [|c t] eqn:Hs; [reflexivity|].
  rewrite <- Hs. apply trimEnd_snoc, Hw.
Qed.

(** A line with a [=] is a comment exactly when its key is. *)
Lemma comment_by_key (key rest : jsstring) :
  startsWith (trim (key ++ 61 :: rest)) (codeUnits "#")
  = startsWith (trim key) (codeUnits "#").
Proof.
  unfold trim. rewrite (trimStart_app key rest 61 eq_refl).
  destruct (trimStart key) as [|c t] eqn:Hkey.
  - cbn [app]. rewrite (trimEnd_cons 61 rest eq_refl). reflexivity.
  - pose proof (trimStart_head _ _ _ Hkey) as Hc.
    cbn [app]. rewrite !(trimEnd_cons c _ Hc). reflexivity.
Qed.

Lemma assignment_none (line : jsstring) :
  without 61 line -> assignment line = None.
Proof.
  intros H. unfold assignment. rewrite (split_without _ _ H).
  cbn [length Nat.eqb negb andb]. rewrite andb_false_r. reflexivity.
Qed.

Lemma assignment_some (key rest : jsstring) :
  without 61 key ->
  assignment (key ++ 61 :: rest)
  = if (length key =? 0)%nat || startsWith (trim key) (codeUnits "#")
    then None
    else Some (trim key, trim rest).
Proof.
  intros H. unfold assignment. rewrite (split_first _ _ _ H).
  pose proof (split_nonempty 61 rest) as Hne.
  change (codeUnits "=") with [61]. rewrite join_split, comment_by_key.
  destruct (split 61 rest) as [|v vs]; [contradiction|].
  cbn [length Nat.eqb negb].
  destruct (length key =? 0)%nat; [reflexivity|].
  destruct (startsWith (trim key) (codeUnits "#")); reflexivity.
Qed.

(** X19. The loader splits a line at its first [=]. A line with no [=]
    assigns nothing. A line [key=rest] assigns nothing when the key is empty
    or, after trimming, begins with [#]; otherwise it assigns the trimmed
    rest of the line, later [=] signs included, to the trimmed key. Every
    line is of one of the two kinds. *)
Theorem assignment_at_first_equals (line : jsstring) :
  (without 61 line /\ assignment line = None)
  \/ (exists key rest,
         without 61 key
         /\ line = key ++ 61 :: rest
         /\ assignment line
            = if (length key =? 0)%nat || startsWith (trim key) (codeUnits "#")
              then None
              else Some (trim key, trim rest)).
Proof.
  destruct (first_separator 61 line) as [H|(key & rest & Hkey & ->)].
  - left. split; [exact H | apply assignment_none, H].
  - right. exists key, rest. split; [exact Hkey|]. split; [reflexivity|].
    apply assignment_some, Hkey.
Qed.

Example assignment_url :
  assignment (codeUnits " AZTEC_DEVNET_URL = http://localhost:8080/?a=b ")
  = Some (codeUnits "AZTEC_DEVNET_URL", codeUnits "http://localhost:8080/?a=b").
Proof. vm_compute. reflexivity. Qed.

(** A [#] after the value is part of the value; a key with white space in
    it is kept as it is. *)
Example assignment_trailing_comment :
  assignment (codeUnits "export KEY=1 # one")
  = Some (codeUnits "export KEY", codeUnits "1 # one").
Proof. vm_compute. reflexivity. Qed.

Lemma assignment_cr (line : jsstring) :
  assignment (line ++ [13]) = assignment line.
Proof.
  destruct (first_separator 61 line) as [H|(key & rest & Hkey & ->)].
  - rewrite (assignment_none _ H). apply assignment_none.
    apply Forall_app. split; [exact H|]. constructor; [discriminate | constructor].
  - rewrite <- app_assoc. cbn [app].
    rewrite !(assignment_some _ _ Hkey), (trim_snoc rest 13 eq_refl). reflexivity.
Qed.

Lemma loadEnv_omap (env : jsstring) (assigned : list (jsstring * jsstring)) :
  loadEnv env assigned = assigned ++ omap assignment (split 10 env).
Proof.
  unfold loadEnv. revert assigned.
  induction (split 10 env) as [|l ls IH]; intros assigned; cbn [fold_left].
  - cbn. rewrite app_nil_r. reflexivity.
  - rewrite IH. cbn [omap list_omap]. fold (omap assignment ls).
    destruct (assignment l); [rewrite <- app_assoc|]; reflexivity.
Qed.

Lemma loadEnv_lines (lines : list jsstring) (assigned : list (jsstring * jsstring)) :
  Forall (without 10) lines ->
  loadEnv (join [10] lines) assigned = assigned ++ omap assignment lines.
Proof.
  intros H. rewrite loadEnv_omap. destruct lines as [|l lines]; [reflexivity|].
  rewrite split_join by (discriminate || assumption). reflexivity.
Qed.

Lemma join_withCR (lines : list jsstring) :
  join [13; 10] lines = join [10] (withCR lines).
Proof.
  induction lines as [|l lines IH]; [reflexivity|].
  destruct lines as [|l2 lines]; [reflexivity|].
  change (join [13; 10] (l :: l2 :: lines))
    with (l ++ [13; 10] ++ join [13; 10] (l2 :: lines)).
  rewrite IH. cbn [withCR].
  destruct lines as [|l3 lines]; cbn [join withCR]; rewrite <- !app_assoc; reflexivity.
Qed.

Lemma withCR_without (lines : list jsstring) :
  Forall (without 10) lines -> Forall (without 10) (withCR lines).
Proof.
  induction 1 as [|l lines Hl Hrest IH]; [constructor|].
  destruct lines as [|l2 lines]; [constructor; [exact Hl | constructor]|].
  cbn [withCR]. constructor; [|exact IH].
  apply Forall_app. split; [exact Hl|]. constructor; [discriminate | constructor].
Qed.

Lemma omap_withCR (lines : list jsstring) :
  omap assignment (withCR lines) = omap assignment lines.
Proof.
  induction lines as [|l lines IH]; [reflexivity|].
  destruct lines as [|l2 lines]; [reflexivity|].
  change (withCR (l :: l2 :: lines)) with ((l ++ [13]) :: withCR (l2 :: lines)).
  change (omap assignment ((l ++ [13]) :: withCR (l2 :: lines)))
    with (match assignment (l ++ [13]) with
          | Some kv => kv :: omap assignment (withCR (l2 :: lines))
          | None => omap assignment (withCR (l2 :: lines))
          end).
  rewrite assignment_cr, IH. reflexivity.
Qed.

(** X20. Loading a file goes line by line and does not depend on the line
    ends: for lines without a line feed in them, the file with the lines
    joined by [\n] and the file with the lines joined by [\r\n] lead to
    the same assignments, namely those of the single lines, in the order of
    the lines, after the assignments made before. *)
Theorem loadEnv_line_ends (lines : list jsstring)
        (assigned : list (jsstring * jsstring)) :
  Forall (without 10) lines ->
  loadEnv (join [10] lines) assigned = assigned ++ omap assignment lines
  /\ loadEnv (join [13; 10] lines) assigned = loadEnv (join [10] lines) assigned.
Proof.
  intros H. split; [apply loadEnv_lines, H|].
  rewrite join_withCR, !loadEnv_lines by (try apply withCR_without; exact H).
  rewrite omap_withCR. reflexivity.
Qed.

Lemma loadEnv_line_ends_witness :
  loadEnv (join [13; 10] sampleLines) [] = loadEnv (join [10] sampleLines) [].
Proof.
  refine (proj2 (loadEnv_line_ends sampleLines [] _)).
  unfold sampleLines, without. repeat constructor; discriminate.
Defined.

Example loadEnv_sample :
  loadEnv (join [13; 10] sampleLines) []
  = [(codeUnits "AZTEC_DEVNET_URL", codeUnits "http://localhost:8080/?a=b")].
Proof. vm_compute. reflexivity. Qed.

End TestDevnetProofs.

(** * Properties of the nonce file *)

Module NonceFileProofs.

Import SendMessage SendMessageHelpers NonceFile.

Lemma codeUnits_String (c : ascii) (s : string) :
  codeUnits (String c s) = Z.of_N (N_of_ascii c) :: codeUnits s.
Proof. reflexivity. Qed.

Lemma pretty_N_char_value (d : N) :
  (d < 10)%N ->
  hexDigitValue (Z.of_N (N_of_ascii (pretty_N_char d))) = Some (Z.of_N d).
Proof.
  intros Hd.
  assert (d = 0 \/ d = 1 \/ d = 2 \/ d = 3 \/ d = 4 \/ d = 5 \/ d = 6 \/ d = 7
          \/ d = 8 \/ d = 9)%N as Hcases by lia.
  repeat (destruct Hcases as [->|Hcases]; [reflexivity|]). subst. reflexivity.
Qed.

(** Reading the digits that [pretty_N_go] puts in front of [s]. *)
Lemma pretty_N_go_value (x : N) :
  exists k, 0 <= k
            /\ forall s acc,
                 digitsValue 10 acc (codeUnits (pretty_N_go x s))
                 = digitsValue 10 (acc * 10 ^ k + Z.of_N x) (codeUnits s).
Proof.
  induction (N.lt_wf_0 x) as [x _ IH].
  destruct (N.eq_dec x 0%N) as [->|Hx].
  - exists 0. split; [lia|]. intros s acc. rewrite pretty_N_go_0. f_equal. lia.
  - assert (0 < x)%N as Hpos by lia.
    destruct (IH (x / 10)%N) as (k & Hk & Hgo); [apply N.div_lt; lia|].
    exists (k + 1). split; [lia|]. intros s acc.
    rewrite pretty_N_go_step by exact Hpos. rewrite Hgo, codeUnits_String.
    cbn [digitsValue].
    rewrite pretty_N_char_value by (apply N.mod_lt; lia).
    assert (Z.of_N (x mod 10) < 10) as Hlt.
    { pose proof (N.mod_lt x 10 ltac:(lia)). lia. }
    apply Z.ltb_lt in Hlt. rewrite Hlt. f_equal.
    rewrite Z.pow_add_r, Z.pow_1_r by lia.
    rewrite N2Z.inj_mod, N2Z.inj_div. change (Z.of_N 10) with 10.
    pose proof (Z.div_mod (Z.of_N x) 10 ltac:(lia)). lia.
Qed.

Lemma pretty_N_go_nonempty (x : N) (s : string) :
  s <> EmptyString -> pretty_N_go x s <> EmptyString.
Proof.
  revert s. induction (N.lt_wf_0 x) as [x _ IH]. intros s Hs.
  destruct (N.eq_dec x 0%N) as [->|Hx]; [rewrite pretty_N_go_0; exact Hs|].
  rewrite pretty_N_go_step by lia. apply IH; [apply N.div_lt; lia | discriminate].
Qed.

Lemma pretty_positive_digits (p : positive) :
  exists c rest, codeUnits (pretty (N.pos p)) = c :: rest
                 /\ digitsValue 10 0 (c :: rest) = Some (Z.pos p).
Proof.
  unfold pretty, pretty_N. destruct (decide (N.pos p = 0%N)) as [|_]; [discriminate|].
  destruct (pretty_N_go_value (N.pos p)) as (k & _ & Hgo).
  specialize (Hgo EmptyString 0).
  change (codeUnits "") with (@nil Z) in Hgo. cbn [digitsValue] in Hgo.
  rewrite Z.mul_0_l, Z.add_0_l in Hgo. change (Z.of_N (N.pos p)) with (Z.pos p) in Hgo.
  assert (Hne : pretty_N_go (N.pos p) "" <> EmptyString).
  { rewrite pretty_N_go_step by lia. apply pretty_N_go_nonempty. discriminate. }
  destruct (pretty_N_go (N.pos p) "") as [|a s]; [contradiction|].
  rewrite codeUnits_String in *. eexists _, _. split; [reflexivity | exact Hgo].
Qed.

Lemma digitsValue_digits (acc : Z) (s : jsstring) (v : Z) :
  digitsValue 10 acc s = Some v -> Forall (fun c => 48 <= c <= 57) s.
Proof.
  revert acc. induction s as [|c s IH]; intros acc; [constructor|].
  cbn [digitsValue]. unfold hexDigitValue.
  destruct ((48 <=? c) && (c <=? 57)) eqn:Hdigit.
  - destruct (c - 48 <? 10); [|discriminate]. intros H. constructor; [lia | eauto].
  - destruct ((97 <=? c) && (c <=? 102)) eqn:Hlow.
    { destruct (c - 87 <? 10) eqn:Hlt; [lia | discriminate]. }
    destruct ((65 <=? c) && (c <=? 70)) eqn:Hup; [|discriminate].
    destruct (c - 55 <? 10) eqn:Hlt; [lia | discriminate].
Qed.

Lemma isWhiteSpace_digit (c : Z) : 48 <= c <= 57 -> isWhiteSpace c = false.
Proof.
  intros H. unfold isWhiteSpace.
  repeat match goal with
         | |- context [?a =? ?b] =>
             replace (a =? b) with false by (symmetry; apply Z.eqb_neq; lia)
         | |- context [?a <=? ?b] =>
             replace (a <=? b) with false by (symmetry; apply Z.leb_gt; lia)
         end.
  reflexivity.
Qed.

(** A string with no white space at either end is its own [trim]. *)
Lemma trim_id (c : Z) (s : jsstring) :
  isWhiteSpace c = false ->
  Forall (fun x => isWhiteSpace x = false) s ->
  trim (c :: s) = c :: s.
Proof.
  intros Hc Hs. unfold trim, trimEnd. cbn [trimStart]. rewrite Hc.
  assert (Hrev : forall t, Forall (fun x => isWhiteSpace x = false) t ->
                           trimStart t = t).
  { intros [|x t] Ht; [reflexivity|]. inversion Ht as [|? ? Hx _]; subst.
    cbn [trimStart]. rewrite Hx. reflexivity. }
  rewrite Hrev, rev_involutive; [reflexivity|].
  apply Forall_rev. constructor; assumption.
Qed.

Lemma digits_not_white (s : jsstring) :
  Forall (fun c => 48 <= c <= 57) s -> Forall (fun x => isWhiteSpace x = false) s.
Proof.
  intros H. eapply Forall_impl; [exact H|]. intros; apply isWhiteSpace_digit; assumption.
Qed.

(** [BigInt(n.toString())] is [n]. *)
Lemma StringToBigInt_bigintToString (n : Z) :
  StringToBigInt (codeUnits (bigintToString n)) = Some n.
Proof.
  destruct n as [|p|p].
  - reflexivity.
  - change (bigintToString (Z.pos p)) with (pretty (N.pos p)).
    destruct (pretty_positive_digits p) as (c & rest & -> & Hval).
    pose proof (digitsValue_digits _ _ _ Hval) as Hdigits.
    inversion Hdigits as [|? ? Hc Hrest]; subst.
    unfold StringToBigInt.
    rewrite (trim_id c rest (isWhiteSpace_digit c Hc) (digits_not_white _ Hrest)).
    cbv beta iota.
    replace (c =? 45) with false by (symmetry; apply Z.eqb_neq; lia).
    replace (c =? 43) with false by (symmetry; apply Z.eqb_neq; lia).
    unfold parseDigits. rewrite Hval. reflexivity.
  - destruct (pretty_positive_digits p) as (c & rest & Heq & Hval).
    pose proof (digitsValue_digits _ _ _ Hval) as Hdigits.
    change (codeUnits (bigintToString (Z.neg p)))
      with (45 :: codeUnits (pretty (N.pos p))).
    rewrite Heq. unfold StringToBigInt.
    rewrite (trim_id 45 (c :: rest) eq_refl (digits_not_white _ Hdigits)).
    cbv beta iota. rewrite Z.eqb_refl. unfold parseDigits. rewrite Hval. reflexivity.
Qed.

Lemma bigintToString_nonempty (n : Z) :
  (length (codeUnits (bigintToString n)) =? 0)%nat = false.
Proof.
  destruct n as [|p|p]; [reflexivity| |].
  - change (bigintToString (Z.pos p)) with (pretty (N.pos p)).
    destruct (pretty_positive_digits p) as (c & rest & -> & _). reflexivity.
  - change (codeUnits (bigintToString (Z.neg p)))
      with (45 :: codeUnits (pretty (N.pos p))). reflexivity.
Qed.

Lemma getProperty_token (Number : Type) (tokenNonce walletNonce : Z) :
  getProperty Number (nonceData Number tokenNonce walletNonce) "token_nonce"
  = inr (JString (codeUnits (bigintToString tokenNonce))).
Proof. reflexivity. Qed.

Lemma getProperty_wallet (Number : Type) (tokenNonce walletNonce : Z) :
  getProperty Number (nonceData Number tokenNonce walletNonce) "wallet_nonce"
  = inr (JString (codeUnits (bigintToString walletNonce))).
Proof. reflexivity. Qed.

Section Values.

Variable Number : Type.
Variable isZeroOrNaN : Number -> bool.
Variable JSONparse : string -> exn + JSValue Number.
Variable NumberToBigInt : Number -> exn + Z.
Variable ObjectToBigInt : JSValue Number -> exn + Z.

Local Abbreviation loadNoncesFromFile :=
  (loadNoncesFromFile Number isZeroOrNaN JSONparse NumberToBigInt ObjectToBigInt).
Local Abbreviation initNonces :=
  (initNonces Number isZeroOrNaN JSONparse NumberToBigInt ObjectToBigInt).
Local Abbreviation BigInt := (BigInt Number NumberToBigInt ObjectToBigInt).
Local Abbreviation parsesSaved := (parsesSaved Number JSONparse).

Ltac js_step := cbv beta iota delta [ret throw bind get liftJS fst snd].

Lemma nextFault_readsOnly (w : World) : readsOnly w (nextFault w).2.
Proof. unfold nextFault, readsOnly. destruct (faults w); cbn; auto 7. Qed.

Lemma BigInt_saved (n : Z) :
  ToBoolean Number isZeroOrNaN (JString (codeUnits (bigintToString n))) = true
  /\ BigInt (JString (codeUnits (bigintToString n))) = inr n.
Proof.
  cbn. rewrite bigintToString_nonempty, StringToBigInt_bigintToString. auto.
Qed.

(** Reading a file that holds what [saveNoncesToFile] writes. *)
Lemma loadNoncesFromFile_saved (tokenNonce walletNonce : Z) (w : World) :
  nonceFile w = Some (stringifyNonceData (bigintToString tokenNonce)
                                         (bigintToString walletNonce)) ->
  (nextFault w).1 = Ret None ->
  parsesSaved tokenNonce walletNonce ->
  loadNoncesFromFile w = (Ret (tokenNonce, walletNonce), (nextFault w).2).
Proof.
  intros Hfile Hfault Hparse.
  pose proof (nextFault_readsOnly w) as (_ & _ & _ & _ & Hfile' & _).
  unfold NonceFile.loadNoncesFromFile, try_catch, existsSync, readFileSync,
    bind, get, ret.
  rewrite Hfile. cbv beta iota.
  destruct (nextFault w) as [r w1]. cbn [fst snd] in *. subst r.
  rewrite Hfile', Hfile. cbv beta iota.
  unfold NonceFile.parsesSaved in Hparse. rewrite Hparse.
  destruct (BigInt_saved tokenNonce) as [Ht1 Ht2].
  destruct (BigInt_saved walletNonce) as [Hw1 Hw2].
  cbv beta iota delta [liftJS ret].
  rewrite (getProperty_token _ tokenNonce walletNonce). cbv beta iota.
  rewrite Ht1, Ht2. cbv beta iota.
  rewrite (getProperty_wallet _ tokenNonce walletNonce). cbv beta iota.
  rewrite Hw1, Hw2. reflexivity.
Qed.

Lemma loadNoncesFromFile_cases (w : World) :
  (exists loaded, (loadNoncesFromFile w).1 = Ret loaded)
  /\ ((loadNoncesFromFile w).2 = w \/ (loadNoncesFromFile w).2 = (nextFault w).2).
Proof.
  unfold NonceFile.loadNoncesFromFile, try_catch, existsSync, readFileSync.
  js_step.
  destruct (nonceFile w) as [text|] eqn:Hfile; js_step; [|eauto].
  pose proof (nextFault_readsOnly w) as (_ & _ & _ & _ & Hfile' & _).
  assert (Hret : exists f, (nextFault w).1 = Ret f)
    by (unfold nextFault; destruct (faults w); cbn; eauto).
  destruct Hret as [f Hret].
  destruct (nextFault w) as [r w1]. cbn [fst snd] in *. subst r.
  destruct f as [e|]; js_step; [eauto|].
  rewrite Hfile', Hfile. js_step.
  destruct (JSONparse text) as [e|value]; js_step; [eauto|].
  destruct (getProperty Number value "token_nonce") as [e|token_nonce]; js_step;
    [eauto|].
  destruct (ToBoolean Number isZeroOrNaN token_nonce); js_step;
    [destruct (BigInt token_nonce) as [e|tokenNonce]; js_step; [eauto|]|];
    (destruct (getProperty Number value "wallet_nonce") as [e|wallet_nonce];
       js_step; [eauto|]);
    (destruct (ToBoolean Number isZeroOrNaN wallet_nonce); js_step;
       [destruct (BigInt wallet_nonce) as [e|walletNonce]; js_step|]); eauto.
Qed.

(** X21. [loadNoncesFromFile] always returns a pair of nonces: it never
    throws, and it changes neither the current nonces nor the file. It
    returns the defaults 67 and 100042 when there is no file, when the file
    cannot be read, when its text is not JSON, and when the text is JSON for
    [null]. *)
Theorem loadNoncesFromFile_never_throws (w : World) :
  let res := loadNoncesFromFile w in
  (exists loaded, res.1 = Ret loaded)
  /\ readsOnly w res.2
  /\ (nonceFile w = None -> res = (Ret (67, 100042), w))
  /\ (forall text e,
        nonceFile w = Some text -> (nextFault w).1 = Ret (Some e) ->
        res.1 = Ret (67, 100042))
  /\ (forall text,
        nonceFile w = Some text ->
        (exists e, JSONparse text = inl e) \/ JSONparse text = inr JNull ->
        res.1 = Ret (67, 100042)).
Proof.
  cbv zeta. destruct (loadNoncesFromFile_cases w) as [Hret Hworld].
  split; [exact Hret|]. split; [|split; [|split]].
  - destruct Hworld as [-> | ->]; [unfold readsOnly; auto 7 | apply nextFault_readsOnly].
  - intros Hfile. unfold NonceFile.loadNoncesFromFile, try_catch, existsSync, bind,
      get, ret. rewrite Hfile. reflexivity.
  - intros text e Hfile Hfault.
    unfold NonceFile.loadNoncesFromFile, try_catch, existsSync, readFileSync,
      bind, get, ret, throw.
    rewrite Hfile. cbv beta iota.
    destruct (nextFault w) as [r w1]. cbn [fst] in Hfault. subst r. reflexivity.
  - intros text Hfile Hparse.
    pose proof (nextFault_readsOnly w) as (_ & _ & _ & _ & Hfile' & _).
    unfold NonceFile.loadNoncesFromFile, try_catch, existsSync, readFileSync,
      bind, get, ret, throw, liftJS.
    rewrite Hfile. cbv beta iota.
    assert (Hfault : exists f, (nextFault w).1 = Ret f)
      by (unfold nextFault; destruct (faults w); cbn; eauto).
    destruct Hfault as [f Hfault].
    destruct (nextFault w) as [r w1]. cbn [fst snd] in *. subst r.
    destruct f as [e|]; [reflexivity|].
    rewrite Hfile', Hfile. cbv beta iota.
    destruct Hparse as [[e ->] | ->]; reflexivity.
Qed.

(** X22. Saving and loading is a round trip for every pair of nonces, zero
    and negative ones included: when the environment fails no call and
    [JSON.parse] reads back the object that was written, [loadNoncesFromFile]
    after [saveNoncesToFile] returns the two nonces that were saved. The
    decimal text of a nonce is never empty, so the defaults are not taken,
    and [BigInt] of that text is the nonce. *)
Theorem save_then_load_round_trip (tokenNonce walletNonce : Z) (w : World) :
  faults w = [] ->
  parsesSaved tokenNonce walletNonce ->
  ((saveNoncesToFile tokenNonce walletNonce >> loadNoncesFromFile) w).1
  = Ret (tokenNonce, walletNonce)
  /\ ToBoolean Number isZeroOrNaN
       (JString (codeUnits (bigintToString tokenNonce))) = true
  /\ BigInt (JString (codeUnits (bigintToString tokenNonce))) = inr tokenNonce.
Proof.
  intros Hfaults Hparse. split; [|apply BigInt_saved].
  assert (Hsave : saveNoncesToFile tokenNonce walletNonce w
                  = (Ret tt,
                     mkWorld (currentTokenNonce w) (currentWalletNonce w) (pxe w)
                       (nodeClient w)
                       (Some (stringifyNonceData (bigintToString tokenNonce)
                                                 (bigintToString walletNonce)))
                       (trace w
                          ++ [WriteFile (stringifyNonceData
                                           (bigintToString tokenNonce)
                                           (bigintToString walletNonce))]
                          ++ [Console (SavedNonces tokenNonce walletNonce)])
                       [])).
  { destruct w as [t n p c f tr fs]. cbn [faults] in Hfaults. subst fs.
    unfold saveNoncesToFile, try_catch, writeFileSync, console, emit, bind,
      modify, nextFault, ret. cbn. rewrite <- app_assoc. reflexivity. }
  unfold bind at 1. rewrite Hsave.
  rewrite (loadNoncesFromFile_saved tokenNonce walletNonce); try reflexivity.
  exact Hparse.
Qed.

(** X23. Nonces go on after a restart: when a call of [getNextTokenNonce]
    has returned and the process starts again with the file that call left,
    [init] takes the saved nonces as the current ones, so the next token
    nonce is one more than the last one returned and the next wallet nonce
    one more than the saved wallet nonce, not 68 and 100043 again. *)
Theorem nonces_continue_after_restart (w : World) :
  faults w = [] ->
  parsesSaved (currentTokenNonce w + 1) (currentWalletNonce w) ->
  let file := nonceFile (getNextTokenNonce w).2 in
  (getNextTokenNonce w).1 = Ret (currentTokenNonce w + 1)
  /\ ((initNonces >> getNextTokenNonce) (initialWorld file [])).1
     = Ret (currentTokenNonce w + 2)
  /\ ((initNonces >> getNextWalletNonce) (initialWorld file [])).1
     = Ret (currentWalletNonce w + 1).
Proof.
  intros Hfaults Hparse. cbv zeta.
  assert (Hnext : (getNextTokenNonce w).1 = Ret (currentTokenNonce w + 1)
                  /\ nonceFile (getNextTokenNonce w).2
                     = Some (stringifyNonceData
                               (bigintToString (currentTokenNonce w + 1))
                               (bigintToString (currentWalletNonce w)))).
  { destruct w as [t n p c f tr fs]. cbn [faults] in Hfaults. subst fs.
    split; reflexivity. }
  destruct Hnext as [Hret Hfile]. rewrite Hfile. split; [exact Hret|].
  set (text := stringifyNonceData (bigintToString (currentTokenNonce w + 1))
                                  (bigintToString (currentWalletNonce w))).
  assert (Hinit : initNonces (initialWorld (Some text) [])
                  = (Ret tt,
                     mkWorld (currentTokenNonce w + 1) (currentWalletNonce w)
                             None None (Some text) [] [])).
  { unfold NonceFile.initNonces. unfold bind at 1.
    rewrite (loadNoncesFromFile_saved (currentTokenNonce w + 1)
               (currentWalletNonce w)); [reflexivity..|exact Hparse]. }
  split; unfold bind at 1; rewrite Hinit.
  - replace (currentTokenNonce w + 2) with (currentTokenNonce w + 1 + 1) by lia.
    reflexivity.
  - reflexivity.
Qed.

End Values.

Lemma save_then_load_round_trip_witness :
  ((saveNoncesToFile 0 (-5)
    >> NonceFile.loadNoncesFromFile Z (Z.eqb 0)
         (sampleParse (stringifyNonceData "0" "-5") (nonceData Z 0 (-5)))
         (fun n => inr n) (fun _ => inl (Raised "SyntaxError")))
     (initialWorld None [])).1
  = Ret (0, -5).
Proof.
  refine (proj1 (save_then_load_round_trip Z (Z.eqb 0)
                   (sampleParse (stringifyNonceData "0" "-5") (nonceData Z 0 (-5)))
                   (fun n => inr n) (fun _ => inl (Raised "SyntaxError"))
                   0 (-5) (initialWorld None []) eq_refl _)).
  reflexivity.
Defined.

Lemma nonces_continue_after_restart_witness :
  ((NonceFile.initNonces Z (Z.eqb 0)
      (sampleParse (stringifyNonceData "68" "100042") (nonceData Z 68 100042))
      (fun n => inr n) (fun _ => inl (Raised "SyntaxError"))
    >> getNextTokenNonce)
     (initialWorld (nonceFile (getNextTokenNonce (initialWorld None [])).2) [])).1
  = Ret 69.
Proof.
  refine (proj1 (proj2 (nonces_continue_after_restart Z (Z.eqb 0)
                   (sampleParse (stringifyNonceData "68" "100042")
                                (nonceData Z 68 100042))
                   (fun n => inr n) (fun _ => inl (Raised "SyntaxError"))
                   (initialWorld None []) eq_refl _))).
  reflexivity.
Defined.

(** A nonce written by hand as the number 0 is falsy and gives the default;
    a field that [BigInt] rejects makes both nonces the defaults. *)
Example loadNoncesFromFile_number_zero :
  (NonceFile.loadNoncesFromFile Z (Z.eqb 0)
     (sampleParse "{}" (JObject [("token_nonce"%string, JNumber 0);
                                 ("wallet_nonce"%string, JString (codeUnits "7"))]))
     (fun n => inr n) (fun _ => inl (Raised "SyntaxError"))
     (initialWorld (Some "{}"%string) [])).1
  = Ret (67, 7).
Proof. vm_compute. reflexivity. Qed.

Example loadNoncesFromFile_bad_field :
  (NonceFile.loadNoncesFromFile Z (Z.eqb 0)
     (sampleParse "{}" (JObject [("token_nonce"%string, JString (codeUnits "70"));
                                 ("wallet_nonce"%string, JString (codeUnits "7.5"))]))
     (fun n => inr n) (fun _ => inl (Raised "SyntaxError"))
     (initialWorld (Some "{}"%string) [])).1
  = Ret (67, 100042).
Proof. vm_compute. reflexivity. Qed.

End NonceFileProofs.

(** * Properties of the Counter deployment script *)

Module DeployCounterProofs.

Import DeployCounter.

(** X24. [deploy-counter.mjs] cannot finish: whichever of its calls into
    the libraries and the platform return and whichever throw, the script
    ends with exit code 1, never with 0, and it never calls [writeFileSync],
    so [deployment.json] is not written. The object it builds for that file
    names [privateKeyHex] and [signingKeyHex], which nothing declares; when
    no call fails, the contract has been deployed by the time the
    [ReferenceError] is thrown. *)
Theorem script_never_succeeds (fs : list (option exn)) :
  let res := script (mkWorld fs []) in
  res.1 = Exit 1
  /\ Forall (fun name => name <> "writeFileSync"%string) (called res.2)
  /\ (Forall (fun f => f = None) fs ->
      (deploymentInfo (mkWorld [] [])).1
      = Throw "ReferenceError: privateKeyHex is not defined"
      /\ Exists (fun name => name = "Contract.deploy"%string) (called res.2)).
Proof.
  cbv zeta.
  split; [|split].
  - do 16 (destruct fs as [|[?|] fs]; [reflexivity | reflexivity |]). reflexivity.
  - do 16 (destruct fs as [|[?|] fs];
           [vm_compute; repeat constructor; discriminate
           |vm_compute; repeat constructor; discriminate|]).
    vm_compute; repeat constructor; discriminate.
  - intros Hall. split; [reflexivity|].
    do 16 (destruct fs as [|[?|] fs];
           [vm_compute; do 11 apply Exists_cons_tl; apply Exists_cons_hd; reflexivity
           |inversion Hall; discriminate
           |apply Forall_inv_tail in Hall]).
    vm_compute. do 11 apply Exists_cons_tl. apply Exists_cons_hd. reflexivity.
Qed.

(** With every call answering, the run gets as far as the date. *)
Example script_quiet_run :
  script (mkWorld [] [])
  = (Exit 1,
     mkWorld []
       ["createPXEClient"; "getInitialTestAccountsWallets"; "wallet.getAddress";
        "accountAddress.toString"; "getContractInstanceFromInstantiationParams";
        "sponsoredFPCInstance.address.toString"; "new SponsoredFeePaymentMethod";
        "readFileSync"; "JSON.parse"; "loadContractArtifact";
        "accountAddress.toString"; "Contract.deploy"; "counter.address.toString";
        "accountAddress.toString"; "sponsoredFPCInstance.address.toString";
        "new Date().toISOString"]%string).
Proof. vm_compute. reflexivity. Qed.

End DeployCounterProofs.

(** * Properties of the artifact copier *)

Module CopyArtifactsProofs.

Import SendMessage CopyArtifacts.

(** The loop copies the files in order and stops at the first call of
    [copyFileSync] that throws. *)
Lemma copyAll_cases (jsonFiles : list jsstring) (w : World) :
  directory (copyAll jsonFiles w).2 = directory w
  /\ (((copyAll jsonFiles w).1 = Ret tt
       /\ copied (copyAll jsonFiles w).2 = copied w ++ jsonFiles
       /\ forall k e, (k < length jsonFiles)%nat -> faults w !! k <> Some (Some e))
      \/ exists k e,
           (k < length jsonFiles)%nat
           /\ faults w !! k = Some (Some e)
           /\ (forall j e', (j < k)%nat -> faults w !! j <> Some (Some e'))
           /\ (copyAll jsonFiles w).1 = Throw e
           /\ copied (copyAll jsonFiles w).2 = copied w ++ take k jsonFiles).
Proof.
  revert w. induction jsonFiles as [|file rest IH]; intros w.
  - split; [reflexivity|]. left. cbn. rewrite app_nil_r.
    split; [reflexivity|]. split; [reflexivity|]. intros k e Hk. lia.
  - assert (Hstep : copyAll (file :: rest) w
                    = match copyFileSync file w with
                      | (Ret _, w1) => copyAll rest w1
                      | (Throw e, w1) => (Throw e, w1)
                      | (Exit n, w1) => (Exit n, w1)
                      end) by reflexivity.
    rewrite Hstep. clear Hstep. unfold copyFileSync.
    destruct w as [dir [|[e|] fs] done]; cbn [faults directory copied fst snd];
      cbv beta iota.
    + specialize (IH (mkWorld dir [] (done ++ [file]))).
      destruct (copyAll rest (mkWorld dir [] (done ++ [file]))) as [r w'].
      cbn [fst snd faults directory copied] in *.
      destruct IH as [Hdir [(Hr & Hc & _)|(k & e & _ & Hk & _)]];
        [|rewrite lookup_nil in Hk; discriminate].
      split; [destruct r; exact Hdir|]. left. subst r.
      split; [reflexivity|]. split; [rewrite Hc, <- app_assoc; reflexivity|].
      intros k e _. rewrite lookup_nil. discriminate.
    + split; [reflexivity|]. right. exists 0%nat, e. cbn.
      split; [lia|]. split; [reflexivity|]. split; [intros; lia|].
      rewrite app_nil_r. auto.
    + specialize (IH (mkWorld dir fs (done ++ [file]))).
      destruct (copyAll rest (mkWorld dir fs (done ++ [file]))) as [r w'].
      cbn [fst snd faults directory copied] in *.
      destruct IH as [Hdir [(Hr & Hc & Hok)|(k & e & Hlt & Hk & Hbefore & Hr & Hc)]].
      * split; [destruct r; exact Hdir|]. left. subst r.
        split; [reflexivity|]. split; [rewrite Hc, <- app_assoc; reflexivity|].
        intros [|k] e Hk; cbn; [discriminate|]. apply Hok. cbn in Hk. lia.
      * split; [destruct r; exact Hdir|]. right. exists (S k), e. subst r.
        split; [cbn; lia|]. split; [exact Hk|].
        split; [intros [|j] e' Hj; cbn; [discriminate | apply Hbefore; lia]|].
        split; [reflexivity|]. rewrite Hc, <- app_assoc. reflexivity.
Qed.

Lemma jsonFilesOf_json (files : list jsstring) :
  Forall (fun file => endsWith file (codeUnits ".json") = true) (jsonFilesOf files).
Proof.
  apply Forall_forall. intros file Hin.
  apply list_elem_of_filter in Hin. apply Hin.
Qed.

Lemma script_unfold (files : list jsstring) (fs : list (option exn)) :
  script (mkWorld (inr files) fs [])
  = match jsonFilesOf files with
    | [] => (Exit 0, mkWorld (inr files) fs [])
    | _ :: _ =>
        match copyAll (jsonFilesOf files) (mkWorld (inr files) fs []) with
        | (Throw _, w') => (Exit 1, w')
        | r => r
        end
    end.
Proof.
  unfold script, try_catch, readdirSync. unfold bind at 1. cbn [directory].
  destruct (jsonFilesOf files) as [|file rest]; [reflexivity|].
  cbn [length Nat.eqb]. unfold bind at 1, ret at 1.
  destruct (copyAll (file :: rest) (mkWorld (inr files) fs [])) as [[u|e|n] w'];
    reflexivity.
Qed.

(** X25. The artifact copier copies only files whose name ends in [.json],
    in the order of the directory listing, and stops at the first copy that
    fails. It falls off its end (exit code 0) exactly when there is such a
    file and every one of them was copied; it exits with code 0 and copies
    nothing when there is none; it exits with code 1 when a copy fails,
    having copied the files before that one, and when the directory cannot
    be read. No error escapes it. *)
Theorem script_copies_json_files (files : list jsstring)
        (fs : list (option exn)) :
  let res := script (mkWorld (inr files) fs []) in
  Forall (fun file => endsWith file (codeUnits ".json") = true) (copied res.2)
  /\ match res.1 with
     | Ret _ =>
         jsonFilesOf files <> []
         /\ copied res.2 = jsonFilesOf files
         /\ forall k e, (k < length (jsonFilesOf files))%nat ->
                        fs !! k <> Some (Some e)
     | Exit code =>
         (code = 0 /\ jsonFilesOf files = [] /\ copied res.2 = [])
         \/ (code = 1
             /\ exists k e,
                  (k < length (jsonFilesOf files))%nat
                  /\ fs !! k = Some (Some e)
                  /\ (forall j e', (j < k)%nat -> fs !! j <> Some (Some e'))
                  /\ copied res.2 = take k (jsonFilesOf files))
     | Throw _ => False
     end
  /\ forall e, script (mkWorld (inl e) fs []) = (Exit 1, mkWorld (inl e) fs []).
Proof.
  cbv zeta. split; [|split; [|reflexivity]].
  - rewrite script_unfold.
    destruct (jsonFilesOf files) as [|file rest] eqn:Hjson; [constructor|].
    pose proof (jsonFilesOf_json files) as Hall. rewrite Hjson in Hall.
    destruct (copyAll_cases (file :: rest) (mkWorld (inr files) fs []))
      as [_ [(_ & Hc & _)|(k & e & _ & _ & _ & _ & Hc)]];
      destruct (copyAll (file :: rest) (mkWorld (inr files) fs [])) as [[u|e'|n] w'];
      cbn [fst snd copied app] in *; rewrite Hc;
      try exact Hall; apply Forall_take; exact Hall.
  - rewrite script_unfold.
    destruct (jsonFilesOf files) as [|file rest] eqn:Hjson.
    { cbn. left. auto. }
    destruct (copyAll_cases (file :: rest) (mkWorld (inr files) fs []))
      as [_ [(Hr & Hc & Hok)|(k & e & Hlt & Hk & Hbefore & Hr & Hc)]];
      destruct (copyAll (file :: rest) (mkWorld (inr files) fs [])) as [r w'];
      cbn [fst snd copied faults app] in *; subst r; cbn [fst snd].
    + split; [discriminate|]. split; [exact Hc | exact Hok].
    + right. split; [reflexivity|]. exists k, e. auto.
Qed.

Example script_sample_directory :
  copied (script (mkWorld (inr sampleDirectory) [None; Some "EACCES"%string] [])).2
  = [codeUnits "wormhole.json"]
  /\ copied (script (mkWorld (inr sampleDirectory) [] [])).2
     = map codeUnits ["wormhole.json"; "token.json"].
Proof. split; vm_compute; reflexivity. Qed.

End CopyArtifactsProofs.

